(** * Stendhal item table: the item attribute-derivation pipeline

    A shallow embedding of the [classes], [logger], [util], [remote],
    [main] and [parser] objects of the page script (the revision that has
    the [classes] object and [parser.parseItems]), followed by the
    properties of the derivation of one display record per item node, and
    by further properties of the rest of the script: the version and the
    branch, the class list and the selection, the columns, the rows of
    the table, and the loading of the documents.  [main.getSorted],
    [main.reload] and the event handlers are not modelled.

    JavaScript numbers are IEEE 754 binary64 values: they are modelled by
    Rocq's primitive [float], whose operations are the processor's.  The
    ECMAScript built-ins the script relies on ([Number.parseFloat],
    [Number.parseInt], [Math.round], the conversion of a number to a
    string, and the string methods) are not part of the script; they are
    given executable definitions that follow the language specification.
    Texts are sequences of bytes, UTF-8 for what is not ASCII. *)

From Stdlib Require Import ZArith List String Ascii Bool Lia.
From Stdlib Require Import DecimalString.
From Stdlib Require Import Floats.
Import ListNotations.

Local Open Scope string_scope.
Local Open Scope Z_scope.

(** ** ECMAScript built-ins *)

Module JS.

(** A JavaScript number. *)
Definition number : Set := float.

(** The number nearest to [m * 10^e] (ties to even), negated when [neg].
    [m] is a natural number. *)
Definition ofDecimal (neg : bool) (m e : Z) : spec_float :=
  match m with
  | Zpos p =>
      if 0 <=? e
      then binary_normalize prec emax (cond_Zopp neg (Zpos p * 10 ^ e)) 0 false
      else SFdiv prec emax (S754_finite neg p 0)
                           (S754_finite false (Z.to_pos (10 ^ (- e))) 0)
  | _ => S754_zero neg
  end.

Definition byte (c : ascii) : Z := Z.of_nat (nat_of_ascii c).

Definition isDigit (c : ascii) : bool := (48 <=? byte c) && (byte c <=? 57).

(** White space that is a single UTF-8 byte: TAB, LF, VT, FF, CR, SP. *)
Definition isWhite1 (c : ascii) : bool :=
  ((9 <=? byte c) && (byte c <=? 13)) || (byte c =? 32).

(** U+00A0. *)
Definition isWhite2 (a b : ascii) : bool := (byte a =? 194) && (byte b =? 160).

(** U+1680, U+2000..U+200A, U+2028, U+2029, U+202F, U+205F, U+3000, U+FEFF. *)
Definition isWhite3 (a b c : ascii) : bool :=
  let '(x, y, z) := (byte a, byte b, byte c) in
  ((x =? 225) && (y =? 154) && (z =? 128))
  || ((x =? 226) && (y =? 128)
      && (((128 <=? z) && (z <=? 138)) || (z =? 168) || (z =? 169) || (z =? 175)))
  || ((x =? 226) && (y =? 129) && (z =? 159))
  || ((x =? 227) && (y =? 128) && (z =? 128))
  || ((x =? 239) && (y =? 187) && (z =? 191)).

(** Strings are sequences of UTF-8 bytes; leading white space and line
    terminators are dropped. *)
Fixpoint trimStart (s : string) : string :=
  match s with
  | String a r =>
      if isWhite1 a then trimStart r
      else match r with
           | String b r2 =>
               if isWhite2 a b then trimStart r2
               else match r2 with
                    | String c r3 => if isWhite3 a b c then trimStart r3 else s
                    | EmptyString => s
                    end
           | EmptyString => s
           end
  | EmptyString => s
  end.

(** Reads the longest run of decimal digits: the value read (on top of
    [acc]), the number of digits, and what follows. *)
Fixpoint digitsPrefix (s : string) (acc cnt : Z) : Z * Z * string :=
  match s with
  | String c r =>
      if isDigit c then digitsPrefix r (10 * acc + (byte c - 48)) (cnt + 1)
      else (acc, cnt, s)
  | EmptyString => (acc, cnt, s)
  end.

Definition signPrefix (s : string) : bool * string :=
  match s with
  | String "-" r => (true, r)
  | String "+" r => (false, r)
  | _ => (false, s)
  end.

(** [Number.parseFloat] on a string: the longest prefix of the trimmed
    input that is a [StrDecimalLiteral], or [NaN] when there is none. *)
Definition parseFloat (input : string) : number :=
  let (neg, t1) := signPrefix (trimStart input) in
  if prefix "Infinity" t1 then (if neg then neg_infinity else infinity)
  else
    let '(ip, ic, t2) := digitsPrefix t1 0 0 in
    let '(m, fc, t3) :=
      match t2 with
      | String "." r => digitsPrefix r ip 0
      | _ => (ip, 0, t2)
      end in
    if ic + fc =? 0 then nan
    else
      let ex :=
        match t3 with
        | String c r =>
            if (byte c =? 101) || (byte c =? 69) then
              let (sg, r1) := signPrefix r in
              let '(ev, ec, _) := digitsPrefix r1 0 0 in
              if ec =? 0 then 0 else if sg then - ev else ev
            else 0
        | EmptyString => 0
        end in
      SF2Prim (ofDecimal neg m (ex - fc)).

(** [Math.round]: the nearest integer, ties towards +Infinity; the sign of
    a zero result is the sign of the argument. *)
Definition round (x : number) : number :=
  match Prim2SF x with
  | S754_finite s m e =>
      if 0 <=? e then x
      else
        let d := 2 ^ (- e) in
        if s
        then SF2Prim (binary_normalize prec emax ((d - 2 * Zpos m) / (2 * d)) 0 true)
        else SF2Prim (binary_normalize prec emax ((2 * Zpos m + d) / (2 * d)) 0 false)
  | _ => x
  end.

(** *** Number to string *)

Definition digitChar (d : Z) : ascii := ascii_of_nat (Z.to_nat (48 + d)).

(** The [k] low decimal digits of [s], most significant first. *)
Fixpoint digits (k : nat) (s : Z) (acc : string) : string :=
  match k with
  | O => acc
  | S k' => digits k' (s / 10) (String (digitChar (s mod 10)) acc)
  end.

Fixpoint zeros (n : nat) : string :=
  match n with
  | O => ""
  | S n' => String "0" (zeros n')
  end.

Definition natString (z : Z) : string :=
  NilZero.string_of_uint (N.to_uint (Z.to_N z)).

(** [m * 2^e / 10^p] as a fraction of two positive integers. *)
Definition scaled (m : positive) (e p : Z) : Z * Z :=
  (Zpos m * 2 ^ Z.max e 0 * 10 ^ Z.max (- p) 0,
   2 ^ Z.max (- e) 0 * 10 ^ Z.max p 0).

(** The least [n], from [n] on, with [num / den < 10^(n - n0)], where the
    fraction [num / den] is the number divided by [10^n0] and [den] has
    already been multiplied by [10^(n - n0)]. *)
Fixpoint magnitudeFrom (fuel : nat) (num den n : Z) : Z :=
  match fuel with
  | O => n
  | S fuel' => if num <? den then n else magnitudeFrom fuel' num (10 * den) (n + 1)
  end.

(** The [n] with [10^(n-1) <= m * 2^e < 10^n].  The search starts at
    [min e 0], where [10^(n-1) < 2^e <= m * 2^e], and ends at the latest
    at the number of bits of the integer part, since [2^b <= 10^b]. *)
Definition magnitude (m : positive) (e : Z) : Z :=
  let n0 := Z.min e 0 in
  let (num, den) := scaled m e n0 in
  magnitudeFrom (Z.to_nat (Z.max (Zpos (digits2_pos m) + e) 0 - n0 + 1)) num den n0.

Definition roundTrips (m : positive) (e s p : Z) : bool :=
  SFeqb (ofDecimal false s p) (S754_finite false m e).

(** The digits [s], their number [k] and the exponent [n] of the
    specification of [Number::toString]: [k] is as small as possible with
    [s * 10^(n-k)] converting back to the number; of several [s], the
    closest one, and the even one in a tie. *)
Fixpoint shortest (fuel : nat) (m : positive) (e n k : Z) : Z * Z * Z :=
  let (num, den) := scaled m e (n - k) in
  let lo := num / den in
  let r := num mod den in
  let okLo := roundTrips m e lo (n - k) in
  let okHi := roundTrips m e (lo + 1) (n - k) in
  let useHi :=
    if okLo && okHi then (den <? 2 * r) || ((den =? 2 * r) && Z.odd lo)
    else okHi in
  match fuel with
  | O => (lo, k, n)
  | S fuel' =>
      if okLo || okHi then
        if useHi
        then (if lo + 1 =? 10 ^ k then (10 ^ (k - 1), k, n + 1) else (lo + 1, k, n))
        else (lo, k, n)
      else shortest fuel' m e n (k + 1)
  end.

Definition formatDecimal (s k n : Z) : string :=
  let ds := digits (Z.to_nat k) s "" in
  if (k <=? n) && (n <=? 21) then ds ++ zeros (Z.to_nat (n - k))
  else if (0 <? n) && (n <=? 21)
  then substring 0 (Z.to_nat n) ds ++ "." ++ substring (Z.to_nat n) (Z.to_nat (k - n)) ds
  else if (-6 <? n) && (n <=? 0) then "0." ++ zeros (Z.to_nat (- n)) ++ ds
  else
    let es := (if n - 1 <? 0 then "-" else "+") ++ natString (Z.abs (n - 1)) in
    if k =? 1 then ds ++ "e" ++ es
    else substring 0 1 ds ++ "." ++ substring 1 (Z.to_nat (k - 1)) ds ++ "e" ++ es.

(** [Number::toString] in radix 10, what [""+x] and string concatenation
    with a number produce. *)
Definition toString (x : number) : string :=
  match Prim2SF x with
  | S754_nan => "NaN"
  | S754_zero _ => "0"
  | S754_infinity s => if s then "-Infinity" else "Infinity"
  | S754_finite s m e =>
      let n := magnitude m e in
      let '(d, k, n') := shortest 17 m e n 1 in
      (if s then "-" else "") ++ formatDecimal d k n'
  end.

(** *** Trimming and [Number.parseInt] *)

Fixpoint revOnto (s acc : string) : string :=
  match s with
  | EmptyString => acc
  | String c r => revOnto r (String c acc)
  end.

(** [trimStart] on a reversed text, where the bytes of a white space
    character come last byte first. *)
Fixpoint trimStartReversed (s : string) : string :=
  match s with
  | String c r =>
      if isWhite1 c then trimStartReversed r
      else match r with
           | String b r2 =>
               if isWhite2 b c then trimStartReversed r2
               else match r2 with
                    | String a r3 =>
                        if isWhite3 a b c then trimStartReversed r3 else s
                    | EmptyString => s
                    end
           | EmptyString => s
           end
  | EmptyString => s
  end.

Definition trimEnd (s : string) : string :=
  revOnto (trimStartReversed (revOnto s "")) "".

(** [String.prototype.trim]. *)
Definition trim (s : string) : string := trimEnd (trimStart s).

(** [Number.parseInt(input, 10)]: the integer that the longest run of
    digits after the white space and the sign denotes, or [NaN] when
    there is no digit. *)
Definition parseInt (input : string) : number :=
  let (neg, t) := signPrefix (trimStart input) in
  let '(m, cnt, _) := digitsPrefix t 0 0 in
  if cnt =? 0 then nan else SF2Prim (ofDecimal neg m 0).

End JS.

(** ** Values and document nodes *)

(** The values the script handles besides numbers: [undefined], [null]
    (what [getAttribute] returns for a missing attribute) and strings. *)
Inductive jsval : Set :=
  | Undefined
  | Null
  | Str (s : string).

(** String conversion, as done by [+] with a string operand and by the
    argument conversion of [Number.parseFloat]. *)
Definition ToString (v : jsval) : string :=
  match v with
  | Undefined => "undefined"
  | Null => "null"
  | Str s => s
  end.

(** Truthiness, as tested by [if (v)] and [v ? a : b]. *)
Definition truthy (v : jsval) : bool :=
  match v with
  | Str s => negb (s =? "")%string
  | _ => false
  end.

(** Strict equality [v === "literal"]. *)
Definition strictEq (v : jsval) (lit : string) : bool :=
  match v with
  | Str s => (s =? lit)%string
  | _ => false
  end.

(** [s.includes(pat)]. *)
Fixpoint includes (s pat : string) : bool :=
  prefix pat s
  || match s with
     | String _ r => includes r pat
     | EmptyString => false
     end.

(** [s.split(sep)] for a one-character separator. *)
Fixpoint split (sep : ascii) (s : string) : list string :=
  match s with
  | EmptyString => [""]
  | String c r =>
      if (c =? sep)%char then "" :: split sep r
      else match split sep r with
           | h :: t => String c h :: t
           | [] => [String c ""]
           end
  end.

(** Line feed, carriage return, the double quote, and the two Unicode
    line terminators (as UTF-8). *)
Definition LF : string := String "010" "".
Definition CR : string := String "013" "".
Definition quote : string := String "034" "".
Definition LS : string := String "226" (String "128" (String "168" "")).
Definition PS : string := String "226" (String "128" (String "169" "")).

(** The text without its first [n] characters. *)
Fixpoint dropChars (n : nat) (s : string) : string :=
  match n, s with
  | S k, String _ r => dropChars k r
  | _, _ => s
  end.

(** [s.replaceAll(pat, rep)] for a text [pat] that is not empty; [skip]
    counts the characters of a match still to pass over. *)
Fixpoint replaceAllFrom (pat rep : string) (skip : nat) (s : string) : string :=
  match s with
  | EmptyString => EmptyString
  | String c r =>
      match skip with
      | S k => replaceAllFrom pat rep k r
      | O =>
          if prefix pat s
          then rep ++ replaceAllFrom pat rep (String.length pat - 1) r
          else String c (replaceAllFrom pat rep O r)
      end
  end.

Definition replaceAll (pat rep s : string) : string := replaceAllFrom pat rep 0 s.

(** [s.replace(/pat/, rep)] for a regular expression that is the literal
    text [pat]: the leftmost occurrence is replaced. *)
Fixpoint replaceFirst (pat rep s : string) : string :=
  if prefix pat s then rep ++ dropChars (String.length pat) s
  else match s with
       | EmptyString => EmptyString
       | String c r => String c (replaceFirst pat rep r)
       end.

(** [li.replace(/^\t/, "")]. *)
Definition dropLeadingTab (li : string) : string :=
  match li with
  | String "009" r => r
  | _ => li
  end.

(** A character that [.] does not match is in the text. *)
Definition hasLineTerminator (s : string) : bool :=
  includes s LF || includes s CR || includes s LS || includes s PS.

(** [s.replace(/\.xml.*$/, "")]: the text is cut at the leftmost ".xml"
    that no line terminator follows. *)
Fixpoint cutXml (s : string) : string :=
  if prefix ".xml" s && negb (hasLineTerminator s) then EmptyString
  else match s with
       | EmptyString => EmptyString
       | String c r => String c (cutXml r)
       end.

(** [arr.join(sep)] on texts. *)
Fixpoint join (sep : string) (l : list string) : string :=
  match l with
  | [] => ""
  | [x] => x
  | x :: rest => x ++ sep ++ join sep rest
  end.

(** [s.slice(-2)]. *)
Definition sliceLast2 (s : string) : string :=
  substring (String.length s - 2) 2 s.

(** An XML attribute of an element: its text, or [None] when the element
    does not carry it.  [getAttribute] gives [null] for the latter. *)
Definition getAttribute (a : option string) : jsval :=
  match a with
  | Some s => Str s
  | None => Null
  end.

(** An element below the [attributes] block: its tag name and its
    [value] attribute. *)
Record element : Set := { tagName : string; valueAttr : option string }.

(** The [type] node of an item, with its [class] and [subclass]
    attributes. *)
Record typeNode : Set := { classAttr : option string; subclassAttr : option string }.

(** A [susceptibility] node, with its [type] and [value] attributes. *)
Record susNode : Set := { susType : option string; susValue : option string }.

(** An [item] node as [parseItems] queries it.  [typeInfo], [valueInfo]
    and [attributes] are element [0] of the node's
    [getElementsByTagName("type")], [("value")] and [("attributes")]
    ([None] when there is no such element, which indexes to [undefined]);
    the [attributes] block is the list of the elements below it, in
    document order. *)
Record itemNode : Set := {
  nameAttr : option string;
  typeInfo : option typeNode;
  valueInfo : option (option string);
  attributes : option (list element);
  susceptibility : list susNode;
  unattainable : bool
}.

(** ** [classes] *)

Module classes.

Definition weapons : list string := ["axes"; "clubs"; "ranged"; "swords"; "whips"].
Definition protective : list string :=
  ["armors"; "boots"; "cloaks"; "helmets"; "legs"; "shields"].
Definition projectiles : list string := ["arrows"; "missiles"].

(** [arr.indexOf(x) > -1]. *)
Definition member (x : string) (arr : list string) : bool :=
  existsb (fun y => (y =? x)%string) arr.

Definition isWeaponType (className : string) : bool :=
  (className =? "weapons")%string || member className weapons.

Definition isArmorType (className : string) : bool :=
  (className =? "protective")%string || member className protective.

Definition isRangedType (className : string) : bool :=
  (className =? "ranged")%string.

Definition isProjectileType (className : string) : bool :=
  (className =? "projectiles")%string || member className projectiles.

(** [classes.groups], in the order of its keys. *)
Definition groups : list (string * list string) :=
  [("weapons", weapons); ("protective", protective); ("projectiles", projectiles)].

Definition excludes : list string := ["dummy_weapons"].

(** [Object.keys(this.groups)]. *)
Definition getGroupNames : list string := map fst groups.

(** [classes.groups[name]]. *)
Definition groupOf (nm : string) : option (list string) :=
  option_map snd (find (fun g => (fst g =? nm)%string) groups).

End classes.

Local Open Scope float_scope.

(** ** [util] *)

Module util.

Definition parseNumberDefault (value : jsval) (def : JS.number) : JS.number :=
  let res := JS.parseFloat (ToString value) in
  if is_nan res || negb (is_finite res) then def else res.

Definition normalize (content : string) : string :=
  replaceAll CR LF (replaceAll (CR ++ LF) LF content).

End util.

(** ** [main]: the loaded items *)

(** A display record.  The object literal of [parseItems] gives it the
    first nine properties; [dpt] and [special] are assigned afterwards. *)
Record item : Set := {
  name : jsval;
  class : jsval;
  image : jsval;
  value : jsval;
  level : JS.number;
  rate : JS.number;
  atk : JS.number;
  def : JS.number;
  range : JS.number;
  dpt : JS.number;
  special : list jsval
}.

(** The object literal, before [dpt] and [special] exist. *)
Record literal : Set := {
  l_name : jsval;
  l_class : jsval;
  l_image : jsval;
  l_value : jsval;
  l_level : JS.number;
  l_rate : JS.number;
  l_atk : JS.number;
  l_def : JS.number;
  l_range : JS.number
}.

(** The properties of [main] that the parser reads or writes, and the
    lines given to [logger.debug] (which go to the console only). *)
Record state : Set := {
  className : string;
  items : list item;
  showUnattainable : bool;
  debugLog : list string
}.

(** ** The page *)

(** A [p] element of the [messages] container. *)
Record paragraph : Set := { color : string; innerText : string }.

(** What a cell of the table holds: the text given to [innerHTML], or
    the icon container with the image of that [src]. *)
Inductive cellBody : Set :=
  | InnerHTML (html : string)
  | Icon (src : string).

Record cell : Set := { cellClass : list string; body : cellBody }.

(** [classList.add(tok)] and [classList.remove(tok)] on a token list. *)
Definition tokenAdd (tok : string) (cl : list string) : list string :=
  if existsb (fun t => (t =? tok)%string) cl then cl else (cl ++ [tok])%list.

Definition tokenRemove (tok : string) (cl : list string) : list string :=
  filter (fun t => negb (t =? tok)%string) cl.

(** Everything the script keeps or shows besides [core]: the other
    properties of [main] and [classes.available], and of the document the
    title, the messages, the options of the [classes] select, the class
    list of each column element and the cells appended to it, the columns
    being addressed by id.  The elements the script looks up by id are
    taken to exist.  [errorLog] holds what [console.error] was given.
    [main.sortBy] and [main.descending] only matter to [getSorted]. *)
Record page : Set := {
  core : state;
  version : list JS.number;
  branch : string;
  odd : bool;
  available : list string;
  title : string;
  messages : list paragraph;
  errorLog : list string;
  options : list string;
  selectedIndex : Z;
  classList : string -> list string;
  column : string -> list cell
}.

Definition withCore (pg : page) (c : state) : page :=
  {| core := c; version := version pg; branch := branch pg; odd := odd pg;
     available := available pg; title := title pg; messages := messages pg;
     errorLog := errorLog pg; options := options pg;
     selectedIndex := selectedIndex pg; classList := classList pg;
     column := column pg |}.

Definition withVersion (pg : page) (v : list JS.number) : page :=
  {| core := core pg; version := v; branch := branch pg; odd := odd pg;
     available := available pg; title := title pg; messages := messages pg;
     errorLog := errorLog pg; options := options pg;
     selectedIndex := selectedIndex pg; classList := classList pg;
     column := column pg |}.

Definition withBranch (pg : page) (b : string) : page :=
  {| core := core pg; version := version pg; branch := b; odd := odd pg;
     available := available pg; title := title pg; messages := messages pg;
     errorLog := errorLog pg; options := options pg;
     selectedIndex := selectedIndex pg; classList := classList pg;
     column := column pg |}.

Definition withAvailable (pg : page) (a : list string) : page :=
  {| core := core pg; version := version pg; branch := branch pg; odd := odd pg;
     available := a; title := title pg; messages := messages pg;
     errorLog := errorLog pg; options := options pg;
     selectedIndex := selectedIndex pg; classList := classList pg;
     column := column pg |}.

Definition withTitle (pg : page) (t : string) : page :=
  {| core := core pg; version := version pg; branch := branch pg; odd := odd pg;
     available := available pg; title := t; messages := messages pg;
     errorLog := errorLog pg; options := options pg;
     selectedIndex := selectedIndex pg; classList := classList pg;
     column := column pg |}.

Definition withOptions (pg : page) (o : list string) : page :=
  {| core := core pg; version := version pg; branch := branch pg; odd := odd pg;
     available := available pg; title := title pg; messages := messages pg;
     errorLog := errorLog pg; options := o;
     selectedIndex := selectedIndex pg; classList := classList pg;
     column := column pg |}.

Definition withSelectedIndex (pg : page) (i : Z) : page :=
  {| core := core pg; version := version pg; branch := branch pg; odd := odd pg;
     available := available pg; title := title pg; messages := messages pg;
     errorLog := errorLog pg; options := options pg;
     selectedIndex := i; classList := classList pg; column := column pg |}.

Definition withClassList (pg : page) (cl : string -> list string) : page :=
  {| core := core pg; version := version pg; branch := branch pg; odd := odd pg;
     available := available pg; title := title pg; messages := messages pg;
     errorLog := errorLog pg; options := options pg;
     selectedIndex := selectedIndex pg; classList := cl; column := column pg |}.

(** One more row: the cells go to the columns and [main.odd] flips. *)
Definition withRow (pg : page) (col : string -> list cell) : page :=
  {| core := core pg; version := version pg; branch := branch pg;
     odd := negb (odd pg);
     available := available pg; title := title pg; messages := messages pg;
     errorLog := errorLog pg; options := options pg;
     selectedIndex := selectedIndex pg; classList := classList pg;
     column := col |}.

(** How a function of the page ends: it returns, or throws a
    [TypeError]; either way with the page as it is by then. *)
Inductive result : Set :=
  | Done (pg : page)
  | Raised (pg : page).

(** ** [logger] *)

Module logger.

Definition display (msg clr : string) (pg : page) : page :=
  {| core := core pg; version := version pg; branch := branch pg; odd := odd pg;
     available := available pg; title := title pg;
     messages := (messages pg ++ [{| color := clr; innerText := msg |}])%list;
     errorLog := errorLog pg; options := options pg;
     selectedIndex := selectedIndex pg; classList := classList pg;
     column := column pg |}.

(** [logger.error(err)] with the text [msg] of the error ([err] itself,
    or [err.message] for an error object), [display] being left to its
    default [true]. *)
Definition error (msg : string) (pg : page) : page :=
  display ("ERROR: " ++ msg) "red"
    {| core := core pg; version := version pg; branch := branch pg; odd := odd pg;
       available := available pg; title := title pg; messages := messages pg;
       errorLog := (errorLog pg ++ [msg])%list; options := options pg;
       selectedIndex := selectedIndex pg; classList := classList pg;
       column := column pg |}.

End logger.

Module main.

(** [main.pop(name)]: the first record of that name, and the list
    without it. *)
Fixpoint pop (nm : string) (its : list item) : option item * list item :=
  match its with
  | [] => (None, [])
  | it :: rest =>
      if strictEq (name it) nm then (Some it, rest)
      else let (res, rest') := pop nm rest in (res, it :: rest')
  end.

(** [main.updateBranch()]. *)
Definition updateBranch (pg : page) : page :=
  match version pg with
  | [] => pg
  | major :: rest =>
      withBranch pg
        ("VERSION_" ++ sliceLast2 ("0" ++ JS.toString major) ++ "_RELEASE_"
         ++ match rest with
            | minor :: _ => JS.toString minor
            | [] => "undefined"
            end)
  end.

Definition weaponAttr : list string := ["level"; "rate"; "atk"; "dpt"].
Definition armorAttr : list string := ["level"; "def"].
Definition projAttr : list string := ["level"; "atk"; "range"].

(** [document.getElementById(id).classList.add("hidden")] and
    [.remove("hidden")]. *)
Definition hide (cl : string -> list string) (id : string) : string -> list string :=
  fun i => if (i =? id)%string then tokenAdd "hidden" (cl i) else cl i.

Definition unhide (cl : string -> list string) (id : string) : string -> list string :=
  fun i => if (i =? id)%string then tokenRemove "hidden" (cl i) else cl i.

(** [main.updateColumns()]. *)
Definition updateColumns (pg : page) : page :=
  let cls := className (core pg) in
  let cl := fold_left hide ("value" :: weaponAttr ++ armorAttr ++ projAttr)%list
              (classList pg) in
  withClassList pg
    (if classes.isWeaponType cls then
       let cl := fold_left unhide weaponAttr cl in
       if classes.isRangedType cls then unhide cl "range" else cl
     else if classes.isArmorType cls then fold_left unhide armorAttr cl
     else if classes.isProjectileType cls then fold_left unhide projAttr cl
     else if (cls =? "money")%string then unhide cl "value"
     else cl).

(** The index of the first option whose value is [nm]. *)
Fixpoint optionIndex (nm : string) (opts : list string) (idx : Z) : option Z :=
  match opts with
  | [] => None
  | o :: rest => if (o =? nm)%string then Some idx else optionIndex nm rest (idx + 1)%Z
  end.

(** [main.selectClass(name)]. *)
Definition selectClass (nm : string) (pg : page) : page :=
  updateColumns
    match optionIndex nm (options pg) 0%Z with
    | Some idx =>
        withSelectedIndex
          (withCore pg
             {| className := nm; items := items (core pg);
                showUnattainable := showUnattainable (core pg);
                debugLog := debugLog (core pg) |})
          idx
    | None => pg
    end.

(** *** The loop of [main.displayItems] *)

Definition repoPrefix : string := "https://raw.githubusercontent.com/arianne/stendhal/".

(** The link of the name cell; [None] when [name] is [null], on which
    [replaceAll] cannot be called. *)
Definition itemLink (it : item) : option string :=
  match name it with
  | Str nm =>
      let nm := if (nm =? "l/r hand swords")%string then "l hand sword" else nm in
      Some ("https://stendhalgame.org/item/" ++ ToString (class it) ++ "/"
            ++ replaceAll " " "_" nm ++ ".html")
  | _ => None
  end.

(** The class list of the cells of a row. *)
Definition rowClasses (isOdd : bool) : list string :=
  if isOdd then ["cell"; "odd-cell"] else ["cell"].

(** A new [div] with the classes [toks] added one by one. *)
Definition newCell (toks : list string) (b : cellBody) : cell :=
  {| cellClass := fold_left (fun cl t => tokenAdd t cl) toks []; body := b |}.

Definition innerHTMLOf (value : string) : cellBody :=
  InnerHTML (if (value =? "")%string then "&nbsp;"
             else "&nbsp;&nbsp;&nbsp;&nbsp;" ++ value).

(** [value.join(", ")] on the special list: [null] and [undefined] give
    the empty text. *)
Definition joinSpecial (l : list jsval) : string :=
  join ", " (map (fun v => match v with Str x => x | _ => "" end) l).

(** The cells of the row of [it], one per property in the order of the
    properties of the record, each with the id of the column it is
    appended to. *)
Definition rowCells (br : string) (isOdd : bool) (it : item) (link : string)
  : list (string * cell) :=
  let cl := rowClasses isOdd in
  [("name", newCell cl
              (innerHTMLOf ("<a href=" ++ quote ++ link ++ quote ++ " target="
                            ++ quote ++ "_blank" ++ quote ++ ">"
                            ++ ToString (name it) ++ "</a>")));
   ("class", newCell cl (innerHTMLOf (ToString (class it))));
   ("image", newCell (cl ++ ["left-cell"])
               (Icon (repoPrefix ++ br ++ "/data/sprites/items/"
                      ++ ToString (class it) ++ "/" ++ ToString (image it) ++ ".png")));
   ("value", newCell cl (innerHTMLOf (ToString (value it))));
   ("level", newCell cl (innerHTMLOf (JS.toString (level it))));
   ("rate", newCell cl (innerHTMLOf (JS.toString (rate it))));
   ("atk", newCell cl (innerHTMLOf (JS.toString (atk it))));
   ("def", newCell cl (innerHTMLOf (JS.toString (def it))));
   ("range", newCell cl (innerHTMLOf (JS.toString (range it))));
   ("dpt", newCell cl (innerHTMLOf (JS.toString (dpt it))));
   ("special", newCell (cl ++ ["right-cell"]) (innerHTMLOf (joinSpecial (special it))))]%list.

(** [document.getElementById(prop).appendChild(element)]. *)
Definition appendCell (col : string -> list cell) (pc : string * cell)
  : string -> list cell :=
  fun i => if (i =? fst pc)%string then (col i ++ [snd pc])%list else col i.

(** The loop of [displayItems] over [rows], the list that [getSorted()]
    returned. *)
Fixpoint displayRows (rows : list item) (pg : page) : result :=
  match rows with
  | [] => Done pg
  | it :: rest =>
      match itemLink it with
      | None => Raised pg
      | Some link =>
          displayRows rest
            (withRow pg (fold_left appendCell (rowCells (branch pg) (odd pg) it link)
                           (column pg)))
      end
  end.

End main.

Local Open Scope float_scope.

(** ** [parser] *)

(** How the processing of a document ends: [parseItems] returns, or a
    [TypeError] is thrown (a property read on [undefined] or [null]);
    either way with the state reached so far. *)
Inductive outcome : Set :=
  | Returned (st : state)
  | TypeError (st : state).

Module parser.

(** [attributes.getElementsByTagName(name)[0]]. *)
Definition firstByTagName (attributes : list element) (nm : string) : option element :=
  find (fun el => (tagName el =? nm)%string) attributes.

(** The callers that leave [def] out get its default value [0]. *)
Definition numberAttribute (attributes : list element) (nm : string) (def : JS.number)
  : JS.number :=
  match firstByTagName attributes nm with
  | None => def
  | Some element => util.parseNumberDefault (getAttribute (valueAttr element)) def
  end.

Definition stringAttribute (attributes : list element) (nm : string) : jsval :=
  match firstByTagName attributes nm with
  | None => Undefined
  | Some element => getAttribute (valueAttr element)
  end.

(** *** The blocks of [parseItems] that push onto [item.special] *)

Definition signed (v : JS.number) : string :=
  (if 0 <? v then "+" else "") ++ JS.toString v.

Definition natureTraits (attributes : list element) : list jsval :=
  let nature := stringAttribute attributes "damagetype" in
  match nature with
  | Undefined => []
  | _ => [nature]
  end.

(** [None] when [statusAttack.includes] is called on [null]. *)
Definition statusTraits (attributes : list element) : option (list jsval) :=
  let statusAttack := stringAttribute attributes "statusattack" in
  match statusAttack with
  | Undefined => Some []
  | Null => None
  | Str s =>
      if includes s "poison" || includes s "venom" then Some [Str "poison"]
      else if includes s "," then Some [nth 1 (map Str (split "," s)) Undefined]
      else Some [statusAttack]
  end.

Definition susTrait (sus : susNode) : list jsval :=
  let value :=
    JS.round (util.parseNumberDefault (getAttribute (susValue sus)) 1 * 1000) / 10 in
  if negb (value =? 100) then
    let value := 100 - value in
    [Str (ToString (getAttribute (susType sus)) ++ " (" ++ signed value ++ "%)")]
  else [].

Definition susTraits (nodes : list susNode) : list jsval := flat_map susTrait nodes.

Definition lifestealTraits (attributes : list element) : list jsval :=
  let lifesteal := numberAttribute attributes "lifesteal" 0 * 100 in
  if negb (lifesteal =? 0) then [Str ("lifesteal (" ++ signed lifesteal ++ "%)")]
  else [].

Definition atkTraits (cls : string) (atk : JS.number) : list jsval :=
  if negb (classes.isWeaponType cls) && negb (classes.isProjectileType cls)
     && negb (atk =? 0)
  then [Str ("atk=" ++ JS.toString atk)]
  else [].

Definition defTraits (cls : string) (def : JS.number) : list jsval :=
  if negb (classes.isArmorType cls) && negb (def =? 0)
  then [Str ("def (" ++ JS.toString def ++ ")")]
  else [].

Definition rangeTraits (cls : string) (range : JS.number) : list jsval :=
  if negb (classes.isRangedType cls) && negb (classes.isProjectileType cls)
     && negb (range =? 0)
  then [Str ("range (" ++ JS.toString range ++ ")")]
  else [].

Definition consumeTraits (attributes : list element) : list jsval :=
  let consumeAmount := numberAttribute attributes "amount" 0 in
  if negb (consumeAmount =? 0) then
    let cures := stringAttribute attributes "immunization" in
    if truthy cures then
      [Str ("cure (" ++ ToString cures ++ ")");
       Str ("immunity duration (" ++ JS.toString consumeAmount ++ ")")]
    else
      let regenType := if 0 <? consumeAmount then "heal" else "hurt" in
      let regen := numberAttribute attributes "regen" 0 in
      let frequency := numberAttribute attributes "frequency" 0 in
      Str (regenType ++ " (" ++ JS.toString consumeAmount ++ ")")
      :: (if negb (frequency =? 1) || negb (regen =? consumeAmount)
          then [Str ("regen (" ++ JS.toString regen ++ ")");
                Str ("frequency (" ++ JS.toString frequency ++ ")")]
          else [])
  else [].

(** [item.special] as the blocks fill it, in their order; [cls] is
    [main.className] and [it] the record the traits are pushed on. *)
Definition specialTraits (cls : string) (attributes : list element)
    (nodes : list susNode) (it : literal) : option (list jsval) :=
  match statusTraits attributes with
  | None => None
  | Some status =>
      Some (natureTraits attributes ++ status ++ susTraits nodes
            ++ lifestealTraits attributes
            ++ atkTraits cls (l_atk it) ++ defTraits cls (l_def it)
            ++ rangeTraits cls (l_range it)
            ++ consumeTraits attributes)%list
  end.

(** *** One turn of the loop of [parseItems] *)

(** The object literal. *)
Definition newItem (itemData : itemNode) (typeInfo : typeNode)
    (attributes : list element) : literal :=
  {| l_name := getAttribute (nameAttr itemData);
     l_class := getAttribute (classAttr typeInfo);
     l_image := getAttribute (subclassAttr typeInfo);
     l_value := match valueInfo itemData with
                | Some valueInfo => getAttribute valueInfo
                | None => Str "0"
                end;
     l_level := numberAttribute attributes "min_level" 0;
     l_rate := numberAttribute attributes "rate" 0;
     l_atk := numberAttribute attributes "atk" 0;
     l_def := numberAttribute attributes "def" 0;
     l_range := numberAttribute attributes "range" 0 |}.

(** The popped record after the three assignments of the merge; it takes
    the place of [item]. *)
Definition mergeSwords (lrSword : item) (it : literal) : literal :=
  {| l_name := Str "l/r hand swords";
     l_class := class lrSword;
     l_image := image lrSword;
     l_value := value lrSword;
     l_level := level lrSword;
     l_rate := rate lrSword;
     l_atk := atk lrSword + l_atk it;
     l_def := def lrSword + l_def it;
     l_range := range lrSword |}.

(** The lookup for the other half of the pair, with the list it leaves. *)
Definition popOther (nm : jsval) (its : list item) : option item * list item :=
  if strictEq nm "l hand sword" then main.pop "r hand sword" its
  else if strictEq nm "r hand sword" then main.pop "l hand sword" its
  else (None, its).

Definition computeDpt (atk rate : JS.number) : JS.number :=
  JS.round ((atk / rate) * 100) / 100.

Definition finish (it : literal) (special : list jsval) : item :=
  {| name := l_name it; class := l_class it; image := l_image it;
     value := l_value it; level := l_level it; rate := l_rate it;
     atk := l_atk it; def := l_def it; range := l_range it;
     dpt := computeDpt (l_atk it) (l_rate it);
     special := special |}.

Definition setItems (st : state) (its : list item) : state :=
  {| className := className st; items := its;
     showUnattainable := showUnattainable st; debugLog := debugLog st |}.

Definition debug (st : state) (msg : string) : state :=
  {| className := className st; items := items st;
     showUnattainable := showUnattainable st;
     debugLog := (debugLog st ++ [msg])%list |}.

(** The record the turn works on, up to the end of the trait blocks, and
    the list [main.items] is left with by then: the records of [st]
    without the popped one.  [None] for the record when a trait block
    throws. *)
Definition derive (st : state) (itemData : itemNode) (typeInfo : typeNode)
    (attributes : list element) : list item * option item :=
  let item := newItem itemData typeInfo attributes in
  let (lrSword, its) := popOther (l_name item) (items st) in
  let item :=
    match lrSword with
    | Some lrSword => mergeSwords lrSword item
    | None => item
    end in
  (its,
   option_map (finish item)
     (specialTraits (className st) attributes (susceptibility itemData) item)).

Definition parseItem (st : state) (itemData : itemNode) : outcome :=
  match typeInfo itemData, attributes itemData with
  | Some typeInfo, Some attributes =>
      match derive st itemData typeInfo attributes with
      | (its, None) => TypeError (setItems st its)
      | (its, Some item) =>
          if unattainable itemData then
            let st := debug (setItems st its) ("Unattainable: " ++ ToString (name item)) in
            Returned (if showUnattainable st then setItems st (its ++ [item])%list
                      else st)
          else Returned (setItems st (its ++ [item])%list)
      end
  | _, _ => TypeError st
  end.

Fixpoint parseItems (st : state) (content : list itemNode) : outcome :=
  match content with
  | [] => Returned st
  | itemData :: rest =>
      match parseItem st itemData with
      | Returned st' => parseItems st' rest
      | TypeError st' => TypeError st'
      end
  end.

(** *** [parseVersion] and [parseClasses] *)

(** The end of [parseVersion]: the title when a version is known, and
    the branch. *)
Definition showVersion (pg : page) : page :=
  main.updateBranch
    match version pg with
    | [] => pg
    | _ => withTitle pg ("Stendhal " ++ join "." (map JS.toString (version pg)) ++ " Items")
    end.

(** [Some] of the version line, or [None] when no line starts with
    "version.old". *)
Definition versionLine (content : string) : option string :=
  find (prefix "version.old") (split "010" (util.normalize content)).

(** [parser.parseVersion(content)].  It throws when the version line has
    no "=": [trim] is then called on [undefined]. *)
Definition parseVersion (content : string) (pg : page) : result :=
  match versionLine content with
  | Some li =>
      match nth_error (split "=" li) 1 with
      | Some v =>
          Done (showVersion
                  (withVersion pg
                     (version pg ++ map JS.parseInt (split "." (JS.trim v)))%list))
      | None => Raised pg
      end
  | None => Done (showVersion pg)
  end.

(** The opening of a group line, up to the slash after [items]. *)
Definition groupTag : string := "<group uri=" ++ quote ++ "items/".

(** The first loop of [parseClasses]: the class names of the group lines,
    the excluded ones apart, pushed on [classes.available]. *)
Fixpoint readClasses (lines : list string) (avail : list string) : list string :=
  match lines with
  | [] => avail
  | li :: rest =>
      let li := dropLeadingTab li in
      if prefix groupTag li then
        let className := cutXml (replaceFirst groupTag "" li) in
        if classes.member className classes.excludes then readClasses rest avail
        else readClasses rest (avail ++ [className])%list
      else readClasses rest avail
  end.

(** [parser.parseClasses(content)]; [requested] is what
    [params.get("class")] returns, [None] for [null]. *)
Definition parseClasses (content : string) (requested : option string) (pg : page)
  : page :=
  let avail := readClasses (split "010" (util.normalize content)) (available pg) in
  let classNames := (classes.getGroupNames ++ avail)%list in
  let pg := withOptions (withAvailable pg avail) (options pg ++ classNames)%list in
  match requested with
  | Some className =>
      if classes.member className classNames then main.selectClass className pg
      else main.selectClass "weapons"
             (logger.error ("Unknown item class: " ++ className) pg)
  | None => main.selectClass "weapons" pg
  end.

End parser.

(** ** [remote] *)

(** What [fetch(url)] and [res.text()] come to: the text of the
    document, or an error with its message. *)
Inductive response : Set :=
  | Body (text : string)
  | Rejected (message : string).

(** The surroundings of the script: the network, the item nodes that
    [DOMParser] and [getElementsByTagName("item")] find in a text, the
    [class] parameter of the address, and the message of the [TypeError]
    that the callback of the document at a path throws on a text.  That
    message is the engine's and depends on where the callback threw,
    which the path (it fixes the callback) and the text decide. *)
Record browser : Set := {
  fetch : string -> response;
  itemsOf : string -> list itemNode;
  classParam : option string;
  typeErrorMessage : string -> string -> string
}.

Module remote.

Section Remote.

Variable env : browser.

(** [remote.fetchText(path, callback)]: what the callback throws is
    caught with what the network throws, and logged. *)
Definition fetchText (path : string) (callback : string -> page -> result)
    (pg : page) : page :=
  match fetch env (main.repoPrefix ++ branch pg ++ "/" ++ path) with
  | Body text =>
      match callback text pg with
      | Done pg' => pg'
      | Raised pg' => logger.error (typeErrorMessage env path text) pg'
      end
  | Rejected message => logger.error message pg
  end.

Definition fetchVersion (pg : page) : page :=
  fetchText "build.ant.properties" parser.parseVersion pg.

Definition fetchClasses (pg : page) : page :=
  fetchText "data/conf/items.xml"
    (fun content pg => Done (parser.parseClasses content (classParam env) pg)) pg.

(** The callback of the item documents: [parser.parseItems(content)]. *)
Definition itemsCallback (content : string) (pg : page) : result :=
  match parser.parseItems (core pg) (itemsOf env content) with
  | Returned st => Done (withCore pg st)
  | TypeError st => Raised (withCore pg st)
  end.

Definition fetchClassItems (pg : page) (cls : string) : page :=
  fetchText ("data/conf/items/" ++ cls ++ ".xml") itemsCallback pg.

(** [remote.fetchItemsForClass()]. *)
Definition fetchItemsForClass (pg : page) : page :=
  let cls := className (core pg) in
  if (String.length cls =? 0)%nat then logger.error "No class selected" pg
  else
    match (if classes.member cls classes.getGroupNames then classes.groupOf cls
           else None) with
    | Some members => fold_left fetchClassItems members pg
    | None => fetchClassItems pg cls
    end.

End Remote.

End remote.



(** * Vocabulary of the properties *)

(** ** Attribute bags *)

(** No element of the bag has the tag [nm]. *)
Definition absent (nm : string) (attributes : list element) : Prop :=
  forall el, In el attributes -> tagName el <> nm.

(** The bag without the elements of tag [nm]. *)
Definition without (nm : string) (attributes : list element) : list element :=
  filter (fun el => negb (tagName el =? nm)%string) attributes.

(** ** Outcomes *)

Definition returns (o : outcome) : bool :=
  match o with
  | Returned _ => true
  | TypeError _ => false
  end.

Definition finalState (o : outcome) : state :=
  match o with
  | Returned st => st
  | TypeError st => st
  end.

(** What the loop body reads without a guard is there: the [type] node,
    the [attributes] block, and the [value] text of the [statusattack]
    element if there is one. *)
Definition wellFormed (itemData : itemNode) : bool :=
  match typeInfo itemData, attributes itemData with
  | Some _, Some attributes =>
      match parser.stringAttribute attributes "statusattack" with
      | Null => false
      | _ => true
      end
  | _, _ => false
  end.

Definition hasTypeAndAttributes (itemData : itemNode) : Prop :=
  typeInfo itemData <> None /\ attributes itemData <> None.

(** The end of a turn that built the record [it] and left [its] in the
    collection: the [unattainable] gate, then the push. *)
Definition commit (st : state) (itemData : itemNode) (its : list item) (it : item)
  : state :=
  if unattainable itemData then
    let st := parser.debug (parser.setItems st its)
                ("Unattainable: " ++ ToString (name it)) in
    if showUnattainable st then parser.setItems st (its ++ [it])%list else st
  else parser.setItems st (its ++ [it])%list.

(** The record is pushed: the node has no [unattainable] marker, or
    [main.showUnattainable] is set. *)
Definition kept (st : state) (itemData : itemNode) : bool :=
  negb (unattainable itemData) || showUnattainable st.

(** ** Traits *)

(** The status rule as the specification words it: the text after the
    first comma. *)
Fixpoint afterFirstComma (s : string) : string :=
  match s with
  | EmptyString => ""
  | String c r => if (c =? ",")%char then r else afterFirstComma r
  end.

(** Neither of the two traits of the cure branch. *)
Definition notCureTrait (t : jsval) : bool :=
  match t with
  | Str x => negb (prefix "cure (" x) && negb (prefix "immunity duration (" x)
  | _ => true
  end.

(** A record whose [dpt] is the formula on its own [atk] and [rate], and
    is therefore not finite when the rate is a zero. *)
Definition dptDerived (it : item) : Prop :=
  dpt it = JS.round (atk it / rate it * 100) / 100
  /\ ((rate it =? 0) = true ->
      is_finite (dpt it) = false
      /\ (dpt it = nan \/ dpt it = infinity \/ dpt it = neg_infinity)).

(** ** The pair of hand swords *)

(** The names of the two halves and of the merged record. *)
Definition pairName (v : jsval) : bool :=
  strictEq v "l hand sword" || strictEq v "r hand sword"
  || strictEq v "l/r hand swords".

Definition noPairRecord (its : list item) : Prop :=
  Forall (fun it => pairName (name it) = false) its.

(** The [atk] and [def] that the object literal reads from a node. *)
Definition atkOf (itemData : itemNode) : JS.number :=
  match attributes itemData with
  | Some attrs => parser.numberAttribute attrs "atk" 0
  | None => 0
  end.

Definition defOf (itemData : itemNode) : JS.number :=
  match attributes itemData with
  | Some attrs => parser.numberAttribute attrs "def" 0
  | None => 0
  end.

(** ** Sample documents *)

(** [main] before the first document, with [cls] selected. *)
Definition bareState (cls : string) : state :=
  {| className := cls; items := []; showUnattainable := false; debugLog := [] |}.

(** [<tag value="text"/>]. *)
Definition attr (tag text : string) : element :=
  {| tagName := tag; valueAttr := Some text |}.

Definition statusBag (v : string) : list element := [attr "statusattack" v].

(** [<susceptibility type="..." value="..."/>]. *)
Definition susNodeOf (type value : string) : susNode :=
  {| susType := Some type; susValue := Some value |}.

(** An item of class "sword" with the given name and attribute bag,
    [marked] when it has an [unattainable] node. *)
Definition swordNode (nm : string) (attrs : list element) (marked : bool) : itemNode :=
  {| nameAttr := Some nm;
     typeInfo := Some {| classAttr := Some "sword"; subclassAttr := Some "sword" |};
     valueInfo := None; attributes := Some attrs; susceptibility := [];
     unattainable := marked |}.

(** The first end-to-end sample of the specification. *)
Definition woodenBow : itemNode :=
  {| nameAttr := Some "wooden bow";
     typeInfo := Some {| classAttr := Some "ranged"; subclassAttr := Some "wooden_bow" |};
     valueInfo := None; attributes := Some [attr "atk" "4"; attr "rate" "2"];
     susceptibility := []; unattainable := false |}.

(** An item without a name, with a [type] node that has no attribute, an
    [atk] that is not a number, a [def] element and a susceptibility node
    without attributes. *)
Definition degenerateNode : itemNode :=
  {| nameAttr := None;
     typeInfo := Some {| classAttr := None; subclassAttr := None |};
     valueInfo := None;
     attributes := Some [attr "atk" "strong"; {| tagName := "def"; valueAttr := None |}];
     susceptibility := [{| susType := None; susValue := None |}];
     unattainable := false |}.

(** ** The collection along a run *)

(** Some record of the list has the name [nm]. *)
Definition hasName (nm : string) (its : list item) : bool :=
  existsb (fun it => strictEq (name it) nm) its.

(** Not both an unmerged left half and an unmerged right half. *)
Definition halvesApart (its : list item) : Prop :=
  hasName "l hand sword" its && hasName "r hand sword" its = false.

(** The nodes whose record is pushed when the turn gets to its end. *)
Definition keptCount (st : state) (content : list itemNode) : nat :=
  List.length (filter (kept st) content).

Definition markedCount (content : list itemNode) : nat :=
  List.length (filter unattainable content).

(** The node without its [unattainable] marker. *)
Definition unmark (itemData : itemNode) : itemNode :=
  {| nameAttr := nameAttr itemData; typeInfo := typeInfo itemData;
     valueInfo := valueInfo itemData; attributes := attributes itemData;
     susceptibility := susceptibility itemData; unattainable := false |}.

(** [level], [rate] and [range] are finite, [atk] and [def] are numbers,
    and finite ones on a record that has the name of a half. *)
Definition statsOk (it : item) : Prop :=
  is_finite (level it) = true /\ is_finite (rate it) = true
  /\ is_finite (range it) = true
  /\ is_nan (atk it) = false /\ is_nan (def it) = false
  /\ (strictEq (name it) "l hand sword" || strictEq (name it) "r hand sword" = true ->
      is_finite (atk it) = true /\ is_finite (def it) = true).

(** The record a turn works on, after the lookup gave [lr]. *)
Definition turnLiteral (itemData : itemNode) (ti : typeNode) (attrs : list element)
    (lr : option item) : literal :=
  match lr with
  | Some lrSword => parser.mergeSwords lrSword (parser.newItem itemData ti attrs)
  | None => parser.newItem itemData ti attrs
  end.

(** Two states of [main] with the same selection, collection and
    flag; their debug logs may differ. *)
Definition sameCollection (a b : state) : Prop :=
  className a = className b /\ items a = items b
  /\ showUnattainable a = showUnattainable b.

(** ** The version *)

(** No line of the normalized text starts with "version.old". *)
Definition noVersionLine (content : string) : Prop :=
  Forall (fun l => prefix "version.old" l = false)
         (split "010" (util.normalize content)).

(** [li] is the first line of the normalized text that starts with
    "version.old". *)
Definition firstVersionLine (content li : string) : Prop :=
  exists before after,
    split "010" (util.normalize content) = (before ++ li :: after)%list
    /\ Forall (fun l => prefix "version.old" l = false) before
    /\ prefix "version.old" li = true.

(** The number that is the natural number [z]. *)
Definition numberOfZ (z : Z) : JS.number := SF2Prim (JS.ofDecimal false z 0).

(** The natural numbers below 1000. *)
Definition smallZ : list Z := map Z.of_nat (seq 0 1000).

(** A page before anything is loaded. *)
Definition blankPage : page :=
  {| core := bareState "weapons"; version := []; branch := "master"; odd := false;
     available := []; title := ""; messages := []; errorLog := [];
     options := []; selectedIndex := (-1)%Z; classList := fun _ => [];
     column := fun _ => [] |}.

(** [updateBranch] leaves everything but the branch. *)
Definition updateBranch_frame (pg : page) : Prop :=
  main.updateBranch pg = withBranch pg (branch (main.updateBranch pg)).

(** ** The classes *)

Definition notExcluded (c : string) : Prop :=
  classes.member c classes.excludes = false.

(** The class names [parseClasses] makes options of. *)
Definition offered (pg : page) : list string :=
  (classes.getGroupNames ++ available pg)%list.

(** The message shown for a [class] parameter that is not offered. *)
Definition unknownClass (c : string) : paragraph :=
  {| color := "red"; innerText := "ERROR: Unknown item class: " ++ c |}.

(** The class [parseClasses] selects. *)
Definition selection (requested : option string) (names : list string) : string :=
  match requested with
  | Some c => if classes.member c names then c else "weapons"
  | None => "weapons"
  end.

(** The column element [id] has the token "hidden". *)
Definition hidden (pg : page) (id : string) : bool :=
  classes.member "hidden" (classList pg id).

(** The ids [updateColumns] works on. *)
Definition statColumns : list string :=
  ["value"; "level"; "rate"; "atk"; "dpt"; "def"; "range"].

(** A line of the configuration that includes the document of [c]. *)
Definition groupLine (c : string) : string :=
  String "009" (parser.groupTag ++ c ++ ".xml" ++ quote ++ "/>").

(** The ids [updateColumns] takes "hidden" off again. *)
Definition shownColumns (cls : string) : list string :=
  if classes.isWeaponType cls then
    (main.weaponAttr ++ if classes.isRangedType cls then ["range"%string] else [])%list
  else if classes.isArmorType cls then main.armorAttr
  else if classes.isProjectileType cls then main.projAttr
  else if (cls =? "money")%string then ["value"%string]
  else [].

(** ** The table *)

(** The ids of the columns a row has a cell in, in the order of the
    properties of a record. *)
Definition tableColumns : list string :=
  ["name"; "class"; "image"; "value"; "level"; "rate"; "atk"; "def"; "range";
   "dpt"; "special"].

(** The name of the record is a text. *)
Definition named (it : item) : Prop := exists nm, name it = Str nm.

Definition isOddCell (c : cell) : bool := classes.member "odd-cell" (cellClass c).

(** A record with the name [nm] and the class [cls]. *)
Definition plainRecord (nm : jsval) (cls : string) : item :=
  {| name := nm; class := Str cls; image := Null; value := Null;
     level := numberOfZ 0; rate := numberOfZ 0; atk := numberOfZ 0;
     def := numberOfZ 0; range := numberOfZ 0; dpt := numberOfZ 0;
     special := [] |}.

(** ** The network *)

(** The address of the document of the class [cls] on the branch [br]. *)
Definition documentOf (br cls : string) : string :=
  main.repoPrefix ++ br ++ "/" ++ ("data/conf/items/" ++ cls ++ ".xml").

(** The surroundings in which the address [url] answers with [text]. *)
Definition answering (env : browser) (url text : string) : browser :=
  {| fetch := fun u => if (u =? url)%string then Body text else fetch env u;
     itemsOf := itemsOf env; classParam := classParam env;
     typeErrorMessage := typeErrorMessage env |}.

(** The paragraph [logger.error] shows for the error text [m]. *)
Definition errorParagraph (m : string) : paragraph :=
  {| color := "red"; innerText := "ERROR: " ++ m |}.

(** Two pages that differ at most in [core], in the messages and in the
    error log. *)
Definition sameChrome (a b : page) : Prop :=
  version a = version b /\ branch a = branch b /\ odd a = odd b
  /\ available a = available b /\ title a = title b /\ options a = options b
  /\ selectedIndex a = selectedIndex b /\ classList a = classList b
  /\ column a = column b.

(** The classes whose documents [fetchItemsForClass] asks for. *)
Definition classesToFetch (cls : string) : list string :=
  match (if classes.member cls classes.getGroupNames then classes.groupOf cls
         else None) with
  | Some members => members
  | None => [cls]
  end.

(** The document of [c] arrives and holds the item nodes [nodes]. *)
Definition arrives (env : browser) (br c : string) (nodes : list itemNode) : Prop :=
  exists text, fetch env (documentOf br c) = Body text /\ itemsOf env text = nodes.

(** One document after the other, each from the collection the one
    before left. *)
Definition loadAll (st : state) (docs : list (list itemNode)) : state :=
  fold_left (fun st nodes => finalState (parser.parseItems st nodes)) docs st.

(** The documents of the list on which the parse throws, each taken from
    the collection the one before left. *)
Fixpoint thrown (st : state) (docs : list (list itemNode)) : nat :=
  match docs with
  | [] => 0%nat
  | nodes :: rest =>
      ((if returns (parser.parseItems st nodes) then 0 else 1)
       + thrown (finalState (parser.parseItems st nodes)) rest)%nat
  end.

(** A network on which every address answers with the address itself,
    the document of the swords holding [swords] and that of the axes
    [axes]. *)
Definition sampleNetwork (swords axes : list itemNode) : browser :=
  {| fetch := Body;
     itemsOf := fun text =>
       if (text =? documentOf "master" "swords")%string then swords
       else if (text =? documentOf "master" "axes")%string then axes
       else [];
     classParam := None;
     typeErrorMessage := fun _ _ => "null is not an object" |}.

(** A left half and a right half, in the documents of two classes. *)
Definition leftHalf : itemNode := swordNode "l hand sword" [attr "atk" "5"] false.
Definition rightHalf : itemNode := swordNode "r hand sword" [attr "atk" "6"] false.

(** An item node without an [attributes] block. *)
Definition bareNode : itemNode :=
  {| nameAttr := Some "stub"; typeInfo := None; valueInfo := None;
     attributes := None; susceptibility := []; unattainable := false |}.

(** A network on which the document of the swords does not arrive. *)
Definition swordsMissing : browser :=
  {| fetch := fun u =>
       if (u =? documentOf "master" "swords")%string then Rejected "Failed to fetch"
       else Body u;
     itemsOf := fun text =>
       if (text =? documentOf "master" "axes")%string then [leftHalf] else [];
     classParam := None;
     typeErrorMessage := fun _ _ => "null is not an object" |}.

(** ** The record of a turn *)

(** The node with another attribute bag. *)
Definition withBag (itemData : itemNode) (attrs : list element) : itemNode :=
  {| nameAttr := nameAttr itemData; typeInfo := typeInfo itemData;
     valueInfo := valueInfo itemData; attributes := Some attrs;
     susceptibility := susceptibility itemData;
     unattainable := unattainable itemData |}.

(** The special lists of the records of the collection an outcome
    leaves. *)
Definition specialsOf (o : outcome) : list (list jsval) :=
  map special (items (finalState o)).

(** An item of class "shield" with an empty attribute bag and the given
    susceptibility nodes. *)
Definition resistingNode (nodes : list susNode) : itemNode :=
  {| nameAttr := Some "shield";
     typeInfo := Some {| classAttr := Some "shield"; subclassAttr := Some "shield" |};
     valueInfo := None; attributes := Some []; susceptibility := nodes;
     unattainable := false |}.

(** The traits the consumable block pushes when no cure is named. *)
Definition regenTraits (amount regen frequency : JS.number) : list jsval :=
  (Str ((if 0 <? amount then "heal" else "hurt") ++ " (" ++ JS.toString amount ++ ")")
   :: (if negb (frequency =? 1) || negb (regen =? amount)
       then [Str ("regen (" ++ JS.toString regen ++ ")");
             Str ("frequency (" ++ JS.toString frequency ++ ")")]
       else []))%list.

(** [<tag/>], an element without a [value] attribute. *)
Definition valueless (tag : string) : element :=
  {| tagName := tag; valueAttr := None |}.

(** The cell that the row of the record [it] puts in the column [id],
    on the branch [br] and with [main.odd] at [isOdd]. *)
Definition cellOf (br : string) (isOdd : bool) (it : item) (id : string)
  : option cell :=
  match main.itemLink it with
  | Some link =>
      option_map snd
        (find (fun pc => (id =? fst pc)%string) (main.rowCells br isOdd it link))
  | None => None
  end.

(** * Properties *)

(** ** The built-ins on sample values *)

Example parseFloat_samples :
  map (fun s => JS.toString (JS.parseFloat s))
    ["0.8"; "  -12.5e2 gp"; ".5"; "5."; "abc"; ""; "-0"; "1e400"; "-Infinity";
     "9007199254740993"; "5e-324"; "2e-324"; "1.7976931348623157e308"]
  = ["0.8"; "-1250"; "0.5"; "5"; "NaN"; "NaN"; "0"; "Infinity"; "-Infinity";
     "9007199254740992"; "5e-324"; "0"; "1.7976931348623157e+308"].
Proof. vm_compute. reflexivity. Qed.

Example round_samples :
  map (fun s => JS.toString (JS.round (JS.parseFloat s)))
    ["2.5"; "-2.5"; "-2.6"; "0.49999999999999994"; "800.0000000000001"; "1e300"]
  = ["3"; "-2"; "-3"; "0"; "800"; "1e+300"]
  /\ JS.round (-0.5) = (-0)%float.
Proof. split; vm_compute; reflexivity. Qed.

Example toString_samples :
  JS.toString (JS.parseFloat "0.1" + JS.parseFloat "0.2") = "0.30000000000000004"
  /\ JS.toString (JS.parseFloat "0.1" + JS.parseFloat "0.7") = "0.7999999999999999"
  /\ JS.toString (1 / 3) = "0.3333333333333333"
  /\ JS.toString (JS.parseFloat "1e21") = "1e+21"
  /\ JS.toString (JS.parseFloat "123456789012345678901") = "123456789012345680000"
  /\ JS.toString (JS.parseFloat "0.000001") = "0.000001"
  /\ JS.toString (JS.parseFloat "0.0000001") = "1e-7"
  /\ JS.toString (JS.parseFloat "-1.5e-10") = "-1.5e-10".
Proof. repeat split; vm_compute; reflexivity. Qed.

(** ** The end-to-end sample *)

Example woodenBow_record :
  parser.parseItems (bareState "ranged") [woodenBow]
  = Returned
      {| className := "ranged";
         items := [{| name := Str "wooden bow"; class := Str "ranged";
                      image := Str "wooden_bow"; value := Str "0";
                      level := 0; rate := 2; atk := 4; def := 0; range := 0;
                      dpt := 2; special := [] |}];
         showUnattainable := false; debugLog := [] |}.
Proof. reflexivity. Qed.

(** ** Lists of strings and attribute bags *)

Lemma member_In (x : string) (arr : list string) :
  classes.member x arr = true <-> In x arr.
Proof.
  unfold classes.member. rewrite existsb_exists. split.
  - intros [y [Hy Heq]]. apply String.eqb_eq in Heq. now subst.
  - intros Hin. exists x. split; [assumption | apply String.eqb_refl].
Qed.

Lemma firstByTagName_absent (nm : string) (attributes : list element) :
  absent nm attributes -> parser.firstByTagName attributes nm = None.
Proof.
  intros Habs. unfold parser.firstByTagName.
  induction attributes as [|el rest IH]; simpl; [reflexivity|].
  destruct (String.eqb_spec (tagName el) nm) as [Heq|Hne].
  - exfalso. apply (Habs el); [now left | assumption].
  - apply IH. intros el' Hin. apply Habs. now right.
Qed.

Lemma firstByTagName_first (nm : string) (pre post : list element) (el : element) :
  absent nm pre -> tagName el = nm ->
  parser.firstByTagName (pre ++ el :: post) nm = Some el.
Proof.
  intros Habs Htag. unfold parser.firstByTagName.
  induction pre as [|x pre IH]; simpl.
  - rewrite Htag, String.eqb_refl. reflexivity.
  - destruct (String.eqb_spec (tagName x) nm) as [Heq|Hne].
    + exfalso. apply (Habs x); [now left | assumption].
    + apply IH. intros el' Hin. apply Habs. now right.
Qed.

(** ** C8: the classification predicates *)

(** C8: [isWeaponType], [isArmorType] and [isProjectileType] hold exactly
    of the group's own name ("weapons", "protective", "projectiles") and
    of the members of the group's table; [isRangedType] holds exactly of
    the literal "ranged".  The four sample values of the specification
    are included. *)
Theorem classification_exact (n : string) :
  (classes.isWeaponType n = true <->
     n = "weapons" \/ In n ["axes"; "clubs"; "ranged"; "swords"; "whips"])
  /\ (classes.isArmorType n = true <->
        n = "protective"
        \/ In n ["armors"; "boots"; "cloaks"; "helmets"; "legs"; "shields"])
  /\ (classes.isProjectileType n = true <->
        n = "projectiles" \/ In n ["arrows"; "missiles"])
  /\ (classes.isRangedType n = true <-> n = "ranged")
  /\ classes.isWeaponType "axes" = true
  /\ classes.isWeaponType "weapons" = true
  /\ classes.isArmorType "legs" = true
  /\ classes.isRangedType "swords" = false.
Proof.
  unfold classes.isWeaponType, classes.isArmorType, classes.isProjectileType,
    classes.isRangedType.
  repeat split; try reflexivity;
    rewrite ?orb_true_iff, ?member_In, ?String.eqb_eq; tauto.
Qed.

(** ** C7: reading a number or a string out of the bag *)

(** The outcomes of the two readers.  When no element of the bag has the
    requested tag, [numberAttribute] gives the caller's default and
    [stringAttribute] gives [undefined], which is not the empty string.
    When [el] is the first element with that tag: [stringAttribute] gives
    its raw [value] text, and [null] when the element has no [value];
    [numberAttribute] gives that text parsed as a floating-point number,
    or the caller's default when the parse is [NaN] or not finite. *)
Lemma attribute_outcomes (attributes : list element) (nm : string)
    (def : JS.number) :
  (absent nm attributes ->
     parser.numberAttribute attributes nm def = def
     /\ parser.stringAttribute attributes nm = Undefined)
  /\ (forall pre el post,
        attributes = (pre ++ el :: post)%list -> absent nm pre -> tagName el = nm ->
        (forall v, valueAttr el = Some v ->
           parser.stringAttribute attributes nm = Str v
           /\ (is_nan (JS.parseFloat v) = true \/ is_finite (JS.parseFloat v) = false ->
               parser.numberAttribute attributes nm def = def)
           /\ (is_nan (JS.parseFloat v) = false -> is_finite (JS.parseFloat v) = true ->
               parser.numberAttribute attributes nm def = JS.parseFloat v))
        /\ (valueAttr el = None ->
              parser.stringAttribute attributes nm = Null
              /\ parser.numberAttribute attributes nm def = def))
  /\ Undefined <> Str "".
Proof.
  split; [|split; [|discriminate]].
  - intros Habs. unfold parser.numberAttribute, parser.stringAttribute.
    rewrite (firstByTagName_absent _ _ Habs). split; reflexivity.
  - intros pre el post -> Habs Htag.
    unfold parser.numberAttribute, parser.stringAttribute, util.parseNumberDefault.
    rewrite (firstByTagName_first _ _ post _ Habs Htag).
    split.
    + intros v ->. simpl. split; [reflexivity|]. split.
      * intros [Hnan | Hfin]; [rewrite Hnan | rewrite Hfin, orb_true_r]; reflexivity.
      * intros Hnan Hfin. rewrite Hnan, Hfin. reflexivity.
    + intros ->. split; reflexivity.
Qed.

Lemma attribute_outcomes_sample :
  let bag := [{| tagName := "atk"; valueAttr := Some "5" |};
              {| tagName := "level"; valueAttr := Some "high" |}] in
  (parser.numberAttribute bag "rate" 7 = 7 /\ parser.stringAttribute bag "rate" = Undefined)
  /\ (parser.stringAttribute bag "atk" = Str "5" /\ parser.numberAttribute bag "atk" 7 = 5)
  /\ parser.numberAttribute bag "level" 7 = 7.
Proof.
  pose (atk5 := {| tagName := "atk"; valueAttr := Some "5" |}).
  pose (lvl := {| tagName := "level"; valueAttr := Some "high" |}).
  assert (Hrate : absent "rate" [atk5; lvl]).
  { intros el [<- | [<- | []]]; discriminate. }
  assert (Hnil : forall nm, absent nm []) by (intros nm el []).
  assert (Hlvl : absent "level" [atk5]).
  { intros el [<- | []]; discriminate. }
  split; [|split].
  - exact (proj1 (attribute_outcomes [atk5; lvl] "rate" 7) Hrate).
  - destruct (proj1 (proj1 (proj2 (attribute_outcomes [atk5; lvl] "atk" 7))
                       [] atk5 [lvl] eq_refl (Hnil _) eq_refl) "5" eq_refl)
      as [Hs [_ Hn]].
    split; [exact Hs | apply Hn; reflexivity].
  - destruct (proj1 (proj1 (proj2 (attribute_outcomes [atk5; lvl] "level" 7))
                       [atk5] lvl [] eq_refl Hlvl eq_refl) "high" eq_refl)
      as [_ [Hd _]].
    apply Hd. left. reflexivity.
Defined.

(** C7: on a bag whose element of the requested tag has no [value]
    attribute, [stringAttribute] gives [null]: neither a text nor
    [undefined], the two outcomes its documentation names.  Its callers
    test for [undefined] only and take [null] for a value: the
    damage-type block pushes [null] on the special list, and the status
    block throws.  [numberAttribute] gives the caller's default there, as
    for an absent element. *)
Theorem stringAttribute_null_for_valueless_element :
  parser.stringAttribute [valueless "damagetype"] "damagetype" = Null
  /\ Null <> Undefined
  /\ (forall s, Null <> Str s)
  /\ parser.numberAttribute [valueless "damagetype"] "damagetype" 7 = 7
  /\ parser.natureTraits [valueless "damagetype"] = [Null]
  /\ specialsOf (parser.parseItems (bareState "swords")
                   [swordNode "blade" [valueless "damagetype"] false])
     = [[Null]]
  /\ parser.statusTraits [valueless "statusattack"] = None
  /\ returns (parser.parseItems (bareState "swords")
                [swordNode "blade" [valueless "statusattack"] false])
     = false.
Proof.
  refine (conj eq_refl (conj _ (conj _ (conj _ (conj eq_refl (conj _ (conj eq_refl _))))))).
  - discriminate.
  - intros s. discriminate.
  - vm_compute. reflexivity.
  - vm_compute. reflexivity.
  - vm_compute. reflexivity.
Qed.

(** ** C5: the status-effect trait *)

Lemma prefix_comma (c : ascii) (r : string) :
  prefix "," (String c r) = (c =? ",")%char.
Proof.
  change (prefix "," (String c r))
    with (if ascii_dec "," c then prefix "" r else false).
  destruct (ascii_dec "," c) as [Heq | Hne].
  - subst c. destruct r; reflexivity.
  - symmetry. apply Ascii.eqb_neq. congruence.
Qed.

Lemma includes_comma_cons (c : ascii) (r : string) :
  includes (String c r) "," = (c =? ",")%char || includes r ",".
Proof.
  change (includes (String c r) ",")
    with (prefix "," (String c r) || includes r ",").
  now rewrite prefix_comma.
Qed.

(** A text without a comma is a single field. *)
Lemma split_comma_free (b : string) :
  includes b "," = false -> split "," b = [b].
Proof.
  induction b as [|c r IH]; [reflexivity|].
  rewrite includes_comma_cons, orb_false_iff. intros [Hc Hr].
  simpl. rewrite Hc, (IH Hr). reflexivity.
Qed.

(** The field before the first comma, and the fields of the rest. *)
Lemma split_first_field (a r : string) :
  includes a "," = false -> split "," (a ++ String "," r) = a :: split "," r.
Proof.
  induction a as [|c a IH]; [reflexivity|].
  rewrite includes_comma_cons, orb_false_iff. intros [Hc Ha].
  simpl. rewrite Hc, (IH Ha). reflexivity.
Qed.

Lemma includes_comma_app (a r : string) : includes (a ++ String "," r) "," = true.
Proof.
  induction a as [|c a IH]; [apply includes_comma_cons|].
  change (String c a ++ String "," r) with (String c (a ++ String "," r)).
  rewrite includes_comma_cons, IH. apply orb_true_r.
Qed.

(** C5, as stated, fails on a value with two commas: of "fire,ice,cold"
    the text after the first comma is "ice,cold", and the trait pushed is
    "ice". *)
Lemma status_trait_is_not_text_after_first_comma :
  includes "fire,ice,cold" "poison" || includes "fire,ice,cold" "venom" = false
  /\ afterFirstComma "fire,ice,cold" = "ice,cold"
  /\ parser.statusTraits (statusBag "fire,ice,cold") = Some [Str "ice"]
  /\ ("ice" =? afterFirstComma "fire,ice,cold")%string = false.
Proof. repeat split. Qed.

(** The status block alone, for a [statusattack] with text [s]: when [s]
    contains "poison" or "venom" the trait is the literal "poison",
    whether or not [s] has a comma; otherwise, when [s] has a comma, the
    trait is the field between the first comma and the second one (or the
    end of the text); otherwise it is [s] itself. *)
Lemma statusTraits_rule (attributes : list element) (s : string) :
  parser.stringAttribute attributes "statusattack" = Str s ->
  (includes s "poison" || includes s "venom" = true ->
     parser.statusTraits attributes = Some [Str "poison"])
  /\ (includes s "poison" || includes s "venom" = false ->
        (forall a b t,
            s = a ++ "," ++ b ++ t ->
            includes a "," = false -> includes b "," = false ->
            t = "" \/ prefix "," t = true ->
            parser.statusTraits attributes = Some [Str b])
        /\ (includes s "," = false -> parser.statusTraits attributes = Some [Str s]))
  /\ parser.statusTraits (statusBag "poison,weak") = Some [Str "poison"]
  /\ parser.statusTraits (statusBag "fire,ice") = Some [Str "ice"].
Proof.
  intros Hs. unfold parser.statusTraits at 1 2 3. rewrite Hs.
  split; [|split; [|split; reflexivity]].
  - intros ->. reflexivity.
  - intros ->. split.
    + intros a b t -> Ha Hb Ht.
      change (a ++ "," ++ b ++ t) with (a ++ String "," (b ++ t)).
      rewrite includes_comma_app, (split_first_field _ _ Ha).
      destruct Ht as [-> | Ht].
      * assert (Hb' : b ++ "" = b) by (clear; induction b; simpl; congruence).
        rewrite Hb', (split_comma_free _ Hb). reflexivity.
      * destruct t as [|c t]; [discriminate|].
        rewrite prefix_comma in Ht. apply Ascii.eqb_eq in Ht. subst c.
        rewrite (split_first_field _ _ Hb). reflexivity.
    + intros ->. reflexivity.
Qed.

(** ** C10: an empty [immunization] *)

Lemma firstByTagName_without_same (nm : string) (attributes : list element) :
  parser.firstByTagName (without nm attributes) nm = None.
Proof.
  apply firstByTagName_absent. intros el Hin Htag.
  apply filter_In in Hin. destruct Hin as [_ Hne].
  rewrite Htag, String.eqb_refl in Hne. discriminate.
Qed.

Lemma firstByTagName_without_other (nm other : string) (attributes : list element) :
  nm <> other ->
  parser.firstByTagName (without other attributes) nm
  = parser.firstByTagName attributes nm.
Proof.
  intros Hne. unfold parser.firstByTagName, without.
  induction attributes as [|el rest IH]; [reflexivity|]. simpl.
  destruct (String.eqb_spec (tagName el) other) as [Ho | Ho]; simpl.
  - destruct (String.eqb_spec (tagName el) nm) as [Hn | Hn]; [congruence | exact IH].
  - destruct (tagName el =? nm)%string; [reflexivity | exact IH].
Qed.

Lemma numberAttribute_without (nm other : string) (attributes : list element)
    (def : JS.number) :
  nm <> other ->
  parser.numberAttribute (without other attributes) nm def
  = parser.numberAttribute attributes nm def.
Proof.
  intros Hne. unfold parser.numberAttribute.
  now rewrite firstByTagName_without_other.
Qed.

(** The consumable block alone: with a non-zero [amount] and an
    [immunization] element whose value is the empty string, it pushes
    what it pushes for the same bag without any [immunization] element:
    the heal or hurt trait, followed by the regen and frequency traits
    when [frequency] is not 1 or [regen] differs from [amount]; none of
    these is a cure or immunity-duration trait. *)
Lemma consumeTraits_empty_immunization (attributes : list element) :
  let amount := parser.numberAttribute attributes "amount" 0 in
  let regen := parser.numberAttribute attributes "regen" 0 in
  let frequency := parser.numberAttribute attributes "frequency" 0 in
  (amount =? 0) = false ->
  parser.stringAttribute attributes "immunization" = Str "" ->
  parser.consumeTraits attributes
  = parser.consumeTraits (without "immunization" attributes)
  /\ parser.stringAttribute (without "immunization" attributes) "immunization"
     = Undefined
  /\ parser.consumeTraits attributes
     = (Str ((if 0 <? amount then "heal" else "hurt")
             ++ " (" ++ JS.toString amount ++ ")")
        :: (if negb (frequency =? 1) || negb (regen =? amount)
            then [Str ("regen (" ++ JS.toString regen ++ ")");
                  Str ("frequency (" ++ JS.toString frequency ++ ")")]
            else []))%list
  /\ forallb notCureTrait (parser.consumeTraits attributes) = true.
Proof.
  intros amount regen frequency Hamount Hcures.
  assert (Hshape : parser.consumeTraits attributes
     = (Str ((if 0 <? amount then "heal" else "hurt")
             ++ " (" ++ JS.toString amount ++ ")")
        :: (if negb (frequency =? 1) || negb (regen =? amount)
            then [Str ("regen (" ++ JS.toString regen ++ ")");
                  Str ("frequency (" ++ JS.toString frequency ++ ")")]
            else []))%list).
  { unfold parser.consumeTraits. fold amount regen frequency.
    rewrite Hamount, Hcures. reflexivity. }
  assert (Hundef : parser.stringAttribute (without "immunization" attributes)
                     "immunization" = Undefined).
  { unfold parser.stringAttribute. now rewrite firstByTagName_without_same. }
  repeat split.
  - rewrite Hshape. unfold parser.consumeTraits at 1.
    rewrite Hundef, !numberAttribute_without by discriminate.
    fold amount regen frequency. rewrite Hamount. reflexivity.
  - exact Hundef.
  - exact Hshape.
  - rewrite Hshape.
    destruct (0 <? amount);
      destruct (negb (frequency =? 1) || negb (regen =? amount)); reflexivity.
Qed.

(** ** C3: when [parseItems] returns *)

Lemma parseItem_returns (st : state) (itemData : itemNode) :
  returns (parser.parseItem st itemData) = wellFormed itemData.
Proof.
  unfold parser.parseItem, wellFormed, parser.derive, parser.specialTraits.
  destruct (typeInfo itemData) as [ti|]; [|reflexivity].
  destruct (attributes itemData) as [attrs|]; [|reflexivity].
  destruct (parser.popOther _ _) as [lrSword its].
  unfold parser.statusTraits.
  destruct (parser.stringAttribute attrs "statusattack") as [| |s]; simpl.
  - destruct (unattainable itemData); reflexivity.
  - reflexivity.
  - destruct (includes s "poison" || includes s "venom");
      [|destruct (includes s ",")]; simpl;
      destruct (unattainable itemData); reflexivity.
Qed.

Lemma parseItems_returns (content : list itemNode) :
  forall st, returns (parser.parseItems st content) = forallb wellFormed content.
Proof.
  induction content as [|itemData rest IH]; intros st; [reflexivity|].
  simpl. rewrite <- (parseItem_returns st itemData).
  destruct (parser.parseItem st itemData) as [st' | st']; simpl.
  - apply IH.
  - reflexivity.
Qed.

(** C3, as stated, fails: an item node without an [attributes] block makes
    [parseItems] throw, the first [numberAttribute] call reading a
    property of [undefined]; the records pushed before stay. *)
Lemma parseItems_throws_without_attributes_block :
  parser.parseItems (bareState "weapons")
    [{| nameAttr := Some "club"; typeInfo := Some {| classAttr := Some "club";
                                                     subclassAttr := Some "club" |};
        valueInfo := None; attributes := None; susceptibility := [];
        unattainable := false |}]
  = TypeError (bareState "weapons").
Proof. reflexivity. Qed.

(** C3 (amended): on a document each of whose item nodes has a [type]
    node and an [attributes] block, and no [statusattack] element without
    a [value], [parseItems] returns: missing attribute elements, a missing
    [value], [susceptibility] or [unattainable] node, missing [name],
    [class] and [subclass] attributes and numbers that do not parse are
    all read as defaults.  Conversely, [parseItems] returns only if every
    item node has a [type] node and an [attributes] block: it throws a
    [TypeError] at the first node that lacks one. *)
Theorem parseItems_completes (st : state) (content : list itemNode) :
  (Forall (fun itemData => wellFormed itemData = true) content ->
   exists st', parser.parseItems st content = Returned st')
  /\ ((exists st', parser.parseItems st content = Returned st') ->
      Forall hasTypeAndAttributes content).
Proof.
  assert (Hiff : returns (parser.parseItems st content) = true
                 <-> Forall (fun itemData => wellFormed itemData = true) content).
  { rewrite Forall_forall, <- forallb_forall, <- (parseItems_returns content st).
    reflexivity. }
  split.
  - intros Hwf. apply Hiff in Hwf.
    destruct (parser.parseItems st content) as [st' | st']; [|discriminate].
    now exists st'.
  - intros [st' Hret].
    assert (Hwf : Forall (fun itemData => wellFormed itemData = true) content).
    { apply Hiff. now rewrite Hret. }
    revert Hwf. apply Forall_impl. intros itemData. unfold wellFormed, hasTypeAndAttributes.
    destruct (typeInfo itemData); [|discriminate].
    destruct (attributes itemData); [|discriminate].
    intros _. split; discriminate.
Qed.

Lemma parseItems_completes_witness :
  exists st', parser.parseItems (bareState "weapons") [degenerateNode] = Returned st'.
Proof.
  apply (proj1 (parseItems_completes (bareState "weapons") [degenerateNode])).
  repeat constructor.
Defined.

(** The record such a node resolves to. *)
Example degenerateNode_defaults :
  parser.parseItems (bareState "weapons") [degenerateNode]
  = Returned
      {| className := "weapons";
         items := [{| name := Null; class := Null; image := Null; value := Str "0";
                      level := 0; rate := 0; atk := 0; def := 0; range := 0;
                      dpt := nan; special := [] |}];
         showUnattainable := false; debugLog := [] |}.
Proof. reflexivity. Qed.

(** ** Facts on binary64 arithmetic *)

Section Binary64.

Local Open Scope Z_scope.

Lemma fexp_64 (x : Z) : fexp prec emax x = Z.max (x - 53) (-1074).
Proof. reflexivity. Qed.

(** [digits2_pos p] is the number of bits of [p]. *)
Lemma digits2_bounds (p : positive) :
  2 ^ (Zpos (digits2_pos p) - 1) <= Zpos p < 2 ^ Zpos (digits2_pos p).
Proof.
  induction p as [p IH | p IH |]; simpl digits2_pos.
  - rewrite Pos2Z.inj_succ.
    replace (Z.succ (Zpos (digits2_pos p)) - 1) with (Z.succ (Zpos (digits2_pos p) - 1)) by lia.
    rewrite !Z.pow_succ_r by lia. lia.
  - rewrite Pos2Z.inj_succ.
    replace (Z.succ (Zpos (digits2_pos p)) - 1) with (Z.succ (Zpos (digits2_pos p) - 1)) by lia.
    rewrite !Z.pow_succ_r by lia. lia.
  - simpl. lia.
Qed.

Lemma digits2_unique (p : positive) (d : Z) :
  2 ^ (d - 1) <= Zpos p < 2 ^ d -> Zpos (digits2_pos p) = d.
Proof.
  intros [Hlo Hhi]. pose proof (digits2_bounds p) as [Hlo' Hhi'].
  assert (0 <= d).
  { destruct (Z.le_gt_cases 0 d) as [|Hneg]; [assumption|].
    rewrite Z.pow_neg_r in Hhi by assumption. lia. }
  assert (d - 1 < Zpos (digits2_pos p)).
  { apply (Z.pow_lt_mono_r_iff 2); lia. }
  assert (Zpos (digits2_pos p) - 1 < d).
  { apply (Z.pow_lt_mono_r_iff 2); lia. }
  lia.
Qed.

Lemma iter_xO_value (m d : positive) :
  Zpos (Pos.iter xO m d) = Zpos m * 2 ^ Zpos d.
Proof.
  induction d as [|d IH] using Pos.peano_ind.
  - simpl. lia.
  - rewrite Pos.iter_succ, Pos2Z.inj_succ, Z.pow_succ_r by lia.
    rewrite Pos2Z.inj_xO, IH. lia.
Qed.

Lemma shl_align_value (mx : positive) (ex ez : Z) :
  ez <= ex -> Zpos (fst (shl_align mx ex ez)) = Zpos mx * 2 ^ (ex - ez).
Proof.
  intros Hle. unfold shl_align.
  destruct (ez - ex) as [|d|d] eqn:Hd.
  - replace (ex - ez) with 0 by lia. simpl. lia.
  - lia.
  - simpl fst. rewrite iter_xO_value. f_equal. f_equal. lia.
Qed.

Lemma shr_1_m (mrs : shr_record) :
  0 <= shr_m mrs -> shr_m (shr_1 mrs) = shr_m mrs / 2.
Proof.
  destruct mrs as [m r s]. cbn [shr_m]. intros Hm.
  destruct m as [|[p|p|]|p]; cbn [shr_1 shr_m]; try lia.
  - reflexivity.
  - apply (Z.div_unique _ _ _ 1); lia.
  - apply (Z.div_unique _ _ _ 0); lia.
  - reflexivity.
Qed.

Lemma iter_shr_1_m (p : positive) :
  forall mrs, 0 <= shr_m mrs ->
  shr_m (iter_pos shr_1 p mrs) = shr_m mrs / 2 ^ Zpos p.
Proof.
  assert (Hpos : forall q, 0 < 2 ^ Zpos q) by (intros q; apply Z.pow_pos_nonneg; lia).
  assert (Hdiv : forall a q, 0 <= a -> 0 <= a / 2 ^ Zpos q).
  { intros a q Ha. apply Z.div_pos; [assumption | apply Hpos]. }
  assert (Hdd : forall a b c, 0 < b -> 0 < c -> a / b / c = a / (b * c)).
  { intros a b c Hb Hc. apply Z.div_div; lia. }
  induction p as [p IH | p IH |]; intros mrs Hm; simpl iter_pos.
  - pose proof (shr_1_m mrs Hm) as H1.
    assert (0 <= shr_m (shr_1 mrs)) by (rewrite H1; apply Z.div_pos; lia).
    rewrite IH by (rewrite IH by assumption; apply Hdiv; assumption).
    rewrite IH by assumption. rewrite H1.
    rewrite !Hdd by (try apply Hpos; try apply Z.mul_pos_pos; try apply Hpos; lia).
    f_equal. rewrite Pos2Z.inj_xI.
    replace (2 * Zpos p + 1) with (1 + Zpos p + Zpos p) by lia.
    rewrite (Z.pow_add_r 2 (1 + Zpos p) (Zpos p)), (Z.pow_add_r 2 1 (Zpos p)) by lia.
    lia.
  - rewrite IH by (rewrite IH by assumption; apply Hdiv; assumption).
    rewrite IH by assumption.
    rewrite Hdd by apply Hpos.
    f_equal. replace (Zpos p~0) with (Zpos p + Zpos p) by lia.
    rewrite Z.pow_add_r by lia. reflexivity.
  - rewrite shr_1_m by assumption. reflexivity.
Qed.

(** Above the least exponent, the shift to the format keeps a positive
    mantissa positive. *)
Lemma shr_fexp_positive (m e : Z) (l : location) :
  0 < m -> -1074 <= e ->
  0 < shr_m (fst (shr_fexp prec emax m e l)) /\ -1074 <= snd (shr_fexp prec emax m e l).
Proof.
  intros Hm He. unfold shr_fexp, shr. rewrite fexp_64.
  assert (Hrec : shr_m (shr_record_of_loc m l) = m) by (destruct l as [|[]]; reflexivity).
  destruct (Z.max (Zdigits2 m + e - 53) (-1074) - e) as [|n|n] eqn:Hn; simpl fst; simpl snd.
  - rewrite Hrec. lia.
  - rewrite iter_shr_1_m by (rewrite Hrec; lia). rewrite Hrec.
    destruct m as [|p|p]; try lia. simpl Zdigits2 in Hn.
    pose proof (digits2_bounds p) as [Hlo _].
    assert (Hle : Zpos n <= Zpos (digits2_pos p) - 1) by lia.
    split; [|lia].
    apply Z.div_str_pos. split; [apply Z.pow_pos_nonneg; lia|].
    apply Z.le_trans with (2 ^ (Zpos (digits2_pos p) - 1)); [|assumption].
    apply Z.pow_le_mono_r; lia.
  - rewrite Hrec. lia.
Qed.

Lemma round_nearest_even_positive (m : Z) (l : location) :
  0 < m -> 0 < round_nearest_even m l.
Proof.
  intros Hm. destruct l as [|[]]; simpl; try lia.
  destruct (Z.even m); lia.
Qed.

Lemma binary_round_aux_not_zero (sx : bool) (mx ex : Z) (lx : location) :
  0 < mx -> -1074 <= ex ->
  SFeqb (binary_round_aux prec emax sx mx ex lx) (S754_zero false) = false.
Proof.
  intros Hm He. unfold binary_round_aux.
  pose proof (shr_fexp_positive mx ex lx Hm He) as [Hm1 He1].
  destruct (shr_fexp prec emax mx ex lx) as [mrs1 e1]. simpl fst in Hm1. simpl snd in He1.
  pose proof (round_nearest_even_positive _ (loc_of_shr_record mrs1) Hm1) as Hr.
  pose proof (shr_fexp_positive _ e1 loc_Exact Hr He1) as [Hm2 He2].
  destruct (shr_fexp prec emax _ e1 loc_Exact) as [mrs2 e2]. simpl fst in Hm2.
  destruct (shr_m mrs2) as [|q|q]; try lia.
  destruct (e2 <=? emax - prec); destruct sx; reflexivity.
Qed.

Lemma binary_normalize_not_zero (z e : Z) :
  z <> 0 -> -1074 <= e ->
  SFeqb (binary_normalize prec emax z e false) (S754_zero false) = false.
Proof.
  intros Hz He.
  assert (Hround : forall sx mx,
             SFeqb (binary_round prec emax sx mx e) (S754_zero false) = false).
  { intros sx mx. unfold binary_round, shl_align. rewrite fexp_64.
    destruct (Z.max (Zpos (digits2_pos mx) + e - 53) (-1074) - e) eqn:Hd;
      apply binary_round_aux_not_zero; lia. }
  destruct z as [|p|p]; [congruence | apply Hround | apply Hround].
Qed.

Lemma canonical_exponent (m : positive) (e : Z) :
  valid_binary (S754_finite false m e) = true ->
  Z.max (Zpos (digits2_pos m) + e - 53) (-1074) = e.
Proof.
  unfold SpecFloat.valid_binary, bounded, canonical_mantissa.
  rewrite fexp_64, andb_true_iff, Z.eqb_eq. tauto.
Qed.

(** Two canonical mantissas that agree once aligned are the same. *)
Lemma aligned_canonical (mx my : positive) (ex ey : Z) :
  valid_binary (S754_finite false mx ex) = true ->
  valid_binary (S754_finite false my ey) = true ->
  ex <= ey ->
  Zpos mx = Zpos my * 2 ^ (ey - ex) ->
  ex = ey /\ mx = my.
Proof.
  intros Hx Hy Hle Heq.
  apply canonical_exponent in Hx. apply canonical_exponent in Hy.
  pose proof (digits2_bounds my) as [Hlo Hhi].
  assert (Hk : 0 < 2 ^ (ey - ex)) by (apply Z.pow_pos_nonneg; lia).
  assert (Hd : Zpos (digits2_pos mx) = Zpos (digits2_pos my) + (ey - ex)).
  { apply digits2_unique. rewrite Heq.
    replace (Zpos (digits2_pos my) + (ey - ex) - 1)
      with (Zpos (digits2_pos my) - 1 + (ey - ex)) by lia.
    rewrite !Z.pow_add_r by lia. nia. }
  assert (ex = ey) by lia. subst ey.
  split; [reflexivity|].
  rewrite Z.sub_diag in Heq. simpl in Heq. lia.
Qed.

Lemma SFeqb_finite (sx sy : bool) (mx my : positive) (ex ey : Z) :
  SFeqb (S754_finite sx mx ex) (S754_finite sy my ey) = true
  <-> sx = sy /\ ex = ey /\ mx = my.
Proof.
  unfold SFeqb, SFcompare. split.
  - destruct sx, sy; try discriminate;
      destruct (Z.compare_spec ex ey) as [He | He | He]; try discriminate;
      destruct (Pos.compare_cont Eq mx my) eqn:Hc; try discriminate;
      intros _; apply Pos.compare_eq in Hc; auto.
  - intros [-> [-> ->]].
    rewrite Z.compare_refl.
    change (Pos.compare_cont Eq my my) with (Pos.compare my my).
    rewrite Pos.compare_refl. destruct sy; reflexivity.
Qed.

(** On finite numbers, the difference is a zero exactly when the operands
    are equal. *)
Lemma SFsub_zero_iff (sx sy : bool) (mx my : positive) (ex ey : Z) :
  valid_binary (S754_finite sx mx ex) = true ->
  valid_binary (S754_finite sy my ey) = true ->
  SFeqb (SF64sub (S754_finite sx mx ex) (S754_finite sy my ey)) (S754_zero false)
  = SFeqb (S754_finite sy my ey) (S754_finite sx mx ex).
Proof.
  intros Hx Hy.
  assert (Hx' : valid_binary (S754_finite false mx ex) = true) by exact Hx.
  assert (Hy' : valid_binary (S754_finite false my ey) = true) by exact Hy.
  pose proof (canonical_exponent _ _ Hx') as Hex.
  pose proof (canonical_exponent _ _ Hy') as Hey.
  unfold SF64sub, SFsub.
  set (ez := Z.min ex ey).
  pose proof (shl_align_value mx ex ez ltac:(unfold ez; lia)) as HA.
  pose proof (shl_align_value my ey ez ltac:(unfold ez; lia)) as HB.
  set (A := fst (shl_align mx ex ez)) in *.
  set (B := fst (shl_align my ey ez)) in *.
  set (z := cond_Zopp sx (Zpos A) - cond_Zopp sy (Zpos B)).
  destruct (Z.eq_dec z 0) as [Hz | Hz].
  - rewrite Hz. simpl binary_normalize.
    assert (Hs : sx = sy /\ Zpos A = Zpos B).
    { unfold z, cond_Zopp in Hz. destruct sx, sy; split; (reflexivity || lia). }
    destruct Hs as [Hs HAB]. rewrite HA, HB in HAB.
    assert (Hsame : ex = ey /\ mx = my).
    { destruct (Z.le_ge_cases ex ey) as [Hle | Hle].
      - apply (aligned_canonical mx my ex ey Hx' Hy' Hle).
        unfold ez in HAB. rewrite Z.min_l, Z.sub_diag in HAB by assumption.
        simpl (2 ^ 0) in HAB. lia.
      - destruct (aligned_canonical my mx ey ex Hy' Hx' Hle) as [He Hm].
        + unfold ez in HAB. rewrite Z.min_r, Z.sub_diag in HAB by assumption.
          simpl (2 ^ 0) in HAB. lia.
        + split; congruence. }
    destruct Hsame as [He Hm]. symmetry.
    change (SFeqb (S754_zero false) (S754_zero false)) with true.
    apply SFeqb_finite. auto.
  - rewrite (binary_normalize_not_zero z ez Hz ltac:(unfold ez; lia)).
    symmetry. apply not_true_is_false. intros Heq.
    apply SFeqb_finite in Heq. destruct Heq as [Hs [He Hm]]. subst sy ey my.
    apply Hz. unfold z, cond_Zopp. destruct sx; lia.
Qed.

End Binary64.

(** *** On the primitive numbers *)

Lemma number_of_spec (x : float) (v : spec_float) : Prim2SF x = v -> x = SF2Prim v.
Proof. intros <-. symmetry. apply SF2Prim_Prim2SF. Qed.

(** The numbers that compare equal to 0 are the two zeros. *)
Lemma eqb_zero_cases (x : float) : (x =? 0) = true -> x = 0 \/ x = (-0).
Proof.
  rewrite eqb_spec. change (Prim2SF 0) with (S754_zero false).
  destruct (Prim2SF x) as [s | s | | s m e] eqn:Hx; try discriminate.
  - intros _. apply number_of_spec in Hx. destruct s; subst x; auto.
  - destruct s; discriminate.
  - destruct s; discriminate.
Qed.

(** Dividing by a zero gives an infinity or [NaN]. *)
Lemma div_zero_cases (a r : float) :
  (r =? 0) = true -> a / r = nan \/ a / r = infinity \/ a / r = neg_infinity.
Proof.
  intros Hr. pose proof (div_spec a r) as Hd.
  assert (Hz : exists s, Prim2SF r = S754_zero s).
  { destruct (eqb_zero_cases r Hr) as [-> | ->]; eexists; reflexivity. }
  destruct Hz as [s Hz]. rewrite Hz in Hd. unfold SF64div, SFdiv in Hd.
  destruct (Prim2SF a) as [sa | sa | | sa ma ea];
    apply number_of_spec in Hd; rewrite Hd;
    try destruct sa; destruct s; simpl; auto.
Qed.

(** [100 - p] is a zero exactly when [p] is 100. *)
Lemma sub_100_eqb_zero (p : float) : (100 - p =? 0) = (p =? 100).
Proof.
  rewrite !eqb_spec, sub_spec.
  pose proof (Prim2SF_valid p) as Hv.
  pose proof (Prim2SF_valid 100) as Hc.
  change (Prim2SF 0) with (S754_zero false).
  change (Prim2SF 100) with (S754_finite false 7036874417766400 (-46)) in *.
  destruct (Prim2SF p) as [s | s | | s m e].
  - destruct s; reflexivity.
  - destruct s; reflexivity.
  - reflexivity.
  - apply SFsub_zero_iff; assumption.
Qed.

(** ** C6: susceptibilities *)

(** The susceptibility block on one node, with [raw] its multiplier (1
    when the value does not parse), [pct = round(raw * 1000) / 10] and
    [display = 100 - pct]: nothing is pushed when [display] equals 0, and
    otherwise the trait is the type, " (", a "+" when [display] is
    positive, [display] and "%)".  The code tests [pct !== 100], which is
    the same test. *)
Lemma susTrait_rule (sus : susNode) :
  let raw := util.parseNumberDefault (getAttribute (susValue sus)) 1 in
  let pct := JS.round (raw * 1000) / 10 in
  let display := 100 - pct in
  parser.susTrait sus
  = (if display =? 0 then []
     else [Str (ToString (getAttribute (susType sus)) ++ " ("
                ++ (if 0 <? display then "+" else "") ++ JS.toString display
                ++ "%)")]).
Proof.
  intros raw pct display.
  unfold parser.susTrait. fold raw. fold pct. fold display.
  replace (display =? 0) with (pct =? 100)
    by (symmetry; apply sub_100_eqb_zero).
  unfold parser.signed.
  destruct (pct =? 100); [reflexivity|]. destruct (0 <? display); reflexivity.
Qed.

(** ** C2: damage per turn *)

Lemma computeDpt_rate_zero (atk rate : JS.number) :
  (rate =? 0) = true ->
  parser.computeDpt atk rate = nan
  \/ parser.computeDpt atk rate = infinity
  \/ parser.computeDpt atk rate = neg_infinity.
Proof.
  intros Hr. unfold parser.computeDpt.
  destruct (div_zero_cases atk rate Hr) as [-> | [-> | ->]]; auto.
Qed.

Lemma pop_Forall (P : item -> Prop) (nm : string) (its : list item) :
  Forall P its -> Forall P (snd (main.pop nm its)).
Proof.
  induction 1 as [|it rest Hit Hrest IH]; simpl; [constructor|].
  destruct (strictEq (name it) nm); [assumption|].
  destruct (main.pop nm rest) as [res rest']. simpl in *. now constructor.
Qed.

Lemma popOther_Forall (P : item -> Prop) (nm : jsval) (its : list item) :
  Forall P its -> Forall P (snd (parser.popOther nm its)).
Proof.
  intros H. unfold parser.popOther.
  destruct (strictEq nm "l hand sword"); [now apply pop_Forall|].
  destruct (strictEq nm "r hand sword"); [now apply pop_Forall | assumption].
Qed.

Lemma finish_dptDerived (it : literal) (sp : list jsval) :
  dptDerived (parser.finish it sp).
Proof.
  split; [reflexivity|]. simpl. intros Hr.
  destruct (computeDpt_rate_zero (l_atk it) (l_rate it) Hr) as [-> | [-> | ->]];
    split; auto.
Qed.

(** What a turn leaves in [main.items]: records that were there, and at
    most the record it built. *)
Lemma parseItem_Forall (P : item -> Prop) (st : state) (itemData : itemNode) :
  (forall it sp, P (parser.finish it sp)) ->
  Forall P (items st) ->
  Forall P (items (finalState (parser.parseItem st itemData))).
Proof.
  intros Hnew Hst. unfold parser.parseItem.
  destruct (typeInfo itemData) as [ti|]; [|assumption].
  destruct (attributes itemData) as [attrs|]; [|assumption].
  unfold parser.derive.
  pose proof (popOther_Forall P (l_name (parser.newItem itemData ti attrs)) _ Hst) as Hpop.
  destruct (parser.popOther _ (items st)) as [lrSword its]. simpl in Hpop.
  destruct (parser.specialTraits _ _ _ _) as [sp|]; simpl; [|assumption].
  assert (Forall P (its ++ [parser.finish
             match lrSword with
             | Some l => parser.mergeSwords l (parser.newItem itemData ti attrs)
             | None => parser.newItem itemData ti attrs
             end sp])%list).
  { apply Forall_app. split; [assumption|]. constructor; [apply Hnew | constructor]. }
  destruct (unattainable itemData); [|assumption].
  simpl. destruct (showUnattainable st); assumption.
Qed.

Lemma parseItems_Forall (P : item -> Prop) (content : list itemNode) :
  (forall it sp, P (parser.finish it sp)) ->
  forall st, Forall P (items st) ->
  Forall P (items (finalState (parser.parseItems st content))).
Proof.
  intros Hnew. induction content as [|itemData rest IH]; intros st Hst; [assumption|].
  simpl. pose proof (parseItem_Forall P st itemData Hnew Hst) as Hstep.
  destruct (parser.parseItem st itemData) as [st' | st']; simpl in *.
  - now apply IH.
  - assumption.
Qed.

(** C2, as stated, fails for a rate of 0: there is no fallback, the
    division by zero goes through the formula and [dpt] is [Infinity]
    (here the [rate] element is missing, so the rate is the default 0). *)
Lemma dpt_not_finite_at_rate_zero :
  exists st' it,
    parser.parseItems (bareState "swords") [swordNode "dagger" [attr "atk" "5"] false]
    = Returned st'
    /\ items st' = [it]
    /\ (rate it =? 0) = true /\ atk it = 5
    /\ dpt it = infinity /\ is_finite (dpt it) = false.
Proof. do 2 eexists. repeat split. Qed.

(** C2 (amended): whatever the documents processed, every record of the
    collection has [dpt = round(atk / rate * 100) / 100] on its own [atk]
    and [rate] (the combined [atk] and the first half's [rate] after a
    merge), for every rate; there is no fallback for a rate of 0, where
    this value is [NaN], [Infinity] or [-Infinity]. *)
Theorem dpt_of_every_record (st : state) (content : list itemNode) :
  Forall dptDerived (items st) ->
  Forall dptDerived (items (finalState (parser.parseItems st content))).
Proof.
  intros Hst.
  apply parseItems_Forall.
  - intros it sp. apply finish_dptDerived.
  - exact Hst.
Qed.

Lemma dpt_of_every_record_witness :
  Forall dptDerived
    (items (finalState
       (parser.parseItems (bareState "swords")
          [swordNode "l hand sword" [attr "atk" "5"; attr "rate" "4"] false;
           swordNode "dagger" [attr "atk" "5"] false;
           swordNode "r hand sword" [attr "atk" "7"; attr "rate" "3"] false]))).
Proof. apply dpt_of_every_record. constructor. Defined.

(** ** C4: what the special list leaves out *)

Lemma mul_100_zero (x : float) : (x =? 0) = true -> (x * 100 =? 0) = true.
Proof. intros H. destruct (eqb_zero_cases x H) as [-> | ->]; reflexivity. Qed.

Lemma numberAttribute_absent (nm : string) (attributes : list element) (def : JS.number) :
  absent nm attributes -> parser.numberAttribute attributes nm def = def.
Proof.
  intros H. unfold parser.numberAttribute. now rewrite firstByTagName_absent.
Qed.

Lemma stringAttribute_absent (nm : string) (attributes : list element) :
  absent nm attributes -> parser.stringAttribute attributes nm = Undefined.
Proof.
  intros H. unfold parser.stringAttribute. now rewrite firstByTagName_absent.
Qed.

(** C4, as stated, fails twice.  The list is not deduplicated: a
    [damagetype] "poison" with a [statusattack] "venom" gives the trait
    "poison" twice.  And two absent attributes do produce entries: with a
    non-zero [amount] and neither [regen] nor [frequency] in the bag, the
    traits "regen (0)" and "frequency (0)" are pushed. *)
Lemma special_repeats_and_prints_absent :
  (exists st' it,
      parser.parseItems (bareState "swords")
        [swordNode "fang" [attr "damagetype" "poison"; attr "statusattack" "venom"] false]
      = Returned st'
      /\ items st' = [it]
      /\ special it = [Str "poison"; Str "poison"])
  /\ (exists st' it,
         parser.parseItems (bareState "swords")
           [swordNode "potion" [attr "amount" "5"] false]
         = Returned st'
         /\ items st' = [it]
         /\ special it = [Str "heal (5)"; Str "regen (0)"; Str "frequency (0)"]).
Proof. split; do 2 eexists; repeat split. Qed.

(** What the blocks leave out.  An absent [damagetype], [statusattack],
    [lifesteal] or [amount] contributes no trait, nor does an item
    without susceptibility nodes have susceptibility traits; a
    [lifesteal], [atk], [def], [range] or [amount] that is zero is
    suppressed, whatever the class; for a record built from the node alone
    (no merge) an absent [atk], [def] or [range] is such a zero.  A node
    with none of these yields an empty list. *)
Lemma blocks_suppression (cls : string) (attributes : list element)
    (itemData : itemNode) (typeInfo : typeNode) :
  (absent "damagetype" attributes -> parser.natureTraits attributes = [])
  /\ (absent "statusattack" attributes -> parser.statusTraits attributes = Some [])
  /\ (absent "lifesteal" attributes
      \/ (parser.numberAttribute attributes "lifesteal" 0 =? 0) = true ->
      parser.lifestealTraits attributes = [])
  /\ (absent "amount" attributes
      \/ (parser.numberAttribute attributes "amount" 0 =? 0) = true ->
      parser.consumeTraits attributes = [])
  /\ (forall v, (v =? 0) = true ->
        parser.atkTraits cls v = [] /\ parser.defTraits cls v = []
        /\ parser.rangeTraits cls v = [])
  /\ (absent "atk" attributes ->
      parser.atkTraits cls (l_atk (parser.newItem itemData typeInfo attributes)) = [])
  /\ (absent "def" attributes ->
      parser.defTraits cls (l_def (parser.newItem itemData typeInfo attributes)) = [])
  /\ (absent "range" attributes ->
      parser.rangeTraits cls (l_range (parser.newItem itemData typeInfo attributes)) = [])
  /\ parser.susTraits [] = []
  /\ (absent "damagetype" attributes -> absent "statusattack" attributes ->
      absent "lifesteal" attributes -> absent "amount" attributes ->
      absent "atk" attributes -> absent "def" attributes -> absent "range" attributes ->
      parser.specialTraits cls attributes []
        (parser.newItem itemData typeInfo attributes) = Some []).
Proof.
  assert (Hnature : absent "damagetype" attributes -> parser.natureTraits attributes = []).
  { intros H. unfold parser.natureTraits. now rewrite stringAttribute_absent. }
  assert (Hstatus : absent "statusattack" attributes ->
                    parser.statusTraits attributes = Some []).
  { intros H. unfold parser.statusTraits. now rewrite stringAttribute_absent. }
  assert (Hzero : forall nm, absent nm attributes ->
                  (parser.numberAttribute attributes nm 0 =? 0) = true).
  { intros nm H. now rewrite numberAttribute_absent. }
  assert (Hlife : absent "lifesteal" attributes
      \/ (parser.numberAttribute attributes "lifesteal" 0 =? 0) = true ->
      parser.lifestealTraits attributes = []).
  { intros H. assert (H0 : (parser.numberAttribute attributes "lifesteal" 0 =? 0) = true)
      by (destruct H; auto).
    unfold parser.lifestealTraits. now rewrite (mul_100_zero _ H0). }
  assert (Hconsume : absent "amount" attributes
      \/ (parser.numberAttribute attributes "amount" 0 =? 0) = true ->
      parser.consumeTraits attributes = []).
  { intros H. assert (H0 : (parser.numberAttribute attributes "amount" 0 =? 0) = true)
      by (destruct H; auto).
    unfold parser.consumeTraits. now rewrite H0. }
  assert (Hstat : forall v, (v =? 0) = true ->
        parser.atkTraits cls v = [] /\ parser.defTraits cls v = []
        /\ parser.rangeTraits cls v = []).
  { intros v Hv. unfold parser.atkTraits, parser.defTraits, parser.rangeTraits.
    rewrite Hv, !andb_false_r. auto. }
  refine (conj Hnature (conj Hstatus (conj Hlife (conj Hconsume (conj Hstat
            (conj _ (conj _ (conj _ (conj eq_refl _))))))))).
  - intros H. apply Hstat. simpl. auto.
  - intros H. apply Hstat. simpl. auto.
  - intros H. apply Hstat. simpl. auto.
  - intros Hn Hs Hl Ha Hatk Hdef Hrange. unfold parser.specialTraits.
    rewrite (Hstatus Hs), (Hnature Hn), (Hlife (or_introl Hl)),
      (Hconsume (or_introl Ha)).
    simpl l_atk. simpl l_def. simpl l_range.
    rewrite (proj1 (Hstat _ (Hzero _ Hatk))),
      (proj1 (proj2 (Hstat _ (Hzero _ Hdef)))),
      (proj2 (proj2 (Hstat _ (Hzero _ Hrange)))).
    reflexivity.
Qed.

(** ** The dual-wield merge *)

Section DualWield.

Lemma parseItem_commit (st : state) (itemData : itemNode) (ti : typeNode)
    (attrs : list element) (its : list item) (it : item) :
  typeInfo itemData = Some ti -> attributes itemData = Some attrs ->
  parser.derive st itemData ti attrs = (its, Some it) ->
  parser.parseItem st itemData = Returned (commit st itemData its it).
Proof.
  intros Hti Hattrs Hd. unfold parser.parseItem, commit.
  rewrite Hti, Hattrs, Hd. destruct (unattainable itemData); reflexivity.
Qed.

Lemma commit_frame (st : state) (itemData : itemNode) (its : list item) (it : item) :
  className (commit st itemData its it) = className st
  /\ showUnattainable (commit st itemData its it) = showUnattainable st
  /\ items (commit st itemData its it)
     = if kept st itemData then (its ++ [it])%list else its.
Proof.
  unfold commit, kept.
  destruct (unattainable itemData); simpl;
    [destruct (showUnattainable st) eqn:Hshow; simpl; rewrite ?Hshow|];
    repeat split; reflexivity.
Qed.

Lemma specialTraits_defined (cls : string) (attrs : list element)
    (nodes : list susNode) (lit : literal) :
  parser.stringAttribute attrs "statusattack" <> Null ->
  exists status,
    parser.statusTraits attrs = Some status
    /\ parser.specialTraits cls attrs nodes lit
       = Some (parser.natureTraits attrs ++ status ++ parser.susTraits nodes
               ++ parser.lifestealTraits attrs
               ++ parser.atkTraits cls (l_atk lit) ++ parser.defTraits cls (l_def lit)
               ++ parser.rangeTraits cls (l_range lit)
               ++ parser.consumeTraits attrs)%list.
Proof.
  intros Hnull. unfold parser.specialTraits.
  destruct (parser.statusTraits attrs) as [status|] eqn:Hs.
  - exists status. auto.
  - exfalso. unfold parser.statusTraits in Hs.
    destruct (parser.stringAttribute attrs "statusattack") as [| |s];
      [discriminate | congruence |].
    destruct (includes s "poison" || includes s "venom"); [discriminate|].
    destruct (includes s ","); discriminate.
Qed.

Lemma pop_found_name (nm : string) (its rest : list item) (it : item) :
  main.pop nm its = (Some it, rest) -> name it = Str nm.
Proof.
  revert rest. induction its as [|x its IH]; intros rest; simpl; [discriminate|].
  destruct (strictEq (name x) nm) eqn:Hx.
  - intros [= <- <-]. unfold strictEq in Hx.
    destruct (name x) as [| |s]; try discriminate.
    apply String.eqb_eq in Hx. now subst.
  - destruct (main.pop nm its) as [res rest']. intros [= -> <-]. now apply (IH rest').
Qed.

(** The lookup finds a record only for an entry named like one half, and
    the record found has the name of the other half. *)
Lemma popOther_found (nm : option string) (its rest : list item) (it : item) :
  parser.popOther (getAttribute nm) its = (Some it, rest) ->
  (nm = Some "l hand sword" /\ name it = Str "r hand sword")
  \/ (nm = Some "r hand sword" /\ name it = Str "l hand sword").
Proof.
  unfold parser.popOther. destruct nm as [s|]; simpl; [|discriminate].
  destruct (String.eqb_spec s "l hand sword") as [-> | _].
  - intros H. left. split; [reflexivity | exact (pop_found_name _ _ _ _ H)].
  - destruct (String.eqb_spec s "r hand sword") as [-> | _]; [|discriminate].
    intros H. right. split; [reflexivity | exact (pop_found_name _ _ _ _ H)].
Qed.

(** C9, as stated, fails in its last part: the special list of the merged
    record is not a function of the second entry's attribute bag and
    susceptibility nodes.  Here the same second entry, after two first
    halves that differ in [def], gets the traits "def (3)" and
    "def (12)". *)
Lemma merged_special_reads_merged_def :
  let second := swordNode "r hand sword" [attr "atk" "7"; attr "def" "2"] false in
  (exists st' merged,
      parser.parseItems (bareState "swords")
        [swordNode "l hand sword" [attr "atk" "5"; attr "def" "1"; attr "rate" "4"] false;
         second]
      = Returned st'
      /\ items st' = [merged] /\ special merged = [Str "def (3)"])
  /\ (exists st' merged,
         parser.parseItems (bareState "swords")
           [swordNode "l hand sword" [attr "atk" "5"; attr "def" "10"; attr "rate" "4"] false;
            second]
         = Returned st'
         /\ items st' = [merged] /\ special merged = [Str "def (12)"]).
Proof. split; do 2 eexists; repeat split. Qed.

(** The turn in which the lookup of the other half finds [lrSword]: the
    record goes on as [mergeSwords], gets its traits and is committed. *)
Lemma merge_turn (st : state) (itemData : itemNode) (ti : typeNode)
    (attrs : list element) (lrSword : item) (rest : list item) :
  typeInfo itemData = Some ti -> attributes itemData = Some attrs ->
  parser.stringAttribute attrs "statusattack" <> Null ->
  parser.popOther (getAttribute (nameAttr itemData)) (items st) = (Some lrSword, rest) ->
  let lit := parser.mergeSwords lrSword (parser.newItem itemData ti attrs) in
  exists sp,
    parser.specialTraits (className st) attrs (susceptibility itemData) lit = Some sp
    /\ parser.derive st itemData ti attrs = (rest, Some (parser.finish lit sp))
    /\ parser.parseItem st itemData
       = Returned (commit st itemData rest (parser.finish lit sp)).
Proof.
  intros Hti Hattrs Hnull Hpop lit.
  destruct (specialTraits_defined (className st) attrs (susceptibility itemData) lit Hnull)
    as [status [_ Hsp]].
  eexists. split; [exact Hsp|].
  assert (Hd : parser.derive st itemData ti attrs
               = (rest, Some (parser.finish lit
                    (parser.natureTraits attrs ++ status
                     ++ parser.susTraits (susceptibility itemData)
                     ++ parser.lifestealTraits attrs
                     ++ parser.atkTraits (className st) (l_atk lit)
                     ++ parser.defTraits (className st) (l_def lit)
                     ++ parser.rangeTraits (className st) (l_range lit)
                     ++ parser.consumeTraits attrs)%list))).
  { unfold parser.derive. simpl l_name. rewrite Hpop. fold lit. now rewrite Hsp. }
  split; [exact Hd|].
  exact (parseItem_commit _ _ _ _ _ _ Hti Hattrs Hd).
Qed.

(** C9 (amended): when the lookup of the other half finds the record
    [lrSword] (the record of the half that arrived first, the current
    entry being the other half), the record the turn goes on with is named
    "l/r hand swords" and keeps the [class], [image], [value], [level],
    [rate] and [range] of [lrSword]; its [atk] and [def] are those of
    [lrSword] plus the current entry's; its [dpt] is recomputed from the
    combined [atk] and the [rate] of [lrSword]; its special list is
    rebuilt: the damage-type, status, susceptibility, lifesteal and
    consumable traits from the current entry's attribute bag and
    susceptibility nodes, and the atk, def and range traits from the
    merged record's own combined [atk] and [def] and the [range] of
    [lrSword].  Unless dropped as unattainable, it is pushed at the end of
    the collection. *)
Theorem merge_frame (st : state) (itemData : itemNode) (ti : typeNode)
    (attrs : list element) (lrSword : item) (rest : list item) :
  typeInfo itemData = Some ti -> attributes itemData = Some attrs ->
  parser.stringAttribute attrs "statusattack" <> Null ->
  parser.popOther (getAttribute (nameAttr itemData)) (items st) = (Some lrSword, rest) ->
  ((nameAttr itemData = Some "l hand sword" /\ name lrSword = Str "r hand sword")
   \/ (nameAttr itemData = Some "r hand sword" /\ name lrSword = Str "l hand sword"))
  /\ exists merged status,
    parser.derive st itemData ti attrs = (rest, Some merged)
    /\ parser.parseItem st itemData = Returned (commit st itemData rest merged)
    /\ items (commit st itemData rest merged)
       = (if kept st itemData then (rest ++ [merged])%list else rest)
    /\ name merged = Str "l/r hand swords"
    /\ class merged = class lrSword /\ image merged = image lrSword
    /\ value merged = value lrSword /\ level merged = level lrSword
    /\ rate merged = rate lrSword /\ range merged = range lrSword
    /\ atk merged = atk lrSword + parser.numberAttribute attrs "atk" 0
    /\ def merged = def lrSword + parser.numberAttribute attrs "def" 0
    /\ dpt merged = JS.round (atk merged / rate lrSword * 100) / 100
    /\ parser.statusTraits attrs = Some status
    /\ special merged
       = (parser.natureTraits attrs ++ status
          ++ parser.susTraits (susceptibility itemData)
          ++ parser.lifestealTraits attrs
          ++ parser.atkTraits (className st) (atk merged)
          ++ parser.defTraits (className st) (def merged)
          ++ parser.rangeTraits (className st) (range lrSword)
          ++ parser.consumeTraits attrs)%list.
Proof.
  intros Hti Hattrs Hnull Hpop.
  destruct (merge_turn st itemData ti attrs lrSword rest Hti Hattrs Hnull Hpop)
    as (sp & Hsp & Hd & Hstep).
  destruct (specialTraits_defined (className st) attrs (susceptibility itemData)
              (parser.mergeSwords lrSword (parser.newItem itemData ti attrs)) Hnull)
    as (status & Hstatus & Hlist).
  rewrite Hlist in Hsp. injection Hsp as Hsp. subst sp.
  split; [exact (popOther_found _ _ _ _ Hpop)|].
  eexists. exists status.
  split; [exact Hd|].
  split; [exact Hstep|].
  split; [apply commit_frame|].
  repeat split; assumption.
Qed.

Lemma merge_frame_witness :
  let attrs := [attr "atk" "7"; attr "def" "2"; attr "damagetype" "fire"] in
  let first :=
    {| name := Str "l hand sword"; class := Str "sword"; image := Str "l_sword";
       value := Str "0"; level := 0; rate := 4; atk := 5; def := 1; range := 0;
       dpt := 1.25; special := [Str "ice"] |} in
  exists merged,
    parser.parseItem
      {| className := "swords"; items := [first]; showUnattainable := false;
         debugLog := [] |}
      (swordNode "r hand sword" attrs false)
    = Returned {| className := "swords"; items := [merged]; showUnattainable := false;
                  debugLog := [] |}
    /\ name merged = Str "l/r hand swords" /\ image merged = Str "l_sword"
    /\ atk merged = 12 /\ def merged = 3 /\ rate merged = 4 /\ dpt merged = 3
    /\ special merged = [Str "fire"; Str "def (3)"].
Proof.
  intros attrs first.
  destruct (merge_frame
              {| className := "swords"; items := [first]; showUnattainable := false;
                 debugLog := [] |}
              (swordNode "r hand sword" attrs false)
              {| classAttr := Some "sword"; subclassAttr := Some "sword" |}
              attrs first [] eq_refl eq_refl ltac:(discriminate) eq_refl)
    as (_ & merged & status & Hd & Hp & _ & Hname & _ & Himage & _ & _ & Hrate & _
        & Hatk & Hdef & Hdpt & Hstatus & Hsp).
  exists merged.
  injection Hd as Hmerged. subst merged.
  injection Hstatus as Hst. subst status.
  repeat split; assumption.
Defined.

(** *** C1: the pair collapses to one record *)

Lemma pop_none (nm : string) (its : list item) :
  Forall (fun it => strictEq (name it) nm = false) its ->
  main.pop nm its = (None, its).
Proof.
  induction 1 as [|it rest Hit Hrest IH]; simpl; [reflexivity|].
  now rewrite Hit, IH.
Qed.

Lemma pop_app_found (nm : string) (pre post : list item) (f : item) :
  Forall (fun it => strictEq (name it) nm = false) pre ->
  strictEq (name f) nm = true ->
  main.pop nm (pre ++ f :: post) = (Some f, (pre ++ post)%list).
Proof.
  intros Hpre Hf. induction Hpre as [|it rest Hit Hrest IH]; simpl.
  - now rewrite Hf.
  - now rewrite Hit, IH.
Qed.

Lemma pairName_false (v : jsval) :
  pairName v = false ->
  strictEq v "l hand sword" = false /\ strictEq v "r hand sword" = false.
Proof.
  unfold pairName. rewrite !orb_false_iff. tauto.
Qed.

Lemma no_pair_no_name (nm : string) (its : list item) :
  pairName (Str nm) = true ->
  Forall (fun it => pairName (name it) = false) its ->
  Forall (fun it => strictEq (name it) nm = false) its.
Proof.
  intros Hnm. apply Forall_impl. intros it Hit.
  destruct (strictEq (name it) nm) eqn:Heq; [|reflexivity].
  unfold strictEq in Heq. destruct (name it) as [| |s]; try discriminate.
  apply String.eqb_eq in Heq. subst s. congruence.
Qed.

Lemma filter_no_pair (its : list item) :
  Forall (fun it => pairName (name it) = false) its ->
  filter (fun it => pairName (name it)) its = [].
Proof.
  induction 1 as [|it rest Hit Hrest IH]; simpl; [reflexivity|].
  now rewrite Hit.
Qed.

(** A turn on a well-formed node whose lookup finds nothing. *)
Lemma plain_turn (st : state) (itemData : itemNode) :
  wellFormed itemData = true ->
  parser.popOther (getAttribute (nameAttr itemData)) (items st) = (None, items st) ->
  exists it,
    parser.parseItem st itemData = Returned (commit st itemData (items st) it)
    /\ name it = getAttribute (nameAttr itemData)
    /\ atk it = atkOf itemData /\ def it = defOf itemData.
Proof.
  unfold wellFormed, atkOf, defOf. intros Hwf Hpop.
  destruct (typeInfo itemData) as [ti|] eqn:Hti; [|discriminate].
  destruct (attributes itemData) as [attrs|] eqn:Hattrs; [|discriminate].
  assert (Hnull : parser.stringAttribute attrs "statusattack" <> Null).
  { intros Heq. rewrite Heq in Hwf. discriminate. }
  destruct (specialTraits_defined (className st) attrs (susceptibility itemData)
              (parser.newItem itemData ti attrs) Hnull) as [status [_ Hsp]].
  eexists. split.
  - apply (parseItem_commit _ _ ti attrs); [assumption | assumption |].
    unfold parser.derive. simpl l_name. rewrite Hpop, Hsp. reflexivity.
  - repeat split; reflexivity.
Qed.

(** The entries between the two halves: none has a name of the pair.
    They leave the records that were there in place and push records of
    their own names. *)
Lemma other_entries (mid tail : list itemNode) :
  Forall (fun n => wellFormed n = true) mid ->
  Forall (fun n => pairName (getAttribute (nameAttr n)) = false) mid ->
  forall st, exists st2 extra,
    parser.parseItems st (mid ++ tail) = parser.parseItems st2 tail
    /\ items st2 = (items st ++ extra)%list
    /\ Forall (fun it => pairName (name it) = false) extra
    /\ className st2 = className st
    /\ showUnattainable st2 = showUnattainable st.
Proof.
  intros Hwf Hnames. revert Hnames.
  induction Hwf as [|n mid Hn Hmid IH]; intros Hnames st.
  - exists st, []. rewrite app_nil_r. repeat split. constructor.
  - inversion Hnames as [|n' mid' Hname Hrest]; subst.
    destruct (pairName_false _ Hname) as [Hl Hr].
    assert (Hpop : parser.popOther (getAttribute (nameAttr n)) (items st)
                   = (None, items st)).
    { unfold parser.popOther. now rewrite Hl, Hr. }
    destruct (plain_turn st n Hn Hpop) as (it & Hstep & Hit & _).
    destruct (commit_frame st n (items st) it) as (Hcls & Hshow & Hitems).
    destruct (IH Hrest (commit st n (items st) it))
      as (st2 & extra & Hrun & Hitems2 & Hextra & Hcls2 & Hshow2).
    exists st2.
    exists (if kept st n then it :: extra else extra).
    simpl. rewrite Hstep, Hrun. repeat split.
    + rewrite Hitems2, Hitems. destruct (kept st n); [|reflexivity].
      rewrite <- app_assoc. reflexivity.
    + destruct (kept st n); [|assumption].
      constructor; [now rewrite Hit | assumption].
    + congruence.
    + congruence.
Qed.

(** C1, as stated, fails when a half is dropped as unattainable: the left
    half carries the marker and is not pushed, so the right half finds
    nothing to merge with and stays in the collection under its own name,
    with its own [atk]. *)
Lemma no_merge_when_first_half_unattainable :
  exists st' it,
    parser.parseItems (bareState "swords")
      [swordNode "l hand sword" [attr "atk" "5"; attr "def" "1"] true;
       swordNode "r hand sword" [attr "atk" "7"; attr "def" "2"] false]
    = Returned st'
    /\ items st' = [it]
    /\ name it = Str "r hand sword" /\ atk it = 7 /\ def it = 2.
Proof. do 2 eexists. repeat split. Qed.

(** C1 (amended): let [first] and [second] be the two halves, in either
    order, both with a [type] node and an [attributes] block and without
    a valueless [statusattack], and both pushed when processed (no
    [unattainable] marker, or [showUnattainable] set); let the collection
    hold no record of the pair when [first] arrives and let the entries
    [mid] processed in between be well formed and not named like the
    pair.  Then the run returns, and the collection holds exactly one
    record of the pair: it is named "l/r hand swords", its [atk] is the
    sum of the two [atk] values and its [def] the sum of the two [def]
    values, the first half's coming first in the sum.  The record of
    [first] is gone from the collection. *)
Theorem dual_wield_merge (st : state) (first second : itemNode)
    (mid : list itemNode) (a b : string) :
  (a = "l hand sword" /\ b = "r hand sword")
  \/ (a = "r hand sword" /\ b = "l hand sword") ->
  nameAttr first = Some a -> nameAttr second = Some b ->
  wellFormed first = true -> wellFormed second = true ->
  Forall (fun n => wellFormed n = true) mid ->
  Forall (fun n => pairName (getAttribute (nameAttr n)) = false) mid ->
  kept st first = true -> kept st second = true ->
  noPairRecord (items st) ->
  exists st' merged,
    parser.parseItems st (first :: mid ++ [second]) = Returned st'
    /\ filter (fun it => pairName (name it)) (items st') = [merged]
    /\ name merged = Str "l/r hand swords"
    /\ atk merged = atkOf first + atkOf second
    /\ def merged = defOf first + defOf second.
Proof.
  intros Hab Ha Hb Hwf1 Hwf2 Hwfmid Hmid Hkept1 Hkept2 Hst.
  assert (Hpa : pairName (Str a) = true) by (destruct Hab as [[-> _] | [-> _]]; reflexivity).
  assert (Hpb : pairName (Str b) = true) by (destruct Hab as [[_ ->] | [_ ->]]; reflexivity).
  (* the first half finds nothing and is pushed *)
  assert (Hpop1 : parser.popOther (getAttribute (nameAttr first)) (items st)
                  = (None, items st)).
  { rewrite Ha. simpl getAttribute. unfold parser.popOther.
    destruct Hab as [[-> ->] | [-> ->]]; simpl strictEq;
      apply pop_none; apply no_pair_no_name; auto. }
  destruct (plain_turn st first Hwf1 Hpop1) as (f & Hstep1 & Hfname & Hfatk & Hfdef).
  destruct (commit_frame st first (items st) f) as (Hcls1 & Hshow1 & Hitems1).
  rewrite Hkept1 in Hitems1. rewrite Ha in Hfname. simpl in Hfname.
  (* the entries in between *)
  destruct (other_entries mid [second] Hwfmid Hmid (commit st first (items st) f))
    as (st2 & extra & Hrun & Hitems2 & Hextra & Hcls2 & Hshow2).
  rewrite Hitems1, <- app_assoc in Hitems2. simpl in Hitems2.
  (* the second half finds the first *)
  assert (Hpop2 : parser.popOther (getAttribute (nameAttr second)) (items st2)
                  = (Some f, (items st ++ extra)%list)).
  { rewrite Hb, Hitems2. simpl getAttribute. unfold parser.popOther.
    destruct Hab as [[-> ->] | [-> ->]]; simpl strictEq;
      (apply pop_app_found; [apply no_pair_no_name; auto | now rewrite Hfname]). }
  unfold wellFormed in Hwf2.
  destruct (typeInfo second) as [ti|] eqn:Hti; [|discriminate].
  destruct (attributes second) as [attrs|] eqn:Hattrs; [|discriminate].
  assert (Hnull : parser.stringAttribute attrs "statusattack" <> Null).
  { intros Heq. rewrite Heq in Hwf2. discriminate. }
  destruct (merge_turn st2 second ti attrs f _ Hti Hattrs Hnull Hpop2)
    as (sp & _ & _ & Hstep2).
  set (merged := parser.finish
                   (parser.mergeSwords f (parser.newItem second ti attrs)) sp) in *.
  destruct (commit_frame st2 second (items st ++ extra)%list merged)
    as (_ & _ & Hitems').
  assert (Hname : name merged = Str "l/r hand swords") by reflexivity.
  assert (Hatk : atk merged = atk f + parser.numberAttribute attrs "atk" 0)
    by reflexivity.
  assert (Hdef : def merged = def f + parser.numberAttribute attrs "def" 0)
    by reflexivity.
  assert (Hkept2' : kept st2 second = true).
  { unfold kept in *. congruence. }
  rewrite Hkept2' in Hitems'.
  exists (commit st2 second (items st ++ extra)%list merged), merged.
  split; [|split; [|split; [|split]]].
  - simpl. rewrite Hstep1, Hrun. simpl. now rewrite Hstep2.
  - rewrite Hitems', !filter_app.
    rewrite (filter_no_pair _ Hst), (filter_no_pair _ Hextra).
    reflexivity.
  - exact Hname.
  - rewrite Hatk, Hfatk. unfold atkOf. now rewrite Hattrs.
  - rewrite Hdef, Hfdef. unfold defOf. now rewrite Hattrs.
Qed.

Lemma dual_wield_merge_witness :
  let l := swordNode "l hand sword" [attr "atk" "5"; attr "def" "1"] false in
  let r := swordNode "r hand sword" [attr "atk" "7"; attr "def" "2"] false in
  let club := swordNode "club" [attr "atk" "3"] false in
  (exists st' merged,
      parser.parseItems (bareState "swords") [l; club; r] = Returned st'
      /\ filter (fun it => pairName (name it)) (items st') = [merged]
      /\ name merged = Str "l/r hand swords" /\ atk merged = 12 /\ def merged = 3)
  /\ (exists st' merged,
         parser.parseItems (bareState "swords") [r; club; l] = Returned st'
         /\ filter (fun it => pairName (name it)) (items st') = [merged]
         /\ name merged = Str "l/r hand swords" /\ atk merged = 12 /\ def merged = 3).
Proof.
  intros l r club.
  assert (Hclub : Forall (fun n => wellFormed n = true) [club])
    by (repeat constructor).
  assert (Hother : Forall (fun n => pairName (getAttribute (nameAttr n)) = false) [club])
    by (repeat constructor).
  split.
  - exact (dual_wield_merge (bareState "swords") l r [club] "l hand sword" "r hand sword"
             (or_introl (conj eq_refl eq_refl)) eq_refl eq_refl eq_refl eq_refl
             Hclub Hother eq_refl eq_refl (Forall_nil _)).
  - exact (dual_wield_merge (bareState "swords") r l [club] "r hand sword" "l hand sword"
             (or_intror (conj eq_refl eq_refl)) eq_refl eq_refl eq_refl eq_refl
             Hclub Hother eq_refl eq_refl (Forall_nil _)).
Defined.

End DualWield.

(** * The special list of the record of a turn *)

Section Specials.

(** A turn on a node with a [type] node and an attribute bag whose
    [statusattack], if any, has a value: it gets to the end of the trait
    blocks with a record [it], whose special list is what the blocks
    pushed, in their order, and [it] is pushed last on the collection
    unless the node is dropped as unattainable.  When the lookup of the
    other half found nothing, [atk], [def] and [range] are the node's. *)
Lemma turn_special (st : state) (itemData : itemNode) (ti : typeNode)
    (attrs : list element) :
  typeInfo itemData = Some ti -> attributes itemData = Some attrs ->
  parser.stringAttribute attrs "statusattack" <> Null ->
  exists it rest status,
    parser.parseItem st itemData = Returned (commit st itemData rest it)
    /\ items (commit st itemData rest it)
       = (if kept st itemData then rest ++ [it] else rest)%list
    /\ parser.statusTraits attrs = Some status
    /\ special it
       = (parser.natureTraits attrs ++ status
          ++ parser.susTraits (susceptibility itemData)
          ++ parser.lifestealTraits attrs
          ++ parser.atkTraits (className st) (atk it)
          ++ parser.defTraits (className st) (def it)
          ++ parser.rangeTraits (className st) (range it)
          ++ parser.consumeTraits attrs)%list
    /\ (fst (parser.popOther (getAttribute (nameAttr itemData)) (items st)) = None ->
        atk it = parser.numberAttribute attrs "atk" 0
        /\ def it = parser.numberAttribute attrs "def" 0
        /\ range it = parser.numberAttribute attrs "range" 0).
Proof.
  intros Hti Hattrs Hnull.
  destruct (parser.popOther (getAttribute (nameAttr itemData)) (items st))
    as [lr rest] eqn:Hpop.
  destruct (specialTraits_defined (className st) attrs (susceptibility itemData)
              (turnLiteral itemData ti attrs lr) Hnull) as (status & Hstatus & Hsp).
  assert (Hd : parser.derive st itemData ti attrs
               = (rest, option_map (parser.finish (turnLiteral itemData ti attrs lr))
                          (parser.specialTraits (className st) attrs
                             (susceptibility itemData)
                             (turnLiteral itemData ti attrs lr)))).
  { unfold parser.derive. simpl l_name. rewrite Hpop. reflexivity. }
  rewrite Hsp in Hd. cbn [option_map] in Hd.
  eexists. exists rest, status.
  split; [exact (parseItem_commit st itemData ti attrs rest _ Hti Hattrs Hd)|].
  split; [apply commit_frame|].
  split; [exact Hstatus|].
  split; [reflexivity|].
  cbn [fst]. intros ->. repeat split; reflexivity.
Qed.

Lemma statusTraits_single (attrs : list element) (s : string) :
  parser.stringAttribute attrs "statusattack" = Str s ->
  exists trait, parser.statusTraits attrs = Some [trait].
Proof.
  intros Hs. unfold parser.statusTraits. rewrite Hs.
  destruct (includes s "poison" || includes s "venom"); [eexists; reflexivity|].
  destruct (includes s ","); eexists; reflexivity.
Qed.

(** C5 (amended): for every item whose [statusattack] has the text [s],
    the turn returns with a record whose special list holds, right after
    the damage-type trait if there is one, the status trait: the literal
    "poison" when [s] contains "poison" or "venom", whether or not [s] has
    a comma; otherwise, when [s] has a comma, the field between the first
    comma and the second one (or the end of the text); otherwise [s]
    itself.  The record is the last of the collection unless the node is
    dropped as unattainable.  The item with "poison,weak" gets "poison"
    and the item with "fire,ice" gets "ice". *)
Theorem status_effect_trait (st : state) (itemData : itemNode) (ti : typeNode)
    (attrs : list element) (s : string) :
  typeInfo itemData = Some ti -> attributes itemData = Some attrs ->
  parser.stringAttribute attrs "statusattack" = Str s ->
  (exists it rest trait after,
      parser.parseItem st itemData = Returned (commit st itemData rest it)
      /\ items (commit st itemData rest it)
         = (if kept st itemData then rest ++ [it] else rest)%list
      /\ special it = (parser.natureTraits attrs ++ trait :: after)%list
      /\ (includes s "poison" || includes s "venom" = true -> trait = Str "poison")
      /\ (includes s "poison" || includes s "venom" = false ->
          (forall a b t,
              s = a ++ "," ++ b ++ t ->
              includes a "," = false -> includes b "," = false ->
              t = "" \/ prefix "," t = true ->
              trait = Str b)
          /\ (includes s "," = false -> trait = Str s)))
  /\ specialsOf (parser.parseItems (bareState "swords")
                   [swordNode "fang" (statusBag "poison,weak") false])
     = [[Str "poison"]]
  /\ specialsOf (parser.parseItems (bareState "swords")
                   [swordNode "brand" (statusBag "fire,ice") false])
     = [[Str "ice"]].
Proof.
  intros Hti Hattrs Hs.
  assert (Hnull : parser.stringAttribute attrs "statusattack" <> Null)
    by (rewrite Hs; discriminate).
  destruct (turn_special st itemData ti attrs Hti Hattrs Hnull)
    as (it & rest & status & Hrun & Hitems & Hstatus & Hsp & _).
  destruct (statusTraits_single attrs s Hs) as [trait Htrait].
  rewrite Htrait in Hstatus. injection Hstatus as <-.
  destruct (statusTraits_rule attrs s Hs) as (Hpoison & Hother & _).
  split; [|split; reflexivity].
  exists it, rest, trait. eexists.
  split; [exact Hrun|]. split; [exact Hitems|]. split; [exact Hsp|].
  split.
  - intros Hp. specialize (Hpoison Hp). rewrite Htrait in Hpoison.
    now injection Hpoison.
  - intros Hp. destruct (Hother Hp) as [Hcomma Hplain]. split.
    + intros a b t Hsplit Ha Hb Ht.
      specialize (Hcomma a b t Hsplit Ha Hb Ht). rewrite Htrait in Hcomma.
      now injection Hcomma.
    + intros Hc. specialize (Hplain Hc). rewrite Htrait in Hplain.
      now injection Hplain.
Qed.

Lemma status_effect_trait_witness :
  exists it rest trait after,
    parser.parseItem (bareState "clubs")
                     (swordNode "mace" (attr "damagetype" "dark" :: statusBag "shock,stun,3")
                                false)
    = Returned (commit (bareState "clubs")
                  (swordNode "mace" (attr "damagetype" "dark" :: statusBag "shock,stun,3")
                             false)
                  rest it)
    /\ special it = (Str "dark" :: trait :: after)%list
    /\ trait = Str "stun".
Proof.
  destruct (status_effect_trait (bareState "clubs")
              (swordNode "mace" (attr "damagetype" "dark" :: statusBag "shock,stun,3")
                         false)
              {| classAttr := Some "sword"; subclassAttr := Some "sword" |}
              (attr "damagetype" "dark" :: statusBag "shock,stun,3")
              "shock,stun,3" eq_refl eq_refl eq_refl)
    as ((it & rest & trait & after & Hrun & _ & Hsp & _ & Hother) & _).
  exists it, rest, trait, after.
  split; [exact Hrun|]. split; [exact Hsp|].
  exact (proj1 (Hother eq_refl) "shock" "stun" ",3" eq_refl eq_refl eq_refl
           (or_intror eq_refl)).
Defined.

(** C6: for every item, the turn returns with a record whose special
    list holds, between the damage-type and status traits and the traits
    of the later blocks, the susceptibility traits of its nodes in
    document order.  For each node, with [raw] its multiplier (1 when the
    value does not parse), [pct = round(raw * 1000) / 10] and
    [display = 100 - pct]: no trait when [display] equals 0, and
    otherwise the type, " (", a "+" when [display] is positive, [display]
    and "%)".  An item with a node of raw value 0.8 and a node of raw
    value 1.0 gets "+20%" for the first and nothing for the second. *)
Theorem susceptibility_trait (st : state) (itemData : itemNode) (ti : typeNode)
    (attrs : list element) :
  typeInfo itemData = Some ti -> attributes itemData = Some attrs ->
  parser.stringAttribute attrs "statusattack" <> Null ->
  (exists it rest status,
      parser.parseItem st itemData = Returned (commit st itemData rest it)
      /\ items (commit st itemData rest it)
         = (if kept st itemData then rest ++ [it] else rest)%list
      /\ parser.statusTraits attrs = Some status
      /\ special it
         = ((parser.natureTraits attrs ++ status)
            ++ flat_map parser.susTrait (susceptibility itemData)
            ++ (parser.lifestealTraits attrs
                ++ parser.atkTraits (className st) (atk it)
                ++ parser.defTraits (className st) (def it)
                ++ parser.rangeTraits (className st) (range it)
                ++ parser.consumeTraits attrs))%list)
  /\ (forall sus,
        let raw := util.parseNumberDefault (getAttribute (susValue sus)) 1 in
        let pct := JS.round (raw * 1000) / 10 in
        let display := 100 - pct in
        parser.susTrait sus
        = (if display =? 0 then []
           else [Str (ToString (getAttribute (susType sus)) ++ " ("
                      ++ (if 0 <? display then "+" else "") ++ JS.toString display
                      ++ "%)")]))
  /\ specialsOf (parser.parseItems (bareState "shields")
                   [resistingNode [susNodeOf "fire" "0.8"; susNodeOf "ice" "1.0"]])
     = [[Str "fire (+20%)"]].
Proof.
  intros Hti Hattrs Hnull.
  destruct (turn_special st itemData ti attrs Hti Hattrs Hnull)
    as (it & rest & status & Hrun & Hitems & Hstatus & Hsp & _).
  split; [|split; [exact susTrait_rule | vm_compute; reflexivity]].
  exists it, rest, status.
  split; [exact Hrun|]. split; [exact Hitems|]. split; [exact Hstatus|].
  rewrite Hsp. unfold parser.susTraits. now rewrite <- app_assoc.
Qed.

Lemma susceptibility_trait_witness :
  exists it rest after,
    parser.parseItem (bareState "shields")
                     (resistingNode [susNodeOf "fire" "0.8"; susNodeOf "ice" "1.25"])
    = Returned (commit (bareState "shields")
                  (resistingNode [susNodeOf "fire" "0.8"; susNodeOf "ice" "1.25"])
                  rest it)
    /\ special it = (Str "fire (+20%)" :: Str "ice (-25%)" :: after)%list.
Proof.
  destruct (susceptibility_trait (bareState "shields")
              (resistingNode [susNodeOf "fire" "0.8"; susNodeOf "ice" "1.25"])
              {| classAttr := Some "shield"; subclassAttr := Some "shield" |}
              [] eq_refl eq_refl ltac:(discriminate))
    as ((it & rest & status & Hrun & _ & Hstatus & Hsp) & _).
  assert (Hsus : flat_map parser.susTrait [susNodeOf "fire" "0.8"; susNodeOf "ice" "1.25"]
                 = [Str "fire (+20%)"; Str "ice (-25%)"]) by (vm_compute; reflexivity).
  injection Hstatus as <-.
  cbn [susceptibility resistingNode] in Hsp. rewrite Hsus in Hsp.
  exists it, rest. eexists. split; [exact Hrun | exact Hsp].
Defined.

Lemma stringAttribute_without (nm other : string) (attributes : list element) :
  nm <> other ->
  parser.stringAttribute (without other attributes) nm
  = parser.stringAttribute attributes nm.
Proof.
  intros Hne. unfold parser.stringAttribute.
  now rewrite firstByTagName_without_other.
Qed.

(** The blocks read an [immunization] element in the consumable block
    only, and there an empty value is read as no element. *)
Lemma specialTraits_without_immunization (cls : string) (attrs : list element)
    (nodes : list susNode) (lit : literal) :
  (parser.numberAttribute attrs "amount" 0 =? 0) = false ->
  parser.stringAttribute attrs "immunization" = Str "" ->
  parser.specialTraits cls (without "immunization" attrs) nodes lit
  = parser.specialTraits cls attrs nodes lit.
Proof.
  intros Hamount Hcures.
  destruct (consumeTraits_empty_immunization attrs Hamount Hcures) as (Hsame & _).
  unfold parser.specialTraits, parser.statusTraits, parser.natureTraits,
    parser.lifestealTraits.
  rewrite <- Hsame, !stringAttribute_without, !numberAttribute_without by discriminate.
  reflexivity.
Qed.

Lemma newItem_without_immunization (itemData : itemNode) (ti : typeNode)
    (attrs : list element) :
  parser.newItem (withBag itemData (without "immunization" attrs)) ti
                 (without "immunization" attrs)
  = parser.newItem itemData ti attrs.
Proof.
  unfold parser.newItem. cbn [nameAttr valueInfo withBag].
  now rewrite !numberAttribute_without by discriminate.
Qed.

(** C10: for every item with a non-zero [amount] and an [immunization]
    element whose value is the empty string, the turn does exactly what
    it does on the same item without any [immunization] element: the same
    outcome, with the same record and the same collection.  When the turn
    returns, the special list of its record ends with what the consumable
    block pushed: the heal or hurt trait, followed by the regen and
    frequency traits when [frequency] is not 1 or [regen] differs from
    [amount], and no cure or immunity-duration trait. *)
Theorem empty_immunization_as_absent (st : state) (itemData : itemNode)
    (ti : typeNode) (attrs : list element) :
  let amount := parser.numberAttribute attrs "amount" 0 in
  let regen := parser.numberAttribute attrs "regen" 0 in
  let frequency := parser.numberAttribute attrs "frequency" 0 in
  typeInfo itemData = Some ti -> attributes itemData = Some attrs ->
  (amount =? 0) = false ->
  parser.stringAttribute attrs "immunization" = Str "" ->
  parser.parseItem st itemData
  = parser.parseItem st (withBag itemData (without "immunization" attrs))
  /\ parser.stringAttribute (without "immunization" attrs) "immunization" = Undefined
  /\ (parser.stringAttribute attrs "statusattack" <> Null ->
      exists it rest status,
        parser.parseItem st itemData = Returned (commit st itemData rest it)
        /\ items (commit st itemData rest it)
           = (if kept st itemData then rest ++ [it] else rest)%list
        /\ parser.statusTraits attrs = Some status
        /\ special it
           = ((parser.natureTraits attrs ++ status
               ++ parser.susTraits (susceptibility itemData)
               ++ parser.lifestealTraits attrs
               ++ parser.atkTraits (className st) (atk it)
               ++ parser.defTraits (className st) (def it)
               ++ parser.rangeTraits (className st) (range it))
              ++ regenTraits amount regen frequency)%list
        /\ forallb notCureTrait (regenTraits amount regen frequency) = true).
Proof.
  intros amount regen frequency Hti Hattrs Hamount Hcures.
  destruct (consumeTraits_empty_immunization attrs Hamount Hcures)
    as (_ & Hundef & Hshape & Hnone).
  fold amount regen frequency in Hshape.
  fold (regenTraits amount regen frequency) in Hshape.
  split; [|split; [exact Hundef|]].
  - unfold parser.parseItem. cbn [typeInfo attributes unattainable withBag].
    rewrite Hti, Hattrs. unfold parser.derive.
    rewrite newItem_without_immunization. cbn [susceptibility withBag].
    destruct (parser.popOther (l_name (parser.newItem itemData ti attrs)) (items st))
      as [lr rest].
    now rewrite (specialTraits_without_immunization _ _ _ _ Hamount Hcures).
  - intros Hnull.
    destruct (turn_special st itemData ti attrs Hti Hattrs Hnull)
      as (it & rest & status & Hrun & Hitems & Hstatus & Hsp & _).
    exists it, rest, status.
    split; [exact Hrun|]. split; [exact Hitems|]. split; [exact Hstatus|].
    split; [|now rewrite <- Hshape].
    rewrite Hsp, Hshape, <- !app_assoc. reflexivity.
Qed.

Lemma empty_immunization_as_absent_witness :
  parser.parseItem (bareState "drinks")
    (swordNode "tonic" [attr "amount" "-40"; attr "immunization" "";
                        attr "frequency" "2"] false)
  = parser.parseItem (bareState "drinks")
      (swordNode "tonic" [attr "amount" "-40"; attr "frequency" "2"] false)
  /\ exists it rest before,
       parser.parseItem (bareState "drinks")
         (swordNode "tonic" [attr "amount" "-40"; attr "immunization" "";
                             attr "frequency" "2"] false)
       = Returned (commit (bareState "drinks")
                     (swordNode "tonic" [attr "amount" "-40"; attr "immunization" "";
                                         attr "frequency" "2"] false)
                     rest it)
       /\ special it
          = (before ++ [Str "hurt (-40)"; Str "regen (0)"; Str "frequency (2)"])%list.
Proof.
  destruct (empty_immunization_as_absent (bareState "drinks")
              (swordNode "tonic" [attr "amount" "-40"; attr "immunization" "";
                                  attr "frequency" "2"] false)
              {| classAttr := Some "sword"; subclassAttr := Some "sword" |}
              [attr "amount" "-40"; attr "immunization" ""; attr "frequency" "2"]
              eq_refl eq_refl eq_refl eq_refl)
    as (Hsame & _ & Hturn).
  split; [exact Hsame|].
  destruct (Hturn ltac:(discriminate)) as (it & rest & status & Hrun & _ & _ & Hsp & _).
  assert (Htraits : regenTraits
                      (parser.numberAttribute
                         [attr "amount" "-40"; attr "immunization" "";
                          attr "frequency" "2"] "amount" 0)
                      (parser.numberAttribute
                         [attr "amount" "-40"; attr "immunization" "";
                          attr "frequency" "2"] "regen" 0)
                      (parser.numberAttribute
                         [attr "amount" "-40"; attr "immunization" "";
                          attr "frequency" "2"] "frequency" 0)
                    = [Str "hurt (-40)"; Str "regen (0)"; Str "frequency (2)"])
    by (vm_compute; reflexivity).
  rewrite Htraits in Hsp.
  exists it, rest. eexists. split; [exact Hrun | exact Hsp].
Defined.

Lemma consumeTraits_regen (attrs : list element) :
  (parser.numberAttribute attrs "amount" 0 =? 0) = false ->
  truthy (parser.stringAttribute attrs "immunization") = false ->
  parser.consumeTraits attrs
  = regenTraits (parser.numberAttribute attrs "amount" 0)
                (parser.numberAttribute attrs "regen" 0)
                (parser.numberAttribute attrs "frequency" 0).
Proof.
  intros Hamount Hcures. unfold parser.consumeTraits, regenTraits.
  rewrite Hamount, Hcures. reflexivity.
Qed.

(** C4 (amended): for every processed item, the special list of its
    record is the concatenation of what the eight blocks pushed, in their
    order and without deduplication.  An absent [damagetype],
    [statusattack], [lifesteal] or [amount] contributes no trait, nor does
    an absent [atk], [def] or [range] on a record that was not merged, nor
    an item without susceptibility nodes; a [lifesteal], [atk], [def],
    [range] or [amount] that is a zero contributes none either.  [regen]
    and [frequency] are outside this rule: with a non-zero [amount] and no
    cure named, the block pushes the heal or hurt trait and then, unless
    [frequency] is 1 and [regen] equals [amount], the regen and frequency
    traits, which read "regen (0)" and "frequency (0)" when both are
    absent.  An unmerged item with none of the seven attributes and no
    susceptibility node gets the empty list. *)
Theorem special_suppression (st : state) (itemData : itemNode) (ti : typeNode)
    (attrs : list element) :
  typeInfo itemData = Some ti -> attributes itemData = Some attrs ->
  parser.stringAttribute attrs "statusattack" <> Null ->
  exists it rest status,
    parser.parseItem st itemData = Returned (commit st itemData rest it)
    /\ items (commit st itemData rest it)
       = (if kept st itemData then rest ++ [it] else rest)%list
    /\ parser.statusTraits attrs = Some status
    /\ special it
       = (parser.natureTraits attrs ++ status
          ++ parser.susTraits (susceptibility itemData)
          ++ parser.lifestealTraits attrs
          ++ parser.atkTraits (className st) (atk it)
          ++ parser.defTraits (className st) (def it)
          ++ parser.rangeTraits (className st) (range it)
          ++ parser.consumeTraits attrs)%list
    /\ (absent "damagetype" attrs -> parser.natureTraits attrs = [])
    /\ (absent "statusattack" attrs -> status = [])
    /\ (susceptibility itemData = [] ->
        parser.susTraits (susceptibility itemData) = [])
    /\ (absent "lifesteal" attrs
        \/ (parser.numberAttribute attrs "lifesteal" 0 =? 0) = true ->
        parser.lifestealTraits attrs = [])
    /\ ((atk it =? 0) = true -> parser.atkTraits (className st) (atk it) = [])
    /\ ((def it =? 0) = true -> parser.defTraits (className st) (def it) = [])
    /\ ((range it =? 0) = true -> parser.rangeTraits (className st) (range it) = [])
    /\ (fst (parser.popOther (getAttribute (nameAttr itemData)) (items st)) = None ->
        (absent "atk" attrs -> parser.atkTraits (className st) (atk it) = [])
        /\ (absent "def" attrs -> parser.defTraits (className st) (def it) = [])
        /\ (absent "range" attrs -> parser.rangeTraits (className st) (range it) = []))
    /\ (absent "amount" attrs
        \/ (parser.numberAttribute attrs "amount" 0 =? 0) = true ->
        parser.consumeTraits attrs = [])
    /\ ((parser.numberAttribute attrs "amount" 0 =? 0) = false ->
        truthy (parser.stringAttribute attrs "immunization") = false ->
        parser.consumeTraits attrs
        = regenTraits (parser.numberAttribute attrs "amount" 0)
                      (parser.numberAttribute attrs "regen" 0)
                      (parser.numberAttribute attrs "frequency" 0)
        /\ (absent "regen" attrs -> absent "frequency" attrs ->
            parser.consumeTraits attrs
            = [Str ((if 0 <? parser.numberAttribute attrs "amount" 0
                     then "heal" else "hurt")
                    ++ " (" ++ JS.toString (parser.numberAttribute attrs "amount" 0)
                    ++ ")");
               Str "regen (0)"; Str "frequency (0)"]))
    /\ (absent "damagetype" attrs -> absent "statusattack" attrs ->
        absent "lifesteal" attrs -> absent "amount" attrs ->
        absent "atk" attrs -> absent "def" attrs -> absent "range" attrs ->
        susceptibility itemData = [] ->
        fst (parser.popOther (getAttribute (nameAttr itemData)) (items st)) = None ->
        special it = []).
Proof.
  intros Hti Hattrs Hnull.
  destruct (turn_special st itemData ti attrs Hti Hattrs Hnull)
    as (it & rest & status & Hrun & Hitems & Hstatus & Hsp & Hplain).
  destruct (blocks_suppression (className st) attrs itemData ti)
    as (Hnature & Hnostatus & Hlife & Hconsume & Hzero & _).
  assert (Hst : absent "statusattack" attrs -> status = []).
  { intros H. specialize (Hnostatus H). rewrite Hstatus in Hnostatus.
    now injection Hnostatus. }
  assert (Hsus : susceptibility itemData = [] ->
                 parser.susTraits (susceptibility itemData) = [])
    by (intros ->; reflexivity).
  assert (Habs : fst (parser.popOther (getAttribute (nameAttr itemData)) (items st))
                 = None ->
        (absent "atk" attrs -> parser.atkTraits (className st) (atk it) = [])
        /\ (absent "def" attrs -> parser.defTraits (className st) (def it) = [])
        /\ (absent "range" attrs -> parser.rangeTraits (className st) (range it) = [])).
  { intros Hnone. destruct (Hplain Hnone) as (-> & -> & ->).
    refine (conj _ (conj _ _)); intros H; apply Hzero;
      now rewrite numberAttribute_absent. }
  exists it, rest, status.
  refine (conj Hrun (conj Hitems (conj Hstatus (conj Hsp (conj Hnature (conj Hst
            (conj Hsus (conj Hlife (conj _ (conj _ (conj _ (conj Habs
            (conj Hconsume (conj _ _)))))))))))))).
  - intros H. apply Hzero, H.
  - intros H. apply Hzero, H.
  - intros H. apply Hzero, H.
  - intros Hamount Hcures. split; [now apply consumeTraits_regen|].
    intros Hregen Hfrequency.
    rewrite (consumeTraits_regen attrs Hamount Hcures).
    rewrite (numberAttribute_absent _ _ _ Hregen),
      (numberAttribute_absent _ _ _ Hfrequency).
    unfold regenTraits.
    replace (negb (0 =? 1)) with true by reflexivity.
    replace (JS.toString 0) with "0"%string by (vm_compute; reflexivity).
    reflexivity.
  - intros Hn Hs Hl Ha Hatk Hdef Hrange Hnodes Hnone.
    destruct (Habs Hnone) as (Ht1 & Ht2 & Ht3).
    rewrite Hsp, (Hnature Hn), (Hst Hs), (Hsus Hnodes), (Hlife (or_introl Hl)),
      (Ht1 Hatk), (Ht2 Hdef), (Ht3 Hrange), (Hconsume (or_introl Ha)).
    reflexivity.
Qed.

Lemma special_suppression_witness :
  exists it rest,
    parser.parseItem (bareState "swords")
      (swordNode "club" [attr "min_level" "10"; attr "lifesteal" "0";
                         attr "amount" "-0.0"] false)
    = Returned (commit (bareState "swords")
                  (swordNode "club" [attr "min_level" "10"; attr "lifesteal" "0";
                                     attr "amount" "-0.0"] false)
                  rest it)
    /\ special it = [].
Proof.
  destruct (special_suppression (bareState "swords")
              (swordNode "club" [attr "min_level" "10"; attr "lifesteal" "0";
                                 attr "amount" "-0.0"] false)
              {| classAttr := Some "sword"; subclassAttr := Some "sword" |}
              [attr "min_level" "10"; attr "lifesteal" "0"; attr "amount" "-0.0"]
              eq_refl eq_refl ltac:(discriminate))
    as (it & rest & status & Hrun & _ & _ & Hsp & Hn & Hs & Hsus & Hl & _ & _ & _
        & Hplain & Hc & _).
  exists it, rest. split; [exact Hrun|].
  assert (Habsent : forall nm,
            (nm =? "min_level")%string = false -> (nm =? "lifesteal")%string = false ->
            (nm =? "amount")%string = false ->
            absent nm [attr "min_level" "10"; attr "lifesteal" "0"; attr "amount" "-0.0"]).
  { intros nm H1 H2 H3 el [<- | [<- | [<- | []]]]; cbn [tagName attr]; intros <-;
      discriminate. }
  destruct (Hplain eq_refl) as (Hatk & Hdef & Hrange).
  rewrite Hsp, (Hn (Habsent "damagetype"%string eq_refl eq_refl eq_refl)),
    (Hs (Habsent "statusattack"%string eq_refl eq_refl eq_refl)), (Hsus eq_refl),
    (Hl (or_intror eq_refl)), (Hatk (Habsent "atk"%string eq_refl eq_refl eq_refl)),
    (Hdef (Habsent "def"%string eq_refl eq_refl eq_refl)),
    (Hrange (Habsent "range"%string eq_refl eq_refl eq_refl)), (Hc (or_intror eq_refl)).
  reflexivity.
Defined.

End Specials.

(** * Further properties of the script *)

(** ** [main.pop] *)

Lemma pop_found_split (nm : string) (its rest : list item) (it : item) :
  main.pop nm its = (Some it, rest) ->
  exists pre post,
    its = (pre ++ it :: post)%list /\ rest = (pre ++ post)%list
    /\ name it = Str nm
    /\ Forall (fun x => strictEq (name x) nm = false) pre.
Proof.
  revert rest. induction its as [|x its IH]; intros rest; simpl; [discriminate|].
  destruct (strictEq (name x) nm) eqn:Hx.
  - intros [= -> <-]. exists [], its. repeat split; try constructor.
    unfold strictEq in Hx. destruct (name it) as [| |s]; try discriminate.
    apply String.eqb_eq in Hx. now subst.
  - destruct (main.pop nm its) as [res rest'] eqn:Hpop. intros [= -> <-].
    destruct (IH rest' eq_refl) as (pre & post & -> & -> & Hname & Hpre).
    exists (x :: pre), post. repeat split; try assumption. now constructor.
Qed.

Lemma pop_none_absent (nm : string) (its : list item) :
  fst (main.pop nm its) = None -> hasName nm its = false.
Proof.
  induction its as [|x its IH]; simpl; [reflexivity|].
  destruct (strictEq (name x) nm); [discriminate|].
  destruct (main.pop nm its) as [res rest']. simpl in *. exact IH.
Qed.

Lemma pop_absent_none (nm : string) (its : list item) :
  hasName nm its = false -> main.pop nm its = (None, its).
Proof.
  intros H. apply pop_none. apply Forall_forall. intros x Hx.
  unfold hasName in H.
  destruct (strictEq (name x) nm) eqn:Hn; [|reflexivity].
  assert (existsb (fun it => strictEq (name it) nm) its = true)
    by (apply existsb_exists; now exists x).
  congruence.
Qed.

(** X1: [main.pop] finds a record exactly when the list splits around a
    first record of that name; it returns that record and the list
    without it, the other records in their order. *)
Theorem pop_first_match (nm : string) (its rest : list item) (it : item) :
  main.pop nm its = (Some it, rest)
  <-> exists pre post,
        its = (pre ++ it :: post)%list /\ rest = (pre ++ post)%list
        /\ name it = Str nm
        /\ Forall (fun x => strictEq (name x) nm = false) pre.
Proof.
  split.
  - apply pop_found_split.
  - intros (pre & post & -> & -> & Hname & Hpre).
    apply pop_app_found; [assumption|].
    rewrite Hname. simpl. apply String.eqb_refl.
Qed.

(** X2: when no record has the name, [main.pop] returns [undefined] and
    leaves the list as it is; and it returns [undefined] only then. *)
Theorem pop_missing (nm : string) (its : list item) :
  (fst (main.pop nm its) = None <-> hasName nm its = false)
  /\ (hasName nm its = false -> main.pop nm its = (None, its)).
Proof.
  split; [split|].
  - apply pop_none_absent.
  - intros H. now rewrite (pop_absent_none _ _ H).
  - apply pop_absent_none.
Qed.

(** ** One turn of [parseItems], case by case *)

Section Turns.

(** A turn changes neither [className] nor [showUnattainable].  It throws
    at once and changes nothing, or it does the lookup and then either
    throws in the status block, after the lookup removed what it found,
    or gets to the end: it logs the node when marked, and pushes the
    record when [kept]. *)
Lemma parseItem_cases (st : state) (itemData : itemNode) :
  let st' := finalState (parser.parseItem st itemData) in
  className st' = className st
  /\ showUnattainable st' = showUnattainable st
  /\ ((st' = st /\ returns (parser.parseItem st itemData) = false)
      \/ exists ti attrs lr rest,
           typeInfo itemData = Some ti /\ attributes itemData = Some attrs
           /\ parser.popOther (getAttribute (nameAttr itemData)) (items st) = (lr, rest)
           /\ ((items st' = rest /\ debugLog st' = debugLog st
                /\ returns (parser.parseItem st itemData) = false)
               \/ exists sp,
                    returns (parser.parseItem st itemData) = true
                    /\ debugLog st'
                       = (if unattainable itemData
                          then (debugLog st
                                ++ [("Unattainable: "
                                     ++ ToString (l_name (turnLiteral itemData ti attrs lr)))%string])%list
                          else debugLog st)
                    /\ items st'
                       = (if kept st itemData
                          then rest ++ [parser.finish (turnLiteral itemData ti attrs lr) sp]
                          else rest)%list)).
Proof.
  unfold parser.parseItem.
  destruct (typeInfo itemData) as [ti|]; [|simpl; auto].
  destruct (attributes itemData) as [attrs|]; [|simpl; auto].
  unfold parser.derive. simpl l_name.
  destruct (parser.popOther (getAttribute (nameAttr itemData)) (items st))
    as [lr rest] eqn:Hpop.
  fold (turnLiteral itemData ti attrs lr).
  destruct (parser.specialTraits (className st) attrs (susceptibility itemData)
              (turnLiteral itemData ti attrs lr)) as [sp|]; simpl option_map; cbv iota.
  - assert (Hk : kept st itemData = negb (unattainable itemData) || showUnattainable st)
      by reflexivity.
    destruct (unattainable itemData) eqn:Hu; simpl in Hk.
    + destruct (showUnattainable st) eqn:Hs; simpl; rewrite ?Hs, Hk;
        (split; [reflexivity|]; split; [auto|]; right;
         exists ti, attrs, lr, rest; repeat split; right; exists sp; auto).
    + simpl. rewrite Hk.
      split; [reflexivity|]. split; [reflexivity|]. right.
      exists ti, attrs, lr, rest. repeat split. right. exists sp. auto.
  - simpl. split; [reflexivity|]. split; [reflexivity|]. right.
    exists ti, attrs, lr, rest. repeat split. left. auto.
Qed.

(** What the lookup returns: nothing, with the list as it was, or the
    first record named like the other half, with the list without it. *)
Lemma popOther_cases (nm : option string) (its rest : list item) (lr : option item) :
  parser.popOther (getAttribute nm) its = (lr, rest) ->
  (lr = None /\ rest = its
   /\ (nm = Some "l hand sword" -> hasName "r hand sword" its = false)
   /\ (nm = Some "r hand sword" -> hasName "l hand sword" its = false))
  \/ exists l pre post,
       lr = Some l /\ its = (pre ++ l :: post)%list /\ rest = (pre ++ post)%list
       /\ ((nm = Some "l hand sword" /\ name l = Str "r hand sword")
           \/ (nm = Some "r hand sword" /\ name l = Str "l hand sword")).
Proof.
  intros Hpop. destruct lr as [l|].
  - right. pose proof (popOther_found _ _ _ _ Hpop) as Hnames.
    assert (Hsplit : exists pre post, its = (pre ++ l :: post)%list
                                      /\ rest = (pre ++ post)%list).
    { unfold parser.popOther in Hpop.
      destruct (strictEq (getAttribute nm) "l hand sword");
        [|destruct (strictEq (getAttribute nm) "r hand sword"); [|discriminate]];
        apply pop_found_split in Hpop;
        destruct Hpop as (pre & post & H1 & H2 & _); now exists pre, post. }
    destruct Hsplit as (pre & post & H1 & H2). now exists l, pre, post.
  - left. unfold parser.popOther in Hpop.
    assert (Hnone : forall n, fst (main.pop n its) = None -> hasName n its = false)
      by (intros n; apply pop_none_absent).
    destruct nm as [s|]; simpl in Hpop.
    + destruct (String.eqb_spec s "l hand sword") as [-> | Hl].
      * pose proof (Hnone "r hand sword") as Hr. rewrite Hpop in Hr.
        specialize (Hr eq_refl).
        rewrite (pop_absent_none _ _ Hr) in Hpop. injection Hpop as <-.
        repeat split; [auto | discriminate].
      * destruct (String.eqb_spec s "r hand sword") as [-> | Hr].
        -- pose proof (Hnone "l hand sword") as Hl'. rewrite Hpop in Hl'.
           specialize (Hl' eq_refl).
           rewrite (pop_absent_none _ _ Hl') in Hpop. injection Hpop as <-.
           repeat split; [discriminate | auto].
        -- injection Hpop as <-. repeat split; congruence.
    + injection Hpop as <-. repeat split; discriminate.
Qed.

End Turns.

(** ** The collection along a run *)

Section Runs.

Lemma prefix_append (p x : string) : prefix p (p ++ x) = true.
Proof.
  induction p as [|c p IH]; simpl; [destruct x; reflexivity|].
  destruct (ascii_dec c c); [exact IH | congruence].
Qed.

Lemma hasName_app (nm : string) (a b : list item) :
  hasName nm (a ++ b) = hasName nm a || hasName nm b.
Proof. apply existsb_app. Qed.

(** X3: whatever the document, and whether or not it throws,
    [parseItems] leaves [main.className] and [main.showUnattainable] as
    they were, and only appends to the debug log, lines that start with
    "Unattainable: ", at most one per marked node, and exactly one per
    marked node when it returns, shown or not. *)
Theorem parseItems_frame (content : list itemNode) (st : state) :
  let out := parser.parseItems st content in
  className (finalState out) = className st
  /\ showUnattainable (finalState out) = showUnattainable st
  /\ exists lines,
       debugLog (finalState out) = (debugLog st ++ lines)%list
       /\ Forall (fun l => prefix "Unattainable: " l = true) lines
       /\ (List.length lines <= markedCount content)%nat
       /\ (returns out = true -> List.length lines = markedCount content).
Proof.
  revert st. induction content as [|itemData content IH]; intros st; simpl.
  - repeat split. exists []. rewrite app_nil_r. repeat split; auto.
  - destruct (parseItem_cases st itemData) as (Hc & Hs & Hcases).
    assert (Hlog : exists lines,
               debugLog (finalState (parser.parseItem st itemData))
               = (debugLog st ++ lines)%list
               /\ Forall (fun l => prefix "Unattainable: " l = true) lines
               /\ (List.length lines <= if unattainable itemData then 1 else 0)%nat
               /\ (returns (parser.parseItem st itemData) = true ->
                   List.length lines = if unattainable itemData then 1 else 0)%nat).
    { destruct Hcases as [[Heq Hret] | (ti & attrs & lr & rest & _ & _ & _ & Hend)].
      - exists []. rewrite Heq, app_nil_r, Hret. repeat split; auto.
        + destruct (unattainable itemData); auto.
        + discriminate.
      - destruct Hend as [(_ & Hl & Hret) | (sp & Hret & Hl & _)].
        + exists []. rewrite Hl, app_nil_r, Hret. repeat split; auto.
          * destruct (unattainable itemData); auto.
          * discriminate.
        + rewrite Hl. destruct (unattainable itemData).
          * eexists. split; [reflexivity|].
            split; [constructor; [apply prefix_append | constructor]|]. split; auto.
          * exists []. rewrite app_nil_r. repeat split; auto. }
    destruct Hlog as (lines1 & Hl1 & Hp1 & Hle1 & Heq1).
    unfold markedCount. simpl filter.
    destruct (parser.parseItem st itemData) as [st1 | st1]; simpl in *.
    + destruct (IH st1) as (Hc2 & Hs2 & lines2 & Hl2 & Hp2 & Hle2 & Heq2).
      split; [congruence|]. split; [congruence|].
      exists (lines1 ++ lines2)%list.
      split; [rewrite Hl2, Hl1; symmetry; apply app_assoc|].
      split; [apply Forall_app; auto|].
      rewrite length_app. specialize (Heq1 eq_refl). unfold markedCount in *.
      destruct (unattainable itemData); simpl; split; intros; try specialize (Heq2 H); lia.
    + split; [assumption|]. split; [assumption|].
      exists lines1. split; [assumption|]. split; [assumption|].
      split; [|discriminate].
      destruct (unattainable itemData); simpl; lia.
Qed.

(** X4: if the collection does not hold both a record named
    "l hand sword" and one named "r hand sword", it never will, whatever
    is processed: an arriving half always takes a waiting other half
    along. *)
Theorem halves_never_both (content : list itemNode) (st : state) :
  halvesApart (items st) ->
  halvesApart (items (finalState (parser.parseItems st content))).
Proof.
  revert st. induction content as [|itemData content IH]; intros st Hst; [exact Hst|].
  simpl.
  assert (Hstep : halvesApart (items (finalState (parser.parseItem st itemData)))).
  { destruct (parseItem_cases st itemData) as (_ & _ & Hcases).
    destruct Hcases as [[-> _] | (ti & attrs & lr & rest & _ & _ & Hpop & Hend)];
      [exact Hst|].
    unfold halvesApart in *.
    destruct (popOther_cases _ _ _ _ Hpop)
      as [(-> & -> & Hl & Hr) | (l & pre & post & -> & Hits & -> & Hnames)].
    - (* nothing found: the list is as it was *)
      destruct Hend as [(-> & _) | (sp & _ & _ & ->)]; [exact Hst|].
      destruct (kept st itemData); [|exact Hst].
      rewrite !hasName_app. simpl hasName. rewrite !orb_false_r.
      unfold turnLiteral. simpl name.
      destruct (nameAttr itemData) as [s|]; simpl getAttribute; simpl strictEq.
      + destruct (String.eqb_spec s "l hand sword") as [-> | Hnl].
        * rewrite (Hl eq_refl). simpl. apply andb_false_r.
        * destruct (String.eqb_spec s "r hand sword") as [-> | Hnr].
          -- rewrite (Hr eq_refl). reflexivity.
          -- rewrite !orb_false_r. exact Hst.
      + rewrite !orb_false_r. exact Hst.
    - (* the other half found: no record of the current half's name *)
      rewrite Hits, !hasName_app in Hst. simpl hasName in Hst.
      assert (Hrest : hasName "l hand sword" (pre ++ post)
                      && hasName "r hand sword" (pre ++ post) = false).
      { rewrite !hasName_app.
        destruct Hnames as [[_ Hn] | [_ Hn]]; rewrite Hn in Hst; simpl in Hst;
          destruct (hasName "l hand sword" pre), (hasName "l hand sword" post),
            (hasName "r hand sword" pre), (hasName "r hand sword" post);
          simpl in *; congruence. }
      destruct Hend as [(-> & _) | (sp & _ & _ & ->)]; [exact Hrest|].
      destruct (kept st itemData); [|exact Hrest].
      rewrite !hasName_app with (b := [_]). simpl hasName.
      rewrite !orb_false_r. exact Hrest. }
  destruct (parser.parseItem st itemData) as [st1 | st1]; simpl in *.
  - now apply IH.
  - exact Hstep.
Qed.

Lemma halves_never_both_witness :
  halvesApart
    (items (finalState
       (parser.parseItems (bareState "swords")
          [swordNode "l hand sword" [] false; swordNode "l hand sword" [] false;
           swordNode "r hand sword" [] false; swordNode "r hand sword" [] true;
           swordNode "r hand sword" [] false]))).
Proof. apply halves_never_both. reflexivity. Defined.

(** X5: the collection grows by at most one record per node that is not
    hidden, that is, without an [unattainable] marker or with
    [showUnattainable] set; and a turn takes at most one record away. *)
Theorem collection_growth (content : list itemNode) (st : state) :
  let st' := finalState (parser.parseItems st content) in
  (List.length (items st') <= List.length (items st) + keptCount st content)%nat
  /\ (List.length (items st) <= List.length (items st') + List.length content)%nat.
Proof.
  revert st. induction content as [|itemData content IH]; intros st; simpl.
  - unfold keptCount. simpl. lia.
  - destruct (parseItem_cases st itemData) as (_ & Hs & Hcases).
    assert (Hstep :
      (List.length (items (finalState (parser.parseItem st itemData)))
       <= List.length (items st) + if kept st itemData then 1 else 0)%nat
      /\ (List.length (items st)
          <= S (List.length (items (finalState (parser.parseItem st itemData)))))%nat).
    { destruct Hcases as [[-> _] | (ti & attrs & lr & rest & _ & _ & Hpop & Hend)];
        [lia|].
      assert (Hrest : (List.length rest <= List.length (items st)
                       /\ List.length (items st) <= S (List.length rest))%nat).
      { destruct (popOther_cases _ _ _ _ Hpop)
          as [(_ & -> & _) | (l & pre & post & _ & -> & -> & _)].
        - lia.
        - rewrite !length_app. simpl. lia. }
      destruct Hend as [(-> & _) | (sp & _ & _ & ->)];
        destruct (kept st itemData); rewrite ?length_app; simpl; lia. }
    assert (Hk : forall st1, showUnattainable st1 = showUnattainable st ->
                 keptCount st1 content = keptCount st content).
    { intros st1 H1. unfold keptCount, kept. now rewrite H1. }
    destruct (parser.parseItem st itemData) as [st1 | st1]; simpl in *.
    + destruct (IH st1) as [Hup Hdown]. rewrite (Hk st1 Hs) in Hup.
      unfold keptCount in *. simpl filter.
      destruct (kept st itemData); simpl; lia.
    + unfold keptCount. simpl filter.
      destruct (kept st itemData); simpl; lia.
Qed.

End Runs.

(** ** The numbers of a record *)

Section Numbers.

Lemma SFeqb_refl (x : spec_float) : x <> S754_nan -> SFeqb x x = true.
Proof.
  destruct x as [s | s | | s m e]; intros Hx; try congruence.
  - reflexivity.
  - destruct s; reflexivity.
  - apply SFeqb_finite. auto.
Qed.

Lemma is_nan_spec (x : float) : is_nan x = false <-> Prim2SF x <> S754_nan.
Proof.
  unfold is_nan. rewrite eqb_spec. split.
  - intros H Hn. rewrite Hn in H. discriminate.
  - intros H. now rewrite (SFeqb_refl _ H).
Qed.

(** A finite number is a zero or has a mantissa and an exponent. *)
Lemma is_finite_spec (x : float) :
  is_finite x = true ->
  (exists s, Prim2SF x = S754_zero s) \/ (exists s m e, Prim2SF x = S754_finite s m e).
Proof.
  unfold is_finite, is_nan, is_infinity.
  rewrite !eqb_spec, abs_spec.
  change (Prim2SF infinity) with (S754_infinity false).
  destruct (Prim2SF x) as [s | s | | s m e].
  - intros _. left. now exists s.
  - destruct s; discriminate.
  - discriminate.
  - intros _. right. now exists s, m, e.
Qed.

Lemma is_finite_not_nan (x : float) : is_finite x = true -> is_nan x = false.
Proof.
  unfold is_finite. destruct (is_nan x); [discriminate | reflexivity].
Qed.

Local Open Scope Z_scope.

Lemma shr_fexp_nonneg (m e : Z) (l : location) :
  0 <= m -> 0 <= shr_m (fst (shr_fexp prec emax m e l)).
Proof.
  intros Hm. unfold shr_fexp, shr.
  assert (Hrec : shr_m (shr_record_of_loc m l) = m) by (destruct l as [|[]]; reflexivity).
  destruct (fexp prec emax (Zdigits2 m + e) - e) as [|n|n]; simpl fst;
    try (rewrite Hrec; assumption).
  rewrite iter_shr_1_m by (rewrite Hrec; assumption). rewrite Hrec.
  apply Z.div_pos; [assumption | apply Z.pow_pos_nonneg; lia].
Qed.

Lemma binary_round_aux_not_nan (sx : bool) (mx ex : Z) (lx : location) :
  0 <= mx -> binary_round_aux prec emax sx mx ex lx <> S754_nan.
Proof.
  intros Hm. unfold binary_round_aux.
  pose proof (shr_fexp_nonneg mx ex lx Hm) as H1.
  destruct (shr_fexp prec emax mx ex lx) as [mrs1 e1]. simpl fst in H1.
  assert (Hr : 0 <= round_nearest_even (shr_m mrs1) (loc_of_shr_record mrs1)).
  { destruct (loc_of_shr_record mrs1) as [|[]]; simpl; try lia.
    destruct (Z.even (shr_m mrs1)); lia. }
  pose proof (shr_fexp_nonneg _ e1 loc_Exact Hr) as H2.
  destruct (shr_fexp prec emax _ e1 loc_Exact) as [mrs2 e2]. simpl fst in H2.
  destruct (shr_m mrs2) as [|q|q]; try lia; try discriminate.
  destruct (e2 <=? emax - prec); discriminate.
Qed.

Lemma binary_normalize_not_nan (z e : Z) :
  binary_normalize prec emax z e false <> S754_nan.
Proof.
  destruct z as [|p|p]; simpl; [discriminate| |];
    unfold binary_round; destruct (shl_align _ _ _) as [mz ez];
    apply binary_round_aux_not_nan; lia.
Qed.

Local Close Scope Z_scope.

(** The sum of two finite numbers is a number: it can overflow to an
    infinity, it is never [NaN]. *)
Lemma add_finite_not_nan (a b : float) :
  is_finite a = true -> is_finite b = true -> is_nan (a + b) = false.
Proof.
  intros Ha Hb. apply is_nan_spec. rewrite add_spec.
  destruct (is_finite_spec a Ha) as [[sa ->] | (sa & ma & ea & ->)];
    destruct (is_finite_spec b Hb) as [[sb ->] | (sb & mb & eb & ->)];
    unfold SF64add, SFadd.
  - destruct sa, sb; discriminate.
  - discriminate.
  - discriminate.
  - apply binary_normalize_not_nan.
Qed.

Lemma parseNumberDefault_finite (v : jsval) (d : JS.number) :
  is_finite d = true -> is_finite (util.parseNumberDefault v d) = true.
Proof.
  intros Hd. unfold util.parseNumberDefault.
  destruct (is_nan (JS.parseFloat (ToString v))
            || negb (is_finite (JS.parseFloat (ToString v)))) eqn:Hc; [exact Hd|].
  apply orb_false_iff in Hc. destruct Hc as [_ Hc].
  now apply negb_false_iff in Hc.
Qed.

Lemma numberAttribute_finite (attrs : list element) (nm : string) :
  is_finite (parser.numberAttribute attrs nm 0) = true.
Proof.
  unfold parser.numberAttribute.
  destruct (parser.firstByTagName attrs nm); [|reflexivity].
  now apply parseNumberDefault_finite.
Qed.

Lemma statsOk_newItem (itemData : itemNode) (ti : typeNode) (attrs : list element)
    (sp : list jsval) :
  statsOk (parser.finish (parser.newItem itemData ti attrs) sp).
Proof.
  unfold statsOk. simpl.
  repeat split; try apply numberAttribute_finite;
    apply is_finite_not_nan, numberAttribute_finite.
Qed.

Lemma statsOk_merged (l : item) (itemData : itemNode) (ti : typeNode)
    (attrs : list element) (sp : list jsval) :
  statsOk l ->
  strictEq (name l) "l hand sword" || strictEq (name l) "r hand sword" = true ->
  statsOk (parser.finish (parser.mergeSwords l (parser.newItem itemData ti attrs)) sp).
Proof.
  intros (Hlevel & Hrate & Hrange & _ & _ & Hhalf) Hname.
  destruct (Hhalf Hname) as [Hatk Hdef].
  unfold statsOk. simpl.
  repeat split; try assumption; try discriminate;
    apply add_finite_not_nan; try assumption; apply numberAttribute_finite.
Qed.

(** X6: along any run, every record of the collection has a finite
    [level], [rate] and [range], and an [atk] and a [def] that are never
    [NaN]: what does not parse became the default 0, and the only
    arithmetic on them, the sum of the merge, adds two finite numbers. *)
Theorem stats_are_numbers (content : list itemNode) (st : state) :
  Forall statsOk (items st) ->
  Forall statsOk (items (finalState (parser.parseItems st content))).
Proof.
  revert st. induction content as [|itemData content IH]; intros st Hst; [exact Hst|].
  simpl.
  assert (Hstep : Forall statsOk (items (finalState (parser.parseItem st itemData)))).
  { destruct (parseItem_cases st itemData) as (_ & _ & Hcases).
    destruct Hcases as [[-> _] | (ti & attrs & lr & rest & _ & _ & Hpop & Hend)];
      [exact Hst|].
    pose proof (popOther_Forall statsOk (getAttribute (nameAttr itemData)) _ Hst) as Hrest.
    rewrite Hpop in Hrest. simpl in Hrest.
    destruct Hend as [(-> & _) | (sp & _ & _ & ->)]; [exact Hrest|].
    destruct (kept st itemData); [|exact Hrest].
    apply Forall_app. split; [exact Hrest|]. constructor; [|constructor].
    destruct (popOther_cases _ _ _ _ Hpop)
      as [(-> & _) | (l & pre & post & -> & Hits & _ & Hnames)]; simpl turnLiteral.
    - apply statsOk_newItem.
    - apply statsOk_merged.
      + rewrite Hits in Hst. apply Forall_app in Hst. destruct Hst as [_ Hst].
        now inversion Hst.
      + destruct Hnames as [[_ ->] | [_ ->]]; reflexivity. }
  destruct (parser.parseItem st itemData) as [st1 | st1]; simpl in *.
  - now apply IH.
  - exact Hstep.
Qed.

Lemma stats_are_numbers_witness :
  Forall statsOk
    (items (finalState
       (parser.parseItems (bareState "swords")
          [swordNode "l hand sword" [attr "atk" "1e308"; attr "rate" "fast"] false;
           swordNode "r hand sword" [attr "atk" "1e308"; attr "def" "Infinity"] false]))).
Proof. apply stats_are_numbers. constructor. Defined.

End Numbers.

(** ** The [unattainable] marker when it is shown *)

Section Markers.

Lemma parseItem_unmark (st1 st2 : state) (itemData : itemNode) :
  sameCollection st1 st2 -> showUnattainable st1 = true ->
  returns (parser.parseItem st1 itemData)
  = returns (parser.parseItem st2 (unmark itemData))
  /\ sameCollection (finalState (parser.parseItem st1 itemData))
       (finalState (parser.parseItem st2 (unmark itemData))).
Proof.
  intros (Hc & Hi & Hs) Hshow.
  unfold parser.parseItem. simpl typeInfo. simpl attributes.
  destruct (typeInfo itemData) as [ti|]; [|simpl; repeat split; assumption].
  destruct (attributes itemData) as [attrs|]; [|simpl; repeat split; assumption].
  unfold parser.derive.
  change (parser.newItem (unmark itemData) ti attrs)
    with (parser.newItem itemData ti attrs).
  simpl susceptibility. simpl unattainable. rewrite <- Hi, <- Hc.
  destruct (parser.popOther _ (items st1)) as [lr rest].
  destruct (parser.specialTraits _ _ _ _) as [sp|]; simpl option_map; cbv iota.
  - destruct (unattainable itemData); simpl; rewrite ?Hshow; simpl;
      repeat split; assumption.
  - simpl. repeat split; assumption.
Qed.

(** X7: when [showUnattainable] is set, the [unattainable] markers make
    no difference to the collection: the run returns or throws alike, and
    with the same records, on the document without its markers. *)
Theorem markers_irrelevant_when_shown (content : list itemNode) (st : state) :
  showUnattainable st = true ->
  returns (parser.parseItems st content)
  = returns (parser.parseItems st (map unmark content))
  /\ items (finalState (parser.parseItems st content))
     = items (finalState (parser.parseItems st (map unmark content))).
Proof.
  intros Hshow.
  assert (Hgen : forall st1 st2, sameCollection st1 st2 -> showUnattainable st1 = true ->
            returns (parser.parseItems st1 content)
            = returns (parser.parseItems st2 (map unmark content))
            /\ sameCollection (finalState (parser.parseItems st1 content))
                 (finalState (parser.parseItems st2 (map unmark content)))).
  { clear st Hshow. induction content as [|itemData content IH]; intros st1 st2 Hsame Hshow.
    - simpl. auto.
    - simpl. destruct (parseItem_unmark st1 st2 itemData Hsame Hshow) as [Hret Hnext].
      destruct (parseItem_cases st1 itemData) as (_ & Hs1 & _).
      destruct (parser.parseItem st1 itemData) as [a | a];
        destruct (parser.parseItem st2 (unmark itemData)) as [b | b];
        simpl in *; try discriminate.
      + apply IH; [assumption | congruence].
      + auto. }
  destruct (Hgen st st (conj eq_refl (conj eq_refl eq_refl)) Hshow) as [Hret (_ & Hit & _)].
  auto.
Qed.

Lemma markers_irrelevant_when_shown_witness :
  let st := {| className := "swords"; items := []; showUnattainable := true;
               debugLog := [] |} in
  let content := [swordNode "l hand sword" [attr "atk" "5"] true;
                  swordNode "r hand sword" [attr "atk" "7"] true] in
  items (finalState (parser.parseItems st content))
  = items (finalState (parser.parseItems st (map unmark content))).
Proof.
  intros st content.
  exact (proj2 (markers_irrelevant_when_shown content st eq_refl)).
Defined.

End Markers.

(** ** [util.normalize] *)

Section Normalize.

Lemma prefix_char (x c : ascii) (r : string) :
  prefix (String x "") (String c r) = (c =? x)%char.
Proof.
  change (prefix (String x "") (String c r))
    with (if ascii_dec x c then prefix "" r else false).
  destruct (ascii_dec x c) as [Heq | Hne].
  - subst c. rewrite Ascii.eqb_refl. destruct r; reflexivity.
  - symmetry. apply Ascii.eqb_neq. congruence.
Qed.

Lemma includes_char_cons (x c : ascii) (r : string) :
  includes (String c r) (String x "") = (c =? x)%char || includes r (String x "").
Proof.
  change (includes (String c r) (String x ""))
    with (prefix (String x "") (String c r) || includes r (String x "")).
  now rewrite prefix_char.
Qed.

(** Replacing every [x] by another character leaves no [x]. *)
Lemma replaceAll_char_gone (x y : ascii) (s : string) :
  x <> y ->
  forall skip,
    includes (replaceAllFrom (String x "") (String y "") skip s) (String x "") = false.
Proof.
  intros Hxy. induction s as [|c r IH]; intros skip; [reflexivity|].
  destruct skip as [|k]; [|apply IH].
  change (replaceAllFrom (String x "") (String y "") 0 (String c r))
    with (if prefix (String x "") (String c r)
          then String y (replaceAllFrom (String x "") (String y "") 0 r)
          else String c (replaceAllFrom (String x "") (String y "") 0 r)).
  rewrite prefix_char. destruct (c =? x)%char eqn:Hc.
  - rewrite includes_char_cons, IH.
    rewrite orb_false_r. apply Ascii.eqb_neq. congruence.
  - rewrite includes_char_cons, Hc, IH. reflexivity.
Qed.

(** A text without the first character of the pattern has no match. *)
Lemma replaceAll_no_match (x : ascii) (p rep s : string) :
  includes s (String x "") = false ->
  replaceAllFrom (String x p) rep 0 s = s.
Proof.
  induction s as [|c r IH]; [reflexivity|].
  rewrite includes_char_cons, orb_false_iff. intros [Hc Hr].
  change (replaceAllFrom (String x p) rep 0 (String c r))
    with (if (if ascii_dec x c then prefix p r else false)
          then rep ++ replaceAllFrom (String x p) rep (String.length (String x p) - 1) r
          else String c (replaceAllFrom (String x p) rep 0 r)).
  destruct (ascii_dec x c) as [Heq | Hne].
  - subst c. rewrite Ascii.eqb_refl in Hc. discriminate.
  - now rewrite (IH Hr).
Qed.

(** X8: the text [util.normalize] returns has no carriage return left; a
    text without carriage return is returned as it is; so normalizing
    twice is normalizing once. *)
Theorem normalize_line_endings (content : string) :
  includes (util.normalize content) CR = false
  /\ (includes content CR = false -> util.normalize content = content)
  /\ util.normalize (util.normalize content) = util.normalize content.
Proof.
  assert (Hgone : forall s, includes (util.normalize s) CR = false).
  { intros s. unfold util.normalize, replaceAll. apply replaceAll_char_gone. discriminate. }
  assert (Hid : forall s, includes s CR = false -> util.normalize s = s).
  { intros s Hs. unfold util.normalize, replaceAll.
    change (CR ++ LF) with (String "013" LF). unfold CR in *.
    rewrite (replaceAll_no_match _ _ _ _ Hs). now apply replaceAll_no_match. }
  split; [apply Hgone|]. split; [apply Hid|]. apply Hid, Hgone.
Qed.

End Normalize.

(** ** [parser.parseVersion] and [main.updateBranch] *)

Section Version.

Lemma split_char_free (x : ascii) (b : string) :
  includes b (String x "") = false -> split x b = [b].
Proof.
  induction b as [|c r IH]; [reflexivity|].
  rewrite includes_char_cons, orb_false_iff. intros [Hc Hr].
  simpl. rewrite Hc, (IH Hr). reflexivity.
Qed.

Lemma split_char_first (x : ascii) (a r : string) :
  includes a (String x "") = false ->
  split x (a ++ String x r) = a :: split x r.
Proof.
  induction a as [|c a IH]; [simpl; now rewrite Ascii.eqb_refl|].
  rewrite includes_char_cons, orb_false_iff. intros [Hc Ha].
  simpl. rewrite Hc, (IH Ha). reflexivity.
Qed.

Lemma append_assoc (a b c : string) : ((a ++ b) ++ c = a ++ (b ++ c))%string.
Proof. induction a as [|x a IH]; simpl; [reflexivity | now rewrite IH]. Qed.

Lemma find_first {A : Type} (f : A -> bool) (before after : list A) (x : A) :
  Forall (fun y => f y = false) before -> f x = true ->
  find f (before ++ x :: after) = Some x.
Proof.
  induction 1 as [|y l Hy _ IH]; intros Hx; simpl.
  - now rewrite Hx.
  - rewrite Hy. now apply IH.
Qed.

Lemma find_nowhere {A : Type} (f : A -> bool) (l : list A) :
  Forall (fun y => f y = false) l -> find f l = None.
Proof.
  induction 1 as [|y l Hy _ IH]; simpl; [reflexivity|]. now rewrite Hy.
Qed.

Lemma versionLine_first (content li : string) :
  firstVersionLine content li -> parser.versionLine content = Some li.
Proof.
  intros (before & after & Hsplit & Hbefore & Hli).
  unfold parser.versionLine. rewrite Hsplit. now apply find_first.
Qed.

Lemma smallZ_In (n : Z) : (0 <= n < 1000)%Z -> In n smallZ.
Proof.
  intros Hn. unfold smallZ. rewrite <- (Z2Nat.id n) by lia.
  apply in_map, in_seq. lia.
Qed.

Lemma small_toString (n : Z) :
  (0 <= n < 1000)%Z -> JS.toString (numberOfZ n) = JS.natString n.
Proof.
  intros Hn.
  assert (Hall : forallb (fun n => (JS.toString (numberOfZ n) =? JS.natString n)%string)
                         smallZ = true) by (vm_compute; reflexivity).
  rewrite forallb_forall in Hall. apply String.eqb_eq, Hall, smallZ_In, Hn.
Qed.

(** Equality of the numbers, sign and payload included. *)
Lemma Prim2SF_eq (x y : float) : Prim2SF x = Prim2SF y -> x = y.
Proof.
  intros H. rewrite <- (SF2Prim_Prim2SF x), <- (SF2Prim_Prim2SF y). now rewrite H.
Qed.

Lemma small_parseInt (n : Z) :
  (0 <= n < 1000)%Z -> JS.parseInt (JS.natString n) = numberOfZ n.
Proof.
  intros Hn.
  assert (Hall : forallb (fun n =>
                    match Prim2SF (JS.parseInt (JS.natString n)),
                          Prim2SF (numberOfZ n) with
                    | S754_zero a, S754_zero b => Bool.eqb a b
                    | S754_finite a m e, S754_finite b m' e' =>
                        Bool.eqb a b && Pos.eqb m m' && Z.eqb e e'
                    | _, _ => false
                    end)
                  smallZ = true) by (vm_compute; reflexivity).
  rewrite forallb_forall in Hall. specialize (Hall n (smallZ_In n Hn)).
  apply Prim2SF_eq.
  destruct (Prim2SF (JS.parseInt (JS.natString n))) as [a| | |a m e];
    destruct (Prim2SF (numberOfZ n)) as [b| | |b m' e']; try discriminate.
  - apply Bool.eqb_prop in Hall. now subst.
  - apply andb_prop in Hall. destruct Hall as [Hall He].
    apply andb_prop in Hall. destruct Hall as [Hs Hm].
    apply Bool.eqb_prop in Hs. apply Pos.eqb_eq in Hm. apply Z.eqb_eq in He.
    now subst.
Qed.

Lemma small_slice (n : Z) :
  (0 <= n < 1000)%Z ->
  sliceLast2 ("0" ++ JS.toString (numberOfZ n)) = JS.digits 2 (n mod 100) "".
Proof.
  intros Hn.
  assert (Hall : forallb (fun n => (sliceLast2 ("0" ++ JS.toString (numberOfZ n))
                                    =? JS.digits 2 (n mod 100) "")%string)
                         smallZ = true) by (vm_compute; reflexivity).
  rewrite forallb_forall in Hall. apply String.eqb_eq, Hall, smallZ_In, Hn.
Qed.

Lemma showVersion_version (pg : page) :
  version (parser.showVersion pg) = version pg.
Proof.
  unfold parser.showVersion, main.updateBranch.
  destruct (version pg) as [|major rest] eqn:Hv.
  - rewrite Hv. exact Hv.
  - cbn [version withTitle]. rewrite Hv. cbn [version withBranch withTitle].
    exact Hv.
Qed.

(** X9: on a text none of whose lines starts with "version.old",
    [parseVersion] returns with [main.version] as it was; when no version
    was known before, the whole page is as it was. *)
Theorem parseVersion_without_version_line (content : string) (pg : page) :
  noVersionLine content ->
  exists pg',
    parser.parseVersion content pg = Done pg'
    /\ version pg' = version pg
    /\ (version pg = [] -> pg' = pg).
Proof.
  intros Hno. unfold parser.parseVersion.
  rewrite (find_nowhere _ _ Hno : parser.versionLine content = None).
  eexists. split; [reflexivity|]. split; [apply showVersion_version|].
  intros Hv. unfold parser.showVersion, main.updateBranch.
  rewrite Hv, Hv. reflexivity.
Qed.

Lemma parseVersion_without_version_line_witness :
  exists pg',
    parser.parseVersion ("version = 1.48" ++ LF ++ "# version.old = 1.47") blankPage
    = Done pg'
    /\ version pg' = []
    /\ pg' = blankPage.
Proof.
  destruct (parseVersion_without_version_line
              ("version = 1.48" ++ LF ++ "# version.old = 1.47") blankPage)
    as (pg' & Hrun & Hv & Hsame).
  - unfold noVersionLine. vm_compute. repeat constructor.
  - exists pg'. split; [exact Hrun|]. split; [exact Hv|]. exact (Hsame eq_refl).
Defined.

(** X10: when the first version line has no equals sign, [parseVersion]
    throws before anything is pushed or shown: the page is as it was. *)
Theorem parseVersion_without_equals (content li : string) (pg : page) :
  firstVersionLine content li ->
  includes li "=" = false ->
  parser.parseVersion content pg = Raised pg.
Proof.
  intros Hfirst Hno. unfold parser.parseVersion.
  rewrite (versionLine_first _ _ Hfirst), (split_char_free "=" li Hno).
  reflexivity.
Qed.

Lemma parseVersion_without_equals_witness :
  parser.parseVersion ("# release" ++ LF ++ "version.old 1.47" ++ CR ++ LF) blankPage
  = Raised blankPage.
Proof.
  apply (parseVersion_without_equals _ "version.old 1.47").
  - exists ["# release"%string], [""%string]. vm_compute. repeat constructor.
  - vm_compute. reflexivity.
Defined.

(** X11: only the first version line counts: two texts with the same
    first version line leave the same page. *)
Theorem parseVersion_first_line_only (content content' li : string) (pg : page) :
  firstVersionLine content li ->
  firstVersionLine content' li ->
  parser.parseVersion content pg = parser.parseVersion content' pg.
Proof.
  intros Hfirst Hfirst'. unfold parser.parseVersion.
  rewrite (versionLine_first _ _ Hfirst), (versionLine_first _ _ Hfirst').
  reflexivity.
Qed.

Lemma parseVersion_first_line_only_witness :
  parser.parseVersion ("version.old = 1.47" ++ LF ++ "version.old = 1.46") blankPage
  = parser.parseVersion ("a = b" ++ CR ++ "version.old = 1.47") blankPage.
Proof.
  apply (parseVersion_first_line_only _ _ "version.old = 1.47").
  - exists [], ["version.old = 1.46"%string]. vm_compute. repeat constructor.
  - exists ["a = b"%string], []. vm_compute. repeat constructor.
Defined.

(** X12: when the first version line is [key=v] and [v], trimmed and cut
    at the dots, is the numerals of [major] and [minor], both below 1000,
    and no version was known before, then [parseVersion] returns with
    these two numbers as the version, with the title
    "Stendhal major.minor Items", and with the branch made of the last
    two digits of [major] and of [minor]. *)
Theorem parseVersion_release (content key v : string) (major minor : Z) (pg : page) :
  firstVersionLine content (key ++ "=" ++ v) ->
  includes key "=" = false ->
  includes v "=" = false ->
  split "." (JS.trim v) = [JS.natString major; JS.natString minor] ->
  (0 <= major < 1000)%Z -> (0 <= minor < 1000)%Z ->
  version pg = [] ->
  exists pg',
    parser.parseVersion content pg = Done pg'
    /\ version pg' = [numberOfZ major; numberOfZ minor]
    /\ title pg' = "Stendhal " ++ JS.natString major ++ "." ++ JS.natString minor
                   ++ " Items"
    /\ branch pg' = "VERSION_" ++ JS.digits 2 (major mod 100) "" ++ "_RELEASE_"
                    ++ JS.natString minor.
Proof.
  intros Hfirst Hkey Hv Hsplit Hmajor Hminor Hnone.
  unfold parser.parseVersion. rewrite (versionLine_first _ _ Hfirst).
  change (key ++ "=" ++ v) with (key ++ String "=" v).
  rewrite (split_char_first "=" key v Hkey), (split_char_free "=" v Hv).
  cbn [nth_error]. rewrite Hsplit, Hnone. cbn [map app].
  rewrite (small_parseInt _ Hmajor), (small_parseInt _ Hminor).
  eexists. split; [reflexivity|].
  unfold parser.showVersion, main.updateBranch.
  cbn [version withVersion withTitle withBranch title branch map join].
  rewrite (small_toString _ Hmajor), (small_toString _ Hminor), <- (small_slice _ Hmajor).
  rewrite (small_toString _ Hmajor).
  split; [reflexivity|]. split; [|reflexivity].
  cbn [append]. now rewrite !append_assoc.
Qed.

Lemma parseVersion_release_witness :
  exists pg',
    parser.parseVersion ("version = 1.48" ++ CR ++ LF ++ "version.old = 101.7 ")
                        blankPage = Done pg'
    /\ version pg' = [numberOfZ 101; numberOfZ 7]
    /\ title pg' = "Stendhal 101.7 Items"
    /\ branch pg' = "VERSION_01_RELEASE_7".
Proof.
  apply (parseVersion_release _ "version.old " " 101.7 " 101 7 blankPage).
  - exists ["version = 1.48"%string], []. vm_compute. repeat constructor.
  - vm_compute. reflexivity.
  - vm_compute. reflexivity.
  - vm_compute. reflexivity.
  - lia.
  - lia.
  - reflexivity.
Defined.

(** X13: [updateBranch] changes nothing but the branch, and nothing at
    all while no version is known.  With a version, the branch starts
    with the last two characters of "0" followed by the major number: of
    a natural number below 1000 its last two digits, of not-a-number
    the two letters "aN".  A version of one number gives the minor part
    "undefined". *)
Theorem updateBranch_slug (pg : page) :
  updateBranch_frame pg
  /\ (version pg = [] -> main.updateBranch pg = pg)
  /\ (forall major rest, (0 <= major < 1000)%Z ->
        version pg = numberOfZ major :: rest ->
        prefix ("VERSION_" ++ JS.digits 2 (major mod 100) "" ++ "_RELEASE_")
               (branch (main.updateBranch pg)) = true)
  /\ (forall rest, version pg = nan :: rest ->
        prefix "VERSION_aN_RELEASE_" (branch (main.updateBranch pg)) = true)
  /\ (forall major, version pg = [major] ->
        branch (main.updateBranch pg)
        = "VERSION_" ++ sliceLast2 ("0" ++ JS.toString major) ++ "_RELEASE_undefined").
Proof.
  unfold updateBranch_frame, main.updateBranch.
  refine (conj _ (conj _ (conj _ (conj _ _)))).
  - destruct (version pg); destruct pg; reflexivity.
  - intros ->. reflexivity.
  - intros major rest Hmajor ->. cbn [branch withBranch].
    rewrite (small_slice _ Hmajor).
    set (d := JS.digits 2 (major mod 100) "").
    match goal with
    | |- prefix _ (_ ++ _ ++ _ ++ ?t) = true =>
        replace ("VERSION_" ++ d ++ "_RELEASE_" ++ t)
          with (("VERSION_" ++ d ++ "_RELEASE_") ++ t)
          by (now rewrite !append_assoc)
    end.
    apply prefix_append.
  - intros rest ->. cbn [branch withBranch].
    change (sliceLast2 ("0" ++ JS.toString nan)) with "aN"%string.
    apply (prefix_append "VERSION_aN_RELEASE_").
  - intros major ->. reflexivity.
Qed.

End Version.

(** ** [parser.parseClasses], [main.selectClass] and [main.updateColumns] *)

Section Classes.

Lemma readClasses_grows (lines : list string) :
  forall avail, exists new,
    parser.readClasses lines avail = (avail ++ new)%list
    /\ Forall notExcluded new.
Proof.
  induction lines as [|li lines IH]; intros avail; cbn [parser.readClasses].
  - exists []. split; [now rewrite app_nil_r | constructor].
  - destruct (prefix parser.groupTag (dropLeadingTab li)); [|apply IH].
    set (c := cutXml (replaceFirst parser.groupTag "" (dropLeadingTab li))).
    destruct (classes.member c classes.excludes) eqn:Hex; [apply IH|].
    destruct (IH (avail ++ [c])%list) as (new & Hrun & Hnew).
    exists (c :: new). split.
    + rewrite Hrun, <- app_assoc. reflexivity.
    + constructor; assumption.
Qed.

Lemma selectClass_frame (nm : string) (pg : page) :
  available (main.selectClass nm pg) = available pg
  /\ options (main.selectClass nm pg) = options pg
  /\ messages (main.selectClass nm pg) = messages pg
  /\ items (core (main.selectClass nm pg)) = items (core pg).
Proof.
  unfold main.selectClass.
  destruct (main.optionIndex nm (options pg) 0); repeat split; reflexivity.
Qed.

Lemma available_parseClasses (content : string) (requested : option string) (pg : page) :
  available (parser.parseClasses content requested pg)
  = parser.readClasses (split "010" (util.normalize content)) (available pg)
  /\ options (parser.parseClasses content requested pg)
     = (options pg ++ offered (parser.parseClasses content requested pg))%list.
Proof.
  unfold parser.parseClasses, offered.
  set (avail := parser.readClasses _ _).
  assert (Hgen : forall nm pg1,
            available pg1 = avail ->
            options pg1 = (options pg ++ classes.getGroupNames ++ avail)%list ->
            available (main.selectClass nm pg1) = avail
            /\ options (main.selectClass nm pg1)
               = (options pg ++ classes.getGroupNames
                  ++ available (main.selectClass nm pg1))%list).
  { intros nm pg1 Ha Ho. destruct (selectClass_frame nm pg1) as (Hav & Hopt & _ & _).
    rewrite Hav, Hopt, Ha. split; [reflexivity | exact Ho]. }
  destruct requested as [c|]; [destruct (classes.member c _)|];
    apply Hgen; reflexivity.
Qed.

(** X14: [parseClasses] only adds to [classes.available], and none of the
    names it adds is an excluded one; the options it adds are the group
    names followed by all available names. *)
Theorem parseClasses_available (content : string) (requested : option string)
    (pg : page) :
  exists new,
    available (parser.parseClasses content requested pg) = (available pg ++ new)%list
    /\ Forall notExcluded new
    /\ options (parser.parseClasses content requested pg)
       = (options pg ++ classes.getGroupNames ++ available pg ++ new)%list.
Proof.
  destruct (available_parseClasses content requested pg) as [Hav Hopt].
  destruct (readClasses_grows (split "010" (util.normalize content)) (available pg))
    as (new & Hrun & Hnew).
  exists new. rewrite Hopt. unfold offered. rewrite Hav, Hrun.
  split; [reflexivity|]. split; [exact Hnew | reflexivity].
Qed.

Lemma optionIndex_found (nm : string) (opts : list string) :
  In nm opts ->
  forall i, exists idx,
    main.optionIndex nm opts i = Some idx
    /\ (i <= idx)%Z
    /\ nth_error opts (Z.to_nat (idx - i)) = Some nm.
Proof.
  induction opts as [|o rest IH]; intros Hin i; [destruct Hin|].
  cbn [main.optionIndex]. destruct (String.eqb_spec o nm) as [Heq|Hne].
  - exists i. rewrite Z.sub_diag, Heq. split; [reflexivity|]. split; [lia | reflexivity].
  - destruct Hin as [Heq|Hin]; [contradiction|].
    destruct (IH Hin (i + 1)%Z) as (idx & Hidx & Hle & Hnth).
    exists idx. split; [exact Hidx|]. split; [lia|].
    replace (Z.to_nat (idx - i)) with (S (Z.to_nat (idx - (i + 1)))) by lia.
    exact Hnth.
Qed.

Lemma selectClass_found (nm : string) (pg : page) :
  In nm (options pg) ->
  className (core (main.selectClass nm pg)) = nm
  /\ (0 <= selectedIndex (main.selectClass nm pg))%Z
  /\ nth_error (options pg) (Z.to_nat (selectedIndex (main.selectClass nm pg)))
     = Some nm.
Proof.
  intros Hin. destruct (optionIndex_found nm (options pg) Hin 0%Z)
    as (idx & Hidx & Hle & Hnth).
  unfold main.selectClass. rewrite Hidx. rewrite Z.sub_0_r in Hnth.
  repeat split; assumption.
Qed.

(** [parseClasses] is [selectClass] of the selection, after the message
    for a parameter that is not offered. *)
Lemma parseClasses_steps (content : string) (requested : option string) (pg : page) :
  exists pg1,
    parser.parseClasses content requested pg
    = main.selectClass (selection requested (offered pg1)) pg1
    /\ options pg1 = (options pg ++ offered pg1)%list
    /\ core pg1 = core pg
    /\ messages pg1
       = (messages pg
          ++ match requested with
             | Some c => if classes.member c (offered pg1) then [] else [unknownClass c]
             | None => []
             end)%list.
Proof.
  cbv beta zeta delta [parser.parseClasses].
  set (avail := parser.readClasses _ _).
  set (pg0 := withOptions (withAvailable pg avail) _).
  assert (Hoff0 : offered pg0 = (classes.getGroupNames ++ avail)%list) by reflexivity.
  destruct requested as [c|].
  - destruct (classes.member c (classes.getGroupNames ++ avail)) eqn:Hc.
    + exists pg0. unfold selection. rewrite Hoff0, Hc.
      split; [reflexivity|]. split; [reflexivity|]. split; [reflexivity|].
      cbn [messages pg0 withOptions withAvailable]. now rewrite app_nil_r.
    + exists (logger.error ("Unknown item class: " ++ c) pg0).
      assert (Hoff1 : offered (logger.error ("Unknown item class: " ++ c) pg0)
                      = (classes.getGroupNames ++ avail)%list) by reflexivity.
      unfold selection. rewrite Hoff1, Hc.
      split; [reflexivity|]. split; [reflexivity|]. split; reflexivity.
  - exists pg0. unfold selection.
    split; [reflexivity|]. split; [reflexivity|]. split; [reflexivity|].
    cbn [messages pg0 withOptions withAvailable]. now rewrite app_nil_r.
Qed.

Lemma selection_offered (requested : option string) (pg : page) :
  In (selection requested (offered pg)) (offered pg).
Proof.
  unfold selection.
  assert (Hw : In "weapons"%string (offered pg)) by (left; reflexivity).
  destruct requested as [c|]; [|exact Hw].
  destruct (classes.member c (offered pg)) eqn:Hc; [|exact Hw].
  now apply member_In.
Qed.

(** X15: after [parseClasses] the selected class is the [class]
    parameter when it is one of the group names or available names, and
    "weapons" otherwise; it is the value of the option the select shows;
    a message is shown exactly for a parameter that is a text and is not
    offered; and the collection is untouched. *)
Theorem parseClasses_selection (content : string) (requested : option string)
    (pg : page) :
  className (core (parser.parseClasses content requested pg))
  = selection requested (offered (parser.parseClasses content requested pg))
  /\ In (className (core (parser.parseClasses content requested pg)))
        (offered (parser.parseClasses content requested pg))
  /\ (0 <= selectedIndex (parser.parseClasses content requested pg))%Z
  /\ nth_error (options (parser.parseClasses content requested pg))
               (Z.to_nat (selectedIndex (parser.parseClasses content requested pg)))
     = Some (className (core (parser.parseClasses content requested pg)))
  /\ messages (parser.parseClasses content requested pg)
     = (messages pg
        ++ match requested with
           | Some c =>
               if classes.member c (offered (parser.parseClasses content requested pg))
               then [] else [unknownClass c]
           | None => []
           end)%list
  /\ items (core (parser.parseClasses content requested pg)) = items (core pg).
Proof.
  destruct (parseClasses_steps content requested pg) as (pg1 & -> & Hopt & Hcore & Hmsg).
  destruct (selectClass_frame (selection requested (offered pg1)) pg1)
    as (Hav & Hopt' & Hmsg' & Hitems).
  assert (Hoff : offered (main.selectClass (selection requested (offered pg1)) pg1)
                 = offered pg1) by exact (f_equal (app classes.getGroupNames) Hav).
  assert (Hin : In (selection requested (offered pg1)) (options pg1)).
  { rewrite Hopt. apply in_or_app. right. apply selection_offered. }
  destruct (selectClass_found _ pg1 Hin) as (Hname & Hpos & Hnth).
  rewrite Hoff, Hname, Hopt', Hmsg', Hitems, Hcore.
  refine (conj eq_refl (conj _ (conj Hpos (conj Hnth (conj Hmsg eq_refl))))).
  apply selection_offered.
Qed.

Lemma replaceFirst_eq (pat rep s : string) :
  replaceFirst pat rep s
  = if prefix pat s then rep ++ dropChars (String.length pat) s
    else match s with
         | EmptyString => EmptyString
         | String c r => String c (replaceFirst pat rep r)
         end.
Proof. destruct s; reflexivity. Qed.

Lemma dropChars_append (p x : string) : dropChars (String.length p) (p ++ x) = x.
Proof. induction p as [|c p IH]; [destruct x; reflexivity | exact IH]. Qed.

Lemma replaceFirst_prefix (p x : string) : replaceFirst p "" (p ++ x) = x.
Proof.
  rewrite replaceFirst_eq, prefix_append. apply dropChars_append.
Qed.

Lemma hasLineTerminator_cons (c : ascii) (r : string) :
  c <> "010"%char -> c <> "013"%char -> c <> "226"%char ->
  hasLineTerminator (String c r) = hasLineTerminator r.
Proof.
  intros Hlf Hcr Hu. unfold hasLineTerminator, LF, CR, LS, PS.
  rewrite !includes_char_cons.
  rewrite (proj2 (Ascii.eqb_neq c "010") Hlf), (proj2 (Ascii.eqb_neq c "013") Hcr).
  cbn [orb].
  change (includes (String c r) (String "226" (String "128" (String "168" ""))))
    with ((if ascii_dec "226" c
           then prefix (String "128" (String "168" "")) r else false)
          || includes r (String "226" (String "128" (String "168" "")))).
  change (includes (String c r) (String "226" (String "128" (String "169" ""))))
    with ((if ascii_dec "226" c
           then prefix (String "128" (String "169" "")) r else false)
          || includes r (String "226" (String "128" (String "169" "")))).
  destruct (ascii_dec "226" c) as [Heq|_]; [congruence | reflexivity].
Qed.

Lemma cutXml_eq (s : string) :
  cutXml s
  = if prefix ".xml" s && negb (hasLineTerminator s) then EmptyString
    else match s with
         | EmptyString => EmptyString
         | String c r => String c (cutXml r)
         end.
Proof. destruct s; reflexivity. Qed.

(** The name before ".xml" is what [cutXml] keeps. *)
Lemma cutXml_name (c rest : string) :
  includes c "." = false ->
  hasLineTerminator rest = false ->
  cutXml (c ++ ".xml" ++ rest) = c.
Proof.
  intros Hc Hrest. induction c as [|ch c IH].
  - rewrite cutXml_eq.
    change ("" ++ ".xml" ++ rest) with (".xml" ++ rest).
    rewrite (prefix_append ".xml" rest).
    change (".xml" ++ rest)
      with (String "." (String "x" (String "m" (String "l" rest)))).
    rewrite !hasLineTerminator_cons by discriminate.
    rewrite Hrest. reflexivity.
  - rewrite includes_char_cons, orb_false_iff in Hc. destruct Hc as [Hch Hc].
    rewrite cutXml_eq.
    change (String ch c ++ ".xml" ++ rest) with (String ch (c ++ ".xml" ++ rest)).
    change (prefix ".xml" (String ch (c ++ ".xml" ++ rest)))
      with (if ascii_dec "." ch then prefix "xml" (c ++ ".xml" ++ rest) else false).
    destruct (ascii_dec "." ch) as [Heq|_].
    + subst ch. discriminate.
    + cbn [andb]. now rewrite (IH Hc).
Qed.

Lemma readClasses_reads (li : string) (lines : list string) :
  In li lines ->
  prefix parser.groupTag (dropLeadingTab li) = true ->
  notExcluded (cutXml (replaceFirst parser.groupTag "" (dropLeadingTab li))) ->
  forall avail,
    In (cutXml (replaceFirst parser.groupTag "" (dropLeadingTab li)))
       (parser.readClasses lines avail).
Proof.
  intros Hin Hpre Hex. induction lines as [|l lines IH]; [destruct Hin|].
  intros avail. destruct Hin as [->|Hin].
  - cbn [parser.readClasses]. rewrite Hpre, Hex.
    destruct (readClasses_grows lines
                (avail ++ [cutXml (replaceFirst parser.groupTag "" (dropLeadingTab li))]))
      as (new & -> & _).
    apply in_or_app. left. apply in_or_app. right. now left.
  - cbn [parser.readClasses].
    destruct (prefix parser.groupTag (dropLeadingTab l)); [|now apply IH].
    destruct (classes.member _ classes.excludes); now apply IH.
Qed.

(** X16: a line of the configuration that, after one leading tab, opens
    the group tag on the document [c].xml becomes the available class
    [c], when [c] has no dot and is not excluded and no Unicode line
    separator follows on the line. *)
Theorem parseClasses_reads_group_line (content li c rest : string)
    (requested : option string) (pg : page) :
  In li (split "010" (util.normalize content)) ->
  dropLeadingTab li = parser.groupTag ++ c ++ ".xml" ++ rest ->
  includes c "." = false ->
  hasLineTerminator rest = false ->
  notExcluded c ->
  In c (available (parser.parseClasses content requested pg)).
Proof.
  intros Hin Hli Hc Hrest Hex.
  destruct (available_parseClasses content requested pg) as [-> _].
  assert (Hname : cutXml (replaceFirst parser.groupTag "" (dropLeadingTab li)) = c).
  { rewrite Hli, replaceFirst_prefix. now apply cutXml_name. }
  rewrite <- Hname. apply readClasses_reads.
  - exact Hin.
  - rewrite Hli. apply prefix_append.
  - now rewrite Hname.
Qed.

Lemma parseClasses_reads_group_line_witness :
  In "axes"%string
     (available
        (parser.parseClasses
           ("<groups>" ++ CR ++ LF ++ groupLine "dummy_weapons" ++ CR ++ LF
            ++ groupLine "axes" ++ CR ++ LF ++ "</groups>")
           (Some "axes"%string) blankPage)).
Proof.
  apply (parseClasses_reads_group_line _ (groupLine "axes") "axes" (quote ++ "/>")).
  - vm_compute. right. right. left. reflexivity.
  - reflexivity.
  - reflexivity.
  - reflexivity.
  - reflexivity.
Defined.

Lemma hidden_tokenAdd (l : list string) :
  classes.member "hidden" (tokenAdd "hidden" l) = true.
Proof.
  unfold tokenAdd, classes.member.
  destruct (existsb (fun t => (t =? "hidden")%string) l) eqn:Hl; [exact Hl|].
  rewrite existsb_app. cbn. apply orb_true_r.
Qed.

Lemma hidden_tokenRemove (l : list string) :
  classes.member "hidden" (tokenRemove "hidden" l) = false.
Proof.
  unfold tokenRemove, classes.member.
  induction l as [|t l IH]; [reflexivity|].
  cbn [filter]. destruct (t =? "hidden")%string eqn:Ht; cbn [negb]; [exact IH|].
  cbn [existsb]. now rewrite Ht, IH.
Qed.

Lemma other_tokenAdd (tok : string) (l : list string) :
  tok <> "hidden"%string -> In tok (tokenAdd "hidden" l) <-> In tok l.
Proof.
  intros Hne. unfold tokenAdd.
  destruct (existsb _ l); [reflexivity|].
  rewrite in_app_iff. cbn. intuition congruence.
Qed.

Lemma other_tokenRemove (tok : string) (l : list string) :
  tok <> "hidden"%string -> In tok (tokenRemove "hidden" l) <-> In tok l.
Proof.
  intros Hne. unfold tokenRemove. rewrite filter_In.
  split; [tauto|]. intros Hin. split; [exact Hin|].
  apply negb_true_iff, String.eqb_neq. exact Hne.
Qed.

Lemma fold_hide (ids : list string) (i : string) :
  forall cl,
    classes.member "hidden" (fold_left main.hide ids cl i)
    = classes.member i ids || classes.member "hidden" (cl i).
Proof.
  induction ids as [|id ids IH]; intros cl; [reflexivity|].
  cbn [fold_left]. rewrite IH. unfold main.hide.
  cbn [classes.member existsb]. rewrite (String.eqb_sym id i).
  destruct (i =? id)%string.
  - rewrite hidden_tokenAdd. now rewrite orb_true_r.
  - now rewrite orb_false_l.
Qed.

Lemma fold_unhide (ids : list string) (i : string) :
  forall cl,
    classes.member "hidden" (fold_left main.unhide ids cl i)
    = negb (classes.member i ids) && classes.member "hidden" (cl i).
Proof.
  induction ids as [|id ids IH]; intros cl; [reflexivity|].
  cbn [fold_left]. rewrite IH. unfold main.unhide.
  cbn [classes.member existsb]. rewrite (String.eqb_sym id i).
  destruct (i =? id)%string.
  - rewrite hidden_tokenRemove. now rewrite andb_false_r.
  - reflexivity.
Qed.

Lemma fold_hide_tokens (tok : string) (ids : list string) (i : string) :
  tok <> "hidden"%string ->
  forall cl, In tok (fold_left main.hide ids cl i) <-> In tok (cl i).
Proof.
  intros Hne. induction ids as [|id ids IH]; intros cl; [reflexivity|].
  cbn [fold_left]. rewrite IH. unfold main.hide.
  destruct (i =? id)%string; [now apply other_tokenAdd | reflexivity].
Qed.

Lemma fold_unhide_tokens (tok : string) (ids : list string) (i : string) :
  tok <> "hidden"%string ->
  forall cl, In tok (fold_left main.unhide ids cl i) <-> In tok (cl i).
Proof.
  intros Hne. induction ids as [|id ids IH]; intros cl; [reflexivity|].
  cbn [fold_left]. rewrite IH. unfold main.unhide.
  destruct (i =? id)%string; [now apply other_tokenRemove | reflexivity].
Qed.

Lemma fold_hide_other (ids : list string) (i : string) :
  classes.member i ids = false ->
  forall cl, fold_left main.hide ids cl i = cl i.
Proof.
  induction ids as [|id ids IH]; intros Hi cl; [reflexivity|].
  cbn [classes.member existsb] in Hi. apply orb_false_iff in Hi.
  destruct Hi as [Hid Hi]. cbn [fold_left]. rewrite (IH Hi).
  unfold main.hide. now rewrite String.eqb_sym, Hid.
Qed.

Lemma fold_unhide_other (ids : list string) (i : string) :
  classes.member i ids = false ->
  forall cl, fold_left main.unhide ids cl i = cl i.
Proof.
  induction ids as [|id ids IH]; intros Hi cl; [reflexivity|].
  cbn [classes.member existsb] in Hi. apply orb_false_iff in Hi.
  destruct Hi as [Hid Hi]. cbn [fold_left]. rewrite (IH Hi).
  unfold main.unhide. now rewrite String.eqb_sym, Hid.
Qed.

(** [updateColumns] hides the seven columns and shows [shownColumns]
    again. *)
Lemma updateColumns_steps (pg : page) :
  classList (main.updateColumns pg)
  = fold_left main.unhide (shownColumns (className (core pg)))
      (fold_left main.hide ("value" :: main.weaponAttr ++ main.armorAttr ++ main.projAttr)
                 (classList pg)).
Proof.
  unfold main.updateColumns, shownColumns. cbn [classList withClassList].
  destruct (classes.isWeaponType _).
  - rewrite fold_left_app. destruct (classes.isRangedType _); reflexivity.
  - destruct (classes.isArmorType _); [reflexivity|].
    destruct (classes.isProjectileType _); [reflexivity|].
    destruct (_ =? "money")%string; reflexivity.
Qed.

(** The tables of [classes] do not overlap, and "ranged" is a weapon
    class. *)
Lemma class_kinds (cls : string) :
  (classes.isWeaponType cls = true ->
   classes.isArmorType cls = false /\ classes.isProjectileType cls = false
   /\ (cls =? "money")%string = false)
  /\ (classes.isArmorType cls = true ->
      classes.isProjectileType cls = false /\ (cls =? "money")%string = false
      /\ classes.isRangedType cls = false)
  /\ (classes.isProjectileType cls = true ->
      (cls =? "money")%string = false /\ classes.isRangedType cls = false)
  /\ (classes.isRangedType cls = true -> classes.isWeaponType cls = true)
  /\ ((cls =? "money")%string = true -> classes.isRangedType cls = false).
Proof.
  refine (conj _ (conj _ (conj _ (conj _ _)))).
  - unfold classes.isWeaponType. rewrite orb_true_iff, String.eqb_eq, member_In.
    intros [->|Hin]; [repeat split|].
    cbn in Hin. decompose [or] Hin; subst; try contradiction; repeat split.
  - unfold classes.isArmorType at 1. rewrite orb_true_iff, String.eqb_eq, member_In.
    intros [->|Hin]; [repeat split|].
    cbn in Hin. decompose [or] Hin; subst; try contradiction; repeat split.
  - unfold classes.isProjectileType at 1. rewrite orb_true_iff, String.eqb_eq, member_In.
    intros [->|Hin]; [repeat split|].
    cbn in Hin. decompose [or] Hin; subst; try contradiction; repeat split.
  - unfold classes.isRangedType. rewrite String.eqb_eq. intros ->. reflexivity.
  - rewrite String.eqb_eq. intros ->. reflexivity.
Qed.

(** X17: after [updateColumns] which of the seven stat columns are
    hidden depends on the selected class alone, whatever was hidden
    before: "level" is shown for weapon, armor and projectile classes,
    "rate" and "dpt" for weapon classes, "atk" for weapon and projectile
    classes, "def" for armor classes, "range" for "ranged" and for
    projectile classes, "value" for "money".  The other elements, and the
    other tokens of the seven columns, are untouched. *)
Theorem updateColumns_visibility (pg : page) :
  hidden (main.updateColumns pg) "level"
  = negb (classes.isWeaponType (className (core pg))
          || classes.isArmorType (className (core pg))
          || classes.isProjectileType (className (core pg)))
  /\ hidden (main.updateColumns pg) "rate"
     = negb (classes.isWeaponType (className (core pg)))
  /\ hidden (main.updateColumns pg) "dpt"
     = negb (classes.isWeaponType (className (core pg)))
  /\ hidden (main.updateColumns pg) "atk"
     = negb (classes.isWeaponType (className (core pg))
             || classes.isProjectileType (className (core pg)))
  /\ hidden (main.updateColumns pg) "def"
     = negb (classes.isArmorType (className (core pg)))
  /\ hidden (main.updateColumns pg) "range"
     = negb (classes.isRangedType (className (core pg))
             || classes.isProjectileType (className (core pg)))
  /\ hidden (main.updateColumns pg) "value"
     = negb (className (core pg) =? "money")%string
  /\ (forall id, classes.member id statColumns = false ->
        classList (main.updateColumns pg) id = classList pg id)
  /\ (forall id tok, tok <> "hidden"%string ->
        In tok (classList (main.updateColumns pg) id) <-> In tok (classList pg id)).
Proof.
  unfold hidden. rewrite updateColumns_steps.
  destruct (class_kinds (className (core pg))) as (Hw & Ha & Hp & Hr & Hm).
  assert (Hids : forall id,
            classes.member "hidden"
              (fold_left main.unhide (shownColumns (className (core pg)))
                 (fold_left main.hide
                    ("value" :: main.weaponAttr ++ main.armorAttr ++ main.projAttr)
                    (classList pg)) id)
            = negb (classes.member id (shownColumns (className (core pg))))
              && (classes.member id
                    ("value" :: main.weaponAttr ++ main.armorAttr ++ main.projAttr)
                  || classes.member "hidden" (classList pg id))).
  { intros id. now rewrite fold_unhide, fold_hide. }
  rewrite !Hids. unfold shownColumns.
  refine (conj _ (conj _ (conj _ (conj _ (conj _ (conj _ (conj _ (conj _ _)))))))).
  1-7: destruct (classes.isWeaponType (className (core pg))) eqn:Ew,
                (classes.isArmorType (className (core pg))) eqn:Ea,
                (classes.isProjectileType (className (core pg))) eqn:Ep,
                (classes.isRangedType (className (core pg))) eqn:Er,
                (className (core pg) =? "money")%string eqn:Em;
       first [ reflexivity
             | exfalso;
               repeat match goal with
                      | H : ?a = true -> _, E : ?a = true |- _ => specialize (H E)
                      end;
               intuition congruence ].
  - intros id Hid.
    assert (Hsub : forall ids, incl ids statColumns -> classes.member id ids = false).
    { intros ids Hincl. destruct (classes.member id ids) eqn:Hmem; [|reflexivity].
      apply member_In, Hincl, member_In in Hmem. congruence. }
    rewrite fold_unhide_other, fold_hide_other; [reflexivity | |].
    + apply Hsub. intros x Hx. cbn in Hx. unfold statColumns. cbn.
      decompose [or] Hx; subst; tauto.
    + apply Hsub.
      destruct (classes.isWeaponType (className (core pg))),
               (classes.isArmorType (className (core pg))),
               (classes.isProjectileType (className (core pg))),
               (classes.isRangedType (className (core pg))),
               (className (core pg) =? "money")%string;
        intros x Hx; cbn in Hx; unfold statColumns; cbn;
        decompose [or] Hx; subst; tauto.
  - intros id tok Hne. now rewrite fold_unhide_tokens, fold_hide_tokens.
Qed.

End Classes.

(** ** The loop of [main.displayItems] *)

Section Table.

Lemma appendCell_fold (pcs : list (string * cell)) :
  forall col id,
    fold_left main.appendCell pcs col id
    = (col id ++ map snd (filter (fun pc => (id =? fst pc)%string) pcs))%list.
Proof.
  induction pcs as [|pc pcs IH]; intros col id; cbn [fold_left filter].
  - now rewrite app_nil_r.
  - rewrite IH. unfold main.appendCell.
    destruct (id =? fst pc)%string; [|reflexivity].
    cbn [map]. now rewrite <- app_assoc.
Qed.

Lemma no_cell_elsewhere (pcs : list (string * cell)) (id : string) :
  classes.member id (map fst pcs) = false ->
  map snd (filter (fun pc => (id =? fst pc)%string) pcs) = [].
Proof.
  induction pcs as [|pc pcs IH]; [reflexivity|].
  cbn [map classes.member existsb]. rewrite orb_false_iff. intros [Hpc Hrest].
  cbn [filter]. rewrite String.eqb_sym, Hpc. now apply IH.
Qed.

(** A row puts one cell in each column of the table, odd when
    [main.odd] is set, and none elsewhere. *)
Lemma row_cells (br : string) (isOdd : bool) (it : item) (link id : string) :
  In id tableColumns ->
  exists c,
    map snd (filter (fun pc => (id =? fst pc)%string) (main.rowCells br isOdd it link))
    = [c]
    /\ isOddCell c = isOdd
    /\ option_map snd
         (find (fun pc => (id =? fst pc)%string) (main.rowCells br isOdd it link))
       = Some c.
Proof.
  unfold tableColumns. cbn [In]. intros Hid.
  decompose [or] Hid; subst; try contradiction;
    (eexists; split; [reflexivity | split; [destruct isOdd; reflexivity | reflexivity]]).
Qed.

Lemma named_link (it : item) : named it -> exists link, main.itemLink it = Some link.
Proof. intros [nm Hnm]. unfold main.itemLink. rewrite Hnm. eexists. reflexivity. Qed.

Lemma displayRows_app (a b : list item) :
  forall pg,
    main.displayRows (a ++ b) pg
    = match main.displayRows a pg with
      | Done pg' => main.displayRows b pg'
      | Raised pg' => Raised pg'
      end.
Proof.
  induction a as [|it a IH]; intros pg; [reflexivity|].
  cbn [app main.displayRows]. destruct (main.itemLink it); [apply IH | reflexivity].
Qed.

Lemma displayRows_named (rows : list item) :
  Forall named rows ->
  forall pg, exists pg',
    main.displayRows rows pg = Done pg'
    /\ (forall id, In id tableColumns ->
          exists cells,
            column pg' id = (column pg id ++ cells)%list
            /\ List.length cells = List.length rows
            /\ forall k c, nth_error cells k = Some c ->
                  isOddCell c = xorb (odd pg) (Nat.odd k)
                  /\ exists it,
                       nth_error rows k = Some it
                       /\ cellOf (branch pg) (xorb (odd pg) (Nat.odd k)) it id = Some c)
    /\ (forall id, classes.member id tableColumns = false ->
          column pg' id = column pg id)
    /\ odd pg' = xorb (odd pg) (Nat.odd (List.length rows))
    /\ core pg' = core pg /\ messages pg' = messages pg
    /\ classList pg' = classList pg.
Proof.
  induction 1 as [|it rows Hit _ IH]; intros pg.
  - exists pg. split; [reflexivity|].
    refine (conj _ (conj _ (conj _ (conj eq_refl (conj eq_refl eq_refl))))).
    + intros id _. exists []. rewrite app_nil_r. split; [reflexivity|].
      split; [reflexivity|]. intros [|k] c Hc; discriminate.
    + reflexivity.
    + now destruct (odd pg).
  - destruct (named_link it Hit) as [link Hlink].
    cbn [main.displayRows]. rewrite Hlink.
    set (pg1 := withRow pg _).
    assert (Hflip : forall k, xorb (odd pg1) (Nat.odd k) = xorb (odd pg) (Nat.odd (S k))).
    { intros k. unfold pg1. cbn [odd withRow].
      rewrite Nat.odd_succ, <- Nat.negb_odd.
      destruct (odd pg), (Nat.odd k); reflexivity. }
    destruct (IH pg1) as (pg' & Hrun & Hcols & Helse & Hodd & Hcore & Hmsg & Hcl).
    exists pg'. split; [exact Hrun|].
    refine (conj _ (conj _ (conj _ (conj Hcore (conj Hmsg Hcl))))).
    + intros id Hid. destruct (Hcols id Hid) as (cells & Hcol & Hlen & Halt).
      destruct (row_cells (branch pg) (odd pg) it link id Hid)
        as (c & Hc & Hoddc & Hfind).
      exists (c :: cells). rewrite Hcol. unfold pg1 at 1. cbn [column withRow].
      rewrite appendCell_fold, Hc, <- app_assoc.
      split; [reflexivity|]. split; [cbn [List.length]; now rewrite Hlen|].
      intros [|k] c' Hc'.
      * injection Hc' as <-.
        replace (xorb (odd pg) (Nat.odd 0)) with (odd pg) by now destruct (odd pg).
        split; [exact Hoddc|]. exists it. split; [reflexivity|].
        unfold cellOf. now rewrite Hlink.
      * destruct (Halt k c' Hc') as (Hk & it' & Hit' & Hcell).
        rewrite Hflip in Hk, Hcell.
        split; [exact Hk|]. exists it'. split; [exact Hit' | exact Hcell].
    + intros id Hid. rewrite (Helse id Hid). unfold pg1. cbn [column withRow].
      rewrite appendCell_fold, no_cell_elsewhere; [apply app_nil_r | exact Hid].
    + rewrite Hodd, Hflip. reflexivity.
Qed.

(** X18: when every record has a text as its name, the loop of
    [displayItems] returns; each of the eleven columns has then got one
    cell per record, in the order of the records: the [k]-th new cell of
    a column is the cell the row of the [k]-th record puts there, built
    from that record's own properties; the cells of a row are odd or not
    together, rows alternating from [main.odd] on; no other column got a
    cell; and [main.odd] has flipped once per record. *)
Theorem displayRows_table (rows : list item) (pg : page) :
  Forall named rows ->
  exists pg',
    main.displayRows rows pg = Done pg'
    /\ (forall id, In id tableColumns ->
          exists cells,
            column pg' id = (column pg id ++ cells)%list
            /\ List.length cells = List.length rows
            /\ forall k c, nth_error cells k = Some c ->
                  isOddCell c = xorb (odd pg) (Nat.odd k)
                  /\ exists it,
                       nth_error rows k = Some it
                       /\ cellOf (branch pg) (xorb (odd pg) (Nat.odd k)) it id = Some c)
    /\ (forall id, classes.member id tableColumns = false ->
          column pg' id = column pg id)
    /\ odd pg' = xorb (odd pg) (Nat.odd (List.length rows)).
Proof.
  intros Hrows.
  destruct (displayRows_named rows Hrows pg) as (pg' & Hrun & Hcols & Helse & Hodd & _).
  exists pg'. split; [exact Hrun|]. split; [exact Hcols|].
  split; [exact Helse | exact Hodd].
Qed.

Lemma displayRows_table_witness :
  exists pg' cells,
    main.displayRows [plainRecord (Str "club") "clubs"; plainRecord (Str "") "axes";
                      plainRecord (Str "l/r hand swords") "swords"] blankPage
    = Done pg'
    /\ column pg' "class" = cells
    /\ map body cells
       = [InnerHTML "&nbsp;&nbsp;&nbsp;&nbsp;clubs"; InnerHTML "&nbsp;&nbsp;&nbsp;&nbsp;axes";
          InnerHTML "&nbsp;&nbsp;&nbsp;&nbsp;swords"]
    /\ map isOddCell cells = [false; true; false]
    /\ odd pg' = true.
Proof.
  destruct (displayRows_table
              [plainRecord (Str "club") "clubs"; plainRecord (Str "") "axes";
               plainRecord (Str "l/r hand swords") "swords"] blankPage)
    as (pg' & Hrun & Hcols & _ & Hodd).
  { repeat constructor; eexists; reflexivity. }
  destruct (Hcols "class"%string) as (cells & Hcol & Hlen & Hcell).
  { right. left. reflexivity. }
  destruct cells as [|c0 [|c1 [|c2 [|c3 cells]]]]; try discriminate Hlen.
  destruct (Hcell 0%nat c0 eq_refl) as (Hodd0 & it0 & Hit0 & Hc0).
  destruct (Hcell 1%nat c1 eq_refl) as (Hodd1 & it1 & Hit1 & Hc1).
  destruct (Hcell 2%nat c2 eq_refl) as (Hodd2 & it2 & Hit2 & Hc2).
  injection Hit0 as <-. injection Hit1 as <-. injection Hit2 as <-.
  vm_compute in Hc0, Hc1, Hc2.
  injection Hc0 as <-. injection Hc1 as <-. injection Hc2 as <-.
  exists pg'. eexists. split; [exact Hrun|]. split; [exact Hcol|].
  split; [reflexivity|]. split; [reflexivity | exact Hodd].
Defined.

(** X19: a record whose name is [null] makes the loop throw: the rows
    of the records before it are in the table, its own row and the rows
    after it are not. *)
Theorem displayRows_null_name (before after : list item) (it : item) (pg : page) :
  Forall named before ->
  name it = Null ->
  exists pg',
    main.displayRows before pg = Done pg'
    /\ main.displayRows (before ++ it :: after) pg = Raised pg'.
Proof.
  intros Hbefore Hnull.
  destruct (displayRows_named before Hbefore pg) as (pg' & Hrun & _).
  exists pg'. split; [exact Hrun|].
  rewrite displayRows_app, Hrun. cbn [main.displayRows].
  unfold main.itemLink. now rewrite Hnull.
Qed.

Lemma displayRows_null_name_witness :
  exists pg',
    main.displayRows [plainRecord (Str "club") "clubs"] blankPage = Done pg'
    /\ main.displayRows ([plainRecord (Str "club") "clubs"]
                         ++ plainRecord Null "clubs" :: [plainRecord (Str "axe") "axes"])
                        blankPage
       = Raised pg'.
Proof.
  apply (displayRows_null_name [plainRecord (Str "club") "clubs"]
           [plainRecord (Str "axe") "axes"] (plainRecord Null "clubs") blankPage).
  - repeat constructor. eexists; reflexivity.
  - reflexivity.
Defined.

(** X20: the link of a record with a text as name is the item address,
    the class, and a file name without any space; the merged pair links
    to the page of the left hand sword. *)
Theorem itemLink_file (it : item) (nm : string) :
  name it = Str nm ->
  exists file,
    main.itemLink it
    = Some ("https://stendhalgame.org/item/" ++ ToString (class it) ++ "/"
            ++ file ++ ".html")
    /\ includes file " " = false
    /\ (nm = "l/r hand swords"%string -> file = "l_hand_sword"%string)
    /\ (includes nm " " = false -> nm <> "l/r hand swords"%string -> file = nm).
Proof.
  intros Hnm. unfold main.itemLink. rewrite Hnm.
  eexists. split; [reflexivity|].
  refine (conj _ (conj _ _)).
  - unfold replaceAll. apply replaceAll_char_gone. discriminate.
  - intros ->. reflexivity.
  - intros Hfree Hne. apply String.eqb_neq in Hne. rewrite Hne.
    unfold replaceAll. now apply replaceAll_no_match.
Qed.

Lemma itemLink_file_witness :
  exists file,
    main.itemLink (plainRecord (Str "golden hammer") "clubs")
    = Some ("https://stendhalgame.org/item/" ++ "clubs" ++ "/" ++ file ++ ".html")
    /\ includes file " " = false
    /\ ("golden hammer"%string = "l/r hand swords"%string -> file = "l_hand_sword"%string)
    /\ (includes "golden hammer" " " = false ->
        "golden hammer"%string <> "l/r hand swords"%string ->
        file = "golden hammer"%string).
Proof.
  apply (itemLink_file (plainRecord (Str "golden hammer") "clubs") "golden hammer").
  reflexivity.
Defined.

End Table.

(** ** [remote] *)

Section Network.

Variable env : browser.

Lemma parseItems_app (a b : list itemNode) :
  forall st,
    parser.parseItems st (a ++ b)
    = match parser.parseItems st a with
      | Returned st' => parser.parseItems st' b
      | TypeError st' => TypeError st'
      end.
Proof.
  induction a as [|itemData a IH]; intros st; [reflexivity|].
  cbn [app parser.parseItems].
  destruct (parser.parseItem st itemData); [apply IH | reflexivity].
Qed.

Lemma parseItems_selection (content : list itemNode) :
  forall st,
    className (finalState (parser.parseItems st content)) = className st
    /\ showUnattainable (finalState (parser.parseItems st content))
       = showUnattainable st.
Proof.
  induction content as [|itemData content IH]; intros st; [split; reflexivity|].
  cbn [parser.parseItems].
  destruct (parseItem_cases st itemData) as (Hc & Hs & _).
  destruct (parser.parseItem st itemData) as [st'|st']; cbn [finalState] in *.
  - destruct (IH st') as [Hc' Hs']. split; congruence.
  - split; assumption.
Qed.

Lemma fetchClassItems_arrives (pg : page) (c : string) (nodes : list itemNode) :
  arrives env (branch pg) c nodes ->
  exists message,
    remote.fetchClassItems env pg c
    = match parser.parseItems (core pg) nodes with
      | Returned st => withCore pg st
      | TypeError st => logger.error message (withCore pg st)
      end.
Proof.
  intros (text & Hfetch & Hnodes).
  exists (typeErrorMessage env ("data/conf/items/" ++ c ++ ".xml") text).
  unfold remote.fetchClassItems, remote.fetchText, remote.itemsCallback.
  unfold documentOf in Hfetch. rewrite Hfetch, Hnodes.
  destruct (parser.parseItems (core pg) nodes); reflexivity.
Qed.

Lemma fetchClassItems_frame (pg : page) (c : string) :
  sameChrome (remote.fetchClassItems env pg c) pg
  /\ className (core (remote.fetchClassItems env pg c)) = className (core pg)
  /\ showUnattainable (core (remote.fetchClassItems env pg c))
     = showUnattainable (core pg)
  /\ exists errs,
       messages (remote.fetchClassItems env pg c)
       = (messages pg ++ map errorParagraph errs)%list
       /\ errorLog (remote.fetchClassItems env pg c) = (errorLog pg ++ errs)%list
       /\ (List.length errs <= 1)%nat.
Proof.
  unfold remote.fetchClassItems, remote.fetchText, remote.itemsCallback.
  destruct (fetch env _) as [text|message].
  - destruct (parseItems_selection (itemsOf env text) (core pg)) as [Hc Hs].
    destruct (parser.parseItems (core pg) (itemsOf env text)) as [st|st];
      cbn [finalState] in Hc, Hs.
    + split; [repeat split|]. split; [exact Hc|]. split; [exact Hs|].
      exists []. cbn. rewrite !app_nil_r. auto.
    + split; [repeat split|]. split; [exact Hc|]. split; [exact Hs|].
      exists [typeErrorMessage env ("data/conf/items/" ++ c ++ ".xml") text].
      cbn [messages errorLog logger.error logger.display withCore map List.length].
      auto.
  - split; [repeat split|]. split; [reflexivity|]. split; [reflexivity|].
    exists [message]. cbn. auto.
Qed.

Lemma fold_fetch_frame (members : list string) :
  forall pg,
    sameChrome (fold_left (remote.fetchClassItems env) members pg) pg
    /\ className (core (fold_left (remote.fetchClassItems env) members pg))
       = className (core pg)
    /\ showUnattainable (core (fold_left (remote.fetchClassItems env) members pg))
       = showUnattainable (core pg)
    /\ exists errs,
         messages (fold_left (remote.fetchClassItems env) members pg)
         = (messages pg ++ map errorParagraph errs)%list
         /\ errorLog (fold_left (remote.fetchClassItems env) members pg)
            = (errorLog pg ++ errs)%list
         /\ (List.length errs <= List.length members)%nat.
Proof.
  induction members as [|c members IH]; intros pg.
  - split; [repeat split|]. split; [reflexivity|]. split; [reflexivity|].
    exists []. cbn. rewrite !app_nil_r. auto.
  - cbn [fold_left].
    destruct (fetchClassItems_frame pg c) as (Hch & Hc & Hs & errs & Hm & He & Hl).
    destruct (IH (remote.fetchClassItems env pg c))
      as (Hch' & Hc' & Hs' & errs' & Hm' & He' & Hl').
    split; [unfold sameChrome in *; intuition congruence|].
    split; [congruence|]. split; [congruence|].
    exists (errs ++ errs')%list.
    rewrite Hm', He', Hm, He, map_app, <- !app_assoc, length_app.
    cbn [List.length]. split; [reflexivity|]. split; [reflexivity | lia].
Qed.

Lemma fetchItemsForClass_fold (pg : page) :
  className (core pg) <> ""%string ->
  remote.fetchItemsForClass env pg
  = fold_left (remote.fetchClassItems env) (classesToFetch (className (core pg))) pg.
Proof.
  intros Hcls. unfold remote.fetchItemsForClass, classesToFetch.
  destruct (className (core pg)) as [|a cls]; [contradiction|].
  cbn [String.length Nat.eqb].
  destruct (if classes.member (String a cls) classes.getGroupNames
            then classes.groupOf (String a cls) else None); reflexivity.
Qed.

(** X21: [fetchItemsForClass] leaves the selected class and the
    [showUnattainable] flag, and of the page everything but the
    collection and the messages; each message it adds is a red error
    paragraph, logged to the console as well, at most one per document
    asked for.  With the empty text as class nothing is fetched: the
    collection stays and the one message is "No class selected". *)
Theorem fetchItemsForClass_frame (pg : page) :
  sameChrome (remote.fetchItemsForClass env pg) pg
  /\ className (core (remote.fetchItemsForClass env pg)) = className (core pg)
  /\ showUnattainable (core (remote.fetchItemsForClass env pg))
     = showUnattainable (core pg)
  /\ exists errs,
       messages (remote.fetchItemsForClass env pg)
       = (messages pg ++ map errorParagraph errs)%list
       /\ errorLog (remote.fetchItemsForClass env pg) = (errorLog pg ++ errs)%list
       /\ (className (core pg) = ""%string ->
           errs = ["No class selected"%string]
           /\ core (remote.fetchItemsForClass env pg) = core pg)
       /\ (className (core pg) <> ""%string ->
           (List.length errs
            <= List.length (classesToFetch (className (core pg))))%nat).
Proof.
  destruct (string_dec (className (core pg)) "") as [Hnone|Hsome].
  - unfold remote.fetchItemsForClass. rewrite Hnone. cbn [String.length Nat.eqb].
    split; [repeat split|]. split; [cbn; now rewrite Hnone|].
    split; [reflexivity|].
    exists ["No class selected"%string]. cbn.
    split; [reflexivity|]. split; [reflexivity|].
    split; [intros _; split; [reflexivity | now destruct pg] | contradiction].
  - rewrite (fetchItemsForClass_fold pg Hsome).
    destruct (fold_fetch_frame (classesToFetch (className (core pg))) pg)
      as (Hch & Hc & Hs & errs & Hm & He & Hl).
    split; [exact Hch|]. split; [exact Hc|]. split; [exact Hs|].
    exists errs. split; [exact Hm|]. split; [exact He|].
    split; [contradiction | intros _; exact Hl].
Qed.

Lemma fold_documents (members : list string) (docs : list (list itemNode)) (br : string) :
  Forall2 (arrives env br) members docs ->
  forall pg, branch pg = br ->
    core (fold_left (remote.fetchClassItems env) members pg) = loadAll (core pg) docs
    /\ exists errs,
         messages (fold_left (remote.fetchClassItems env) members pg)
         = (messages pg ++ map errorParagraph errs)%list
         /\ List.length errs = thrown (core pg) docs
         /\ (returns (parser.parseItems (core pg) (List.concat docs)) = true ->
             errs = []
             /\ loadAll (core pg) docs
                = finalState (parser.parseItems (core pg) (List.concat docs))).
Proof.
  induction 1 as [|c nodes members docs Hc _ IH]; intros pg Hbr.
  - split; [reflexivity|]. exists []. cbn. rewrite app_nil_r. auto.
  - cbn [fold_left List.concat thrown]. unfold loadAll. cbn [fold_left]. fold loadAll.
    rewrite <- Hbr in Hc.
    destruct (fetchClassItems_arrives pg c nodes Hc) as [message Hstep].
    rewrite Hstep. rewrite parseItems_app.
    destruct (parser.parseItems (core pg) nodes) as [st|st]; cbn [finalState returns].
    + destruct (IH (withCore pg st) Hbr) as (Hcore & errs & Hm & Hall & Hret).
      cbn [core withCore messages] in *.
      split; [exact Hcore|]. exists errs. auto.
    + destruct (IH (logger.error message (withCore pg st)) Hbr)
        as (Hcore & errs & Hm & Hall & _).
      cbn [core withCore messages logger.error logger.display] in *.
      split; [exact Hcore|]. exists (message :: errs).
      rewrite Hm, <- app_assoc. cbn [map app List.length].
      split; [reflexivity|]. split; [now rewrite Hall | discriminate].
Qed.

(** X22: when every document it asks for arrives, [fetchItemsForClass]
    leaves the collection that parsing the documents one after the other
    leaves, each from what the one before left, whether it threw or not;
    and it shows one error message for each document on which the parse
    threw, and no other message. *)
Theorem documents_in_turn (pg : page) (docs : list (list itemNode)) :
  className (core pg) <> ""%string ->
  Forall2 (arrives env (branch pg)) (classesToFetch (className (core pg))) docs ->
  core (remote.fetchItemsForClass env pg) = loadAll (core pg) docs
  /\ exists errs,
       messages (remote.fetchItemsForClass env pg)
       = (messages pg ++ map errorParagraph errs)%list
       /\ List.length errs = thrown (core pg) docs.
Proof.
  intros Hcls Hdocs. rewrite (fetchItemsForClass_fold pg Hcls).
  destruct (fold_documents _ _ _ Hdocs pg eq_refl) as (Hcore & errs & Hm & Hall & _).
  split; [exact Hcore|]. exists errs. split; assumption.
Qed.

(** X23: when every document arrives and parsing them as one document
    returns, [fetchItemsForClass] leaves the collection of that one run
    and shows no message: a group is loaded as the concatenation of its
    documents. *)
Theorem group_as_one_document (pg : page) (docs : list (list itemNode)) :
  className (core pg) <> ""%string ->
  Forall2 (arrives env (branch pg)) (classesToFetch (className (core pg))) docs ->
  returns (parser.parseItems (core pg) (List.concat docs)) = true ->
  core (remote.fetchItemsForClass env pg)
  = finalState (parser.parseItems (core pg) (List.concat docs))
  /\ messages (remote.fetchItemsForClass env pg) = messages pg.
Proof.
  intros Hcls Hdocs Hret. rewrite (fetchItemsForClass_fold pg Hcls).
  destruct (fold_documents _ _ _ Hdocs pg eq_refl) as (Hcore & errs & Hm & _ & Hone).
  destruct (Hone Hret) as [-> Hsame].
  rewrite Hcore, Hsame, Hm. cbn. now rewrite app_nil_r.
Qed.

End Network.

Lemma documents_in_turn_witness :
  core (remote.fetchItemsForClass (sampleNetwork [rightHalf] [leftHalf; bareNode])
                                  blankPage)
  = loadAll (core blankPage) [[leftHalf; bareNode]; []; []; [rightHalf]; []]
  /\ exists errs,
       messages (remote.fetchItemsForClass
                   (sampleNetwork [rightHalf] [leftHalf; bareNode]) blankPage)
       = (messages blankPage ++ map errorParagraph errs)%list
       /\ List.length errs = 1%nat.
Proof.
  apply (documents_in_turn (sampleNetwork [rightHalf] [leftHalf; bareNode]) blankPage
           [[leftHalf; bareNode]; []; []; [rightHalf]; []]).
  - discriminate.
  - repeat (apply Forall2_cons; [eexists; split; reflexivity|]). apply Forall2_nil.
Defined.

Lemma group_as_one_document_witness :
  core (remote.fetchItemsForClass (sampleNetwork [rightHalf] [leftHalf]) blankPage)
  = finalState (parser.parseItems (core blankPage)
                  (List.concat [[leftHalf]; []; []; [rightHalf]; []]))
  /\ messages (remote.fetchItemsForClass (sampleNetwork [rightHalf] [leftHalf])
                                         blankPage)
     = messages blankPage.
Proof.
  apply (group_as_one_document (sampleNetwork [rightHalf] [leftHalf]) blankPage
           [[leftHalf]; []; []; [rightHalf]; []]).
  - discriminate.
  - repeat (apply Forall2_cons; [eexists; split; reflexivity|]). apply Forall2_nil.
  - vm_compute. reflexivity.
Defined.

Section Failures.

Variable env : browser.
Variable url : string.
Variable text : string.
Variable message : string.
Hypothesis Hrejected : fetch env url = Rejected message.
Hypothesis Hempty : itemsOf env text = [].

Lemma fetchClassItems_answering (pgA pgB : page) (c : string) :
  core pgA = core pgB -> branch pgA = branch pgB ->
  core (remote.fetchClassItems env pgA c)
  = core (remote.fetchClassItems (answering env url text) pgB c)
  /\ branch (remote.fetchClassItems env pgA c)
     = branch (remote.fetchClassItems (answering env url text) pgB c).
Proof.
  intros Hcore Hbranch.
  destruct (fetchClassItems_frame env pgA c) as ((_ & HbrA & _) & _).
  destruct (fetchClassItems_frame (answering env url text) pgB c) as ((_ & HbrB & _) & _).
  split; [|congruence].
  unfold remote.fetchClassItems, remote.fetchText. rewrite Hbranch.
  set (u := (main.repoPrefix ++ branch pgB ++ _)%string).
  change (fetch (answering env url text) u)
    with (if (u =? url)%string then Body text else fetch env u).
  destruct (String.eqb_spec u url) as [Heq|Hne].
  - rewrite Heq, Hrejected. unfold remote.itemsCallback.
    change (itemsOf (answering env url text)) with (itemsOf env).
    rewrite Hempty. cbn [parser.parseItems core withCore logger.error logger.display].
    exact Hcore.
  - destruct (fetch env u) as [t|m].
    + unfold remote.itemsCallback.
      change (itemsOf (answering env url text)) with (itemsOf env).
      rewrite Hcore. destruct (parser.parseItems (core pgB) (itemsOf env t)); reflexivity.
    + cbn [core logger.error logger.display]. exact Hcore.
Qed.

Lemma fold_answering (members : list string) :
  forall pgA pgB,
    core pgA = core pgB -> branch pgA = branch pgB ->
    core (fold_left (remote.fetchClassItems env) members pgA)
    = core (fold_left (remote.fetchClassItems (answering env url text)) members pgB).
Proof.
  induction members as [|c members IH]; intros pgA pgB Hcore Hbranch; [exact Hcore|].
  cbn [fold_left].
  destruct (fetchClassItems_answering pgA pgB c Hcore Hbranch) as [Hcore' Hbranch'].
  now apply IH.
Qed.

(** X24: a document that fails to arrive counts for the collection as a
    document without items: the collection is the one left on a network
    where that address answers with a text that holds no item. *)
Theorem failed_fetch_as_empty_document (pg : page) :
  core (remote.fetchItemsForClass env pg)
  = core (remote.fetchItemsForClass (answering env url text) pg).
Proof.
  destruct (string_dec (className (core pg)) "") as [Hnone|Hsome].
  - unfold remote.fetchItemsForClass. rewrite Hnone. reflexivity.
  - rewrite (fetchItemsForClass_fold env pg Hsome).
    rewrite (fetchItemsForClass_fold (answering env url text) pg Hsome).
    now apply fold_answering.
Qed.

End Failures.

Lemma failed_fetch_as_empty_document_witness :
  core (remote.fetchItemsForClass swordsMissing blankPage)
  = core (remote.fetchItemsForClass
            (answering swordsMissing (documentOf "master" "swords") "") blankPage).
Proof.
  apply (failed_fetch_as_empty_document swordsMissing (documentOf "master" "swords") ""
           "Failed to fetch").
  - reflexivity.
  - reflexivity.
Defined.
